(** * SoundMonopoly: the item store and the rotation engine

    A shallow embedding of [src/db/database.ts] and of the two generations
    of [src/db/operations.ts] (the first one works on a MongoDB collection
    handle and takes the first candidate, the second one works on a
    [DatabaseClient], branches on the backend and takes a random
    candidate), followed by the properties of the specification. *)

From stdpp Require Import base decidable option list gmap strings.
From Stdlib Require Import Ascii Lia.

Local Open Scope string_scope.
Local Open Scope list_scope.

(** * Values of the data model *)

Definition UserId : Type := string.
(** [ObjectId] of MongoDB and [INTEGER PRIMARY KEY AUTOINCREMENT] of SQLite:
    an opaque key handed out by the store. *)
Definition Id : Type := nat.
(** [Date] / [CURRENT_TIMESTAMP]; the clock is an input of the operations
    that read it. *)
Definition Timestamp : Type := nat.

(** [Omit<BaseItem, '_id'>], over the type [D] of the [data] field: the
    payload itself in a MongoDB document, its JSON text in a SQLite row.
    An optional field that is absent, [undefined] or [null] is [None]. *)
Record BaseItem (D : Type) : Type := mkItem {
  data : D;
  used : bool;
  assignedTo : option UserId;
  createdBy : option UserId;
  createdAt : option Timestamp
}.
Arguments mkItem {D}.
Arguments data {D}.
Arguments used {D}.
Arguments assignedTo {D}.
Arguments createdBy {D}.
Arguments createdAt {D}.

(** A stored document (row): the key given by the store and the fields. *)
Record Stored (D : Type) : Type := mkStored {
  _id : Id;
  item :> BaseItem D
}.
Arguments mkStored {D}.
Arguments _id {D}.
Arguments item {D}.

(** The [$set] document of an update, resp. the [SET] clause of an
    [UPDATE]: only [used] and [assignedTo] are ever written. *)
Record SetDoc : Type := mkSet {
  set_used : option bool;
  set_assignedTo : option (option UserId)
}.

(** [{ used: true, assignedTo: userId }] *)
Definition set_assign (userId : UserId) : SetDoc :=
  mkSet (Some true) (Some (Some userId)).
(** [{ used: false, assignedTo: undefined }], [SET used = FALSE, assignedTo = NULL];
    the MongoDB driver writes an [undefined] value as [null]. *)
Definition set_reset : SetDoc := mkSet (Some false) (Some None).
(** [{ used: true }] *)
Definition set_mark : SetDoc := mkSet (Some true) None.

Definition apply_set {D} (s : SetDoc) (b : BaseItem D) : BaseItem D :=
  mkItem (data b)
         (default (used b) (set_used s))
         (default (assignedTo b) (set_assignedTo s))
         (createdBy b) (createdAt b).

Definition update {D} (s : SetDoc) (d : Stored D) : Stored D :=
  mkStored (_id d) (apply_set s d).

(** Does the update write a value that differs from the stored one? *)
Definition changes {D} (s : SetDoc) (b : BaseItem D) : bool :=
  negb (bool_decide (used (apply_set s b) = used b))
  || negb (bool_decide (assignedTo (apply_set s b) = assignedTo b)).

(** * The store behind one collection or table *)

(** What the store has applied, oldest first: the history of a collection. *)
Inductive Mutation : Type :=
| Inserted (ids : list Id)
| Updated (ids : list Id) (s : SetDoc)
| Deleted (ids : list Id).

Record Store (D : Type) : Type := mkStore {
  docs : list (Stored D);      (* in store (insertion) order *)
  nextId : Id;                 (* the next key the store hands out *)
  journal : list Mutation
}.
Arguments mkStore {D}.
Arguments docs {D}.
Arguments nextId {D}.
Arguments journal {D}.

Definition empty_store {D} : Store D := mkStore [] 0 [].

Definition ids {D} (l : list (Stored D)) : list Id := _id <$> l.

(** Keys are unique and were handed out by the store. *)
Definition wf {D} (s : Store D) : Prop :=
  NoDup (ids (docs s)) ∧ Forall (λ i, i < nextId s) (ids (docs s)).

#[global] Instance wf_dec {D} (s : Store D) : Decision (wf s).
Proof. unfold wf. apply _. Defined.

(** ** Queries *)

Definition matching {D} (q : Stored D → bool) (s : Store D) : list (Stored D) :=
  filter (λ d, q d = true) (docs s).

(** ** Mutations *)

Fixpoint number {D} (n : Id) (batch : list (BaseItem D)) : list (Stored D) :=
  match batch with
  | [] => []
  | b :: batch => mkStored n b :: number (S n) batch
  end.

Definition insert_all {D} (batch : list (BaseItem D)) (s : Store D) : Store D :=
  let new := number (nextId s) batch in
  mkStore (docs s ++ new) (nextId s + length batch)
          (journal s ++ [Inserted (ids new)]).

Definition update_where {D} (q : Stored D → bool) (u : SetDoc) (s : Store D) : Store D :=
  mkStore ((λ d, if q d then update u d else d) <$> docs s) (nextId s)
          (journal s ++ [Updated (ids (matching q s)) u]).

Fixpoint update_first_in {D} (q : Stored D → bool) (u : SetDoc)
    (l : list (Stored D)) : list (Stored D) :=
  match l with
  | [] => []
  | d :: l => if q d then update u d :: l else d :: update_first_in q u l
  end.

Definition update_first {D} (q : Stored D → bool) (u : SetDoc) (s : Store D) : Store D :=
  mkStore (update_first_in q u (docs s)) (nextId s)
          (journal s ++ [Updated (ids (take 1 (matching q s))) u]).

Definition delete_where {D} (q : Stored D → bool) (s : Store D) : Store D :=
  mkStore (filter (λ d, q d = false) (docs s)) (nextId s)
          (journal s ++ [Deleted (ids (matching q s))]).

(** * Results and exceptions *)

Inductive Exception : Type :=
| Error (message : string)                       (* [new Error(message)] *)
| TypeError
| SyntaxError                                    (* [JSON.parse] *)
| MongoInvalidArgumentError (message : string)
| SqliteError (message : string).

Inductive Outcome (A : Type) : Type :=
| Returned (a : A)
| Thrown (e : Exception).
Arguments Returned {A}.
Arguments Thrown {A}.

(** An [async] function over a store of type [S]: the store after the call
    and either the value of the promise or the exception it rejects with.
    What was written before an exception stays written. *)
Definition M (S A : Type) : Type := S → S * Outcome A.

Definition ret {S A} (a : A) : M S A := λ s, (s, Returned a).
Definition throw {S A} (e : Exception) : M S A := λ s, (s, Thrown e).
Definition bind {S A B} (m : M S A) (f : A → M S B) : M S B :=
  λ s, match m s with
       | (s', Returned a) => f a s'
       | (s', Thrown e) => (s', Thrown e)
       end.
Definition get {S} : M S S := λ s, (s, Returned s).
Definition modify {S} (f : S → S) : M S unit := λ s, (f s, Returned tt).

Declare Scope op_scope.
Delimit Scope op_scope with op.
Bind Scope op_scope with M.
Notation "x ← y ; z" := (bind y (λ x, z))
  (at level 20, y at level 100, z at level 200, only parsing) : op_scope.
Local Open Scope op_scope.

(** [Math.random()] is a number in [0, 1): here the fraction
    [rnum / (rnum + rgap + 1)].  The same source stands for the order
    [ORDER BY RANDOM()] gives to the rows of a [SELECT]. *)
Record Random : Type := mkRandom { rnum : nat; rgap : nat }.

(** [Math.floor(Math.random() * length)] *)
Definition randomIndex (r : Random) (len : nat) : nat :=
  (rnum r * len) `div` (rnum r + rgap r + 1).

(** * The value the operations resolve to: [{ success, data }] *)

Inductive ResponseData (P : Type) : Type :=
| ItemData (payload : P)                                (* [item.data] *)
| ErrorData (error : string)                            (* [{ error }] *)
| InsertedData (insertedCount : nat) (insertedIds : list Id)
| ModifiedData (modifiedCount : nat)
| DeletedData (deletedCount : nat).
Arguments ItemData {P}.
Arguments ErrorData {P}.
Arguments InsertedData {P}.
Arguments ModifiedData {P}.
Arguments DeletedData {P}.

Record Response (P : Type) : Type := mkResponse {
  success : bool;
  rdata : ResponseData P
}.
Arguments mkResponse {P}.
Arguments success {P}.
Arguments rdata {P}.

(** * The BSON document of a payload *)

(** The driver serialises a document before it sends it ([BSON.serialize],
    with [ignoreUndefined] off, as the code leaves it): a field whose value
    is [undefined] is written as [null].  [BSON_stored payload] is the
    payload as the server stores it, and as every read gives it back. *)
Class Bson (P : Type) : Type := mkBson {
  BSON_stored : P → P
}.

(** The payload is one of those that BSON represents faithfully. *)
Definition stored_as_given {P} `{Bson P} (payload : P) : Prop :=
  BSON_stored payload = payload.

(** The document the server stores for the document it is sent: the
    payload as BSON has it; [used], [assignedTo], [createdBy] and
    [createdAt] are never [undefined] where the code writes them. *)
Definition stored_document {D} `{Bson D} (b : BaseItem D) : BaseItem D :=
  mkItem (BSON_stored (data b)) (used b) (assignedTo b) (createdBy b) (createdAt b).

(** * The MongoDB driver, as far as the operations call it

    The calls are those of a driver that reaches its server.  A call that
    the driver rejects for want of a connection (a client that was closed,
    a server that does not answer) is not modelled: of the driver the
    [catch] blocks of the callers see the rejected empty batch only. *)

Module Mongo.
Section Driver.
Context {D : Type} `{Bson D}.
Abbreviation Collection := (Store D).

Definition countDocuments : M Collection nat :=
  λ c, (c, Returned (length (docs c))).

(** [insertMany(batch)] gives each document a fresh [_id] and stores the
    documents as BSON has them; the driver rejects an empty batch
    ("Invalid BulkOperation, Batch cannot be empty") before anything is
    sent.  Resolves to [insertedIds]. *)
Definition insertMany (batch : list (BaseItem D)) : M Collection (list Id) :=
  λ c, match batch with
       | [] => (c, Thrown (MongoInvalidArgumentError
                             "Invalid BulkOperation, Batch cannot be empty"))
       | _ => (insert_all (stored_document <$> batch) c,
               Returned (seq (nextId c) (length batch)))
       end.

(** [findOne(q)]: the first match in store order. *)
Definition findOne (q : Stored D → bool) : M Collection (option (Stored D)) :=
  λ c, (c, Returned (head (matching q c))).

(** [find(q).toArray()] *)
Definition find (q : Stored D → bool) : M Collection (list (Stored D)) :=
  λ c, (c, Returned (matching q c)).

(** [updateOne(q, { $set })]: the first match only. *)
Definition updateOne (q : Stored D → bool) (s : SetDoc) : M Collection unit :=
  modify (update_first q s).

(** [updateMany(q, { $set })], resolving to [modifiedCount]: the documents
    that the update changed. *)
Definition updateMany (q : Stored D → bool) (s : SetDoc) : M Collection nat :=
  λ c, (update_where q s c,
        Returned (length (filter (λ d : Stored D, changes s d = true) (matching q c)))).

(** [deleteMany(q)], resolving to [deletedCount]. *)
Definition deleteMany (q : Stored D → bool) : M Collection nat :=
  λ c, (delete_where q c, Returned (length (matching q c))).
End Driver.
End Mongo.

(** ** The filters of the queries *)

(** [{ used: false, assignedTo: { $ne: userId } }], and
    [used = FALSE AND (assignedTo IS NULL OR assignedTo != ?)]: a missing or
    null [assignedTo] is different from every user id. *)
Definition candidate {D} (userId : UserId) (d : Stored D) : bool :=
  negb (used d) && negb (bool_decide (assignedTo d = Some userId)).
(** [{}], no [WHERE] clause *)
Definition everything {D} (d : Stored D) : bool := true.
(** [{ _id: id }], [WHERE id = ?] *)
Definition by_id {D} (id : Id) (d : Stored D) : bool := bool_decide (_id d = id).
(** [{ used: { $eq: false } }], [WHERE used = FALSE] *)
Definition unused {D} (d : Stored D) : bool := negb (used d).
(** [{ createdBy: userId }], [WHERE createdBy = ?] *)
Definition created_by {D} (userId : UserId) (d : Stored D) : bool :=
  bool_decide (createdBy d = Some userId).

(** [`No ${collectionName} available`] *)
Definition no_items_available {P} (collectionName : string) : Response P :=
  mkResponse false (ErrorData ("No " +:+ collectionName +:+ " available")).

(** * Plumbing: running an operation on a part of a larger state *)

Definition zoom {S T A} (view : S → T) (put : T → S → S) (m : M T A) : M S A :=
  λ s, let '(t, o) := m (view s) in (put t s, o).

(** [Promise.all(list.map(async ...))]: every callback runs to its end, also
    when another one has failed, and the promise rejects with the first
    failure.  The callbacks are run here one after the other, which is what
    their interleaving amounts to when they work on different collections. *)
Fixpoint promise_all {S} (ms : list (M S unit)) : M S unit :=
  match ms with
  | [] => ret tt
  | m :: ms =>
      λ s, let '(s1, o1) := m s in
           let '(s2, o2) := promise_all ms s1 in
           (s2, match o1 with Thrown e => Thrown e | Returned _ => o2 end)
  end.

(** A MongoDB database: its collections by name; a collection that was never
    written to is empty.  A [MongoClient]: the databases by name. *)
Abbreviation Database P := (gmap string (Store P)).
Abbreviation MongoClient P := (gmap string (gmap string (Store P))).

Definition collection {P} (name : string) (db : Database P) : Store P :=
  default empty_store (db !! name).
Definition database {P} (dbName : string) (client : MongoClient P) : Database P :=
  default ∅ (client !! dbName).

(** [db.collection(name)] followed by calls on the handle *)
Definition on_collection {P A} (name : string) (m : M (Store P) A) : M (Database P) A :=
  zoom (collection name) (λ c, <[name := c]>) m.
(** [client.db(dbName)] followed by calls on the handle *)
Definition on_db {P A} (dbName : string) (m : M (Database P) A) : M (MongoClient P) A :=
  zoom (database dbName) (λ d, <[dbName := d]>) m.

(** [CollectionConfig] *)
Record CollectionConfig (P : Type) : Type := mkConfig {
  name : string;
  sampleData : list (BaseItem P)
}.
Arguments mkConfig {P}.
Arguments name {P}.
Arguments sampleData {P}.

(** The two fields again, for the places where [name] and [sampleData] are
    variables. *)
Definition config_name {P} (c : CollectionConfig P) : string := name c.
Definition config_sampleData {P} (c : CollectionConfig P) : list (BaseItem P) :=
  sampleData c.

(** * First generation of [operations.ts]: MongoDB only, first candidate *)

Module V1.
Section Operations.
Context {P : Type} `{Bson P}.

(** The handle [collection] is the name ([collection.collectionName]) and
    the store behind it. *)
Definition getItemFromCollection (collectionName : string) (userId : UserId)
    (sampleData : list (BaseItem P)) : M (Store P) (Response P) :=
  (* Initialize collection if empty *)
  count ← Mongo.countDocuments;
  _ ← (if decide (count = 0)
       then _ ← Mongo.insertMany sampleData; ret tt
       else ret tt);
  (* Find an unused item not assigned to this user *)
  item ← Mongo.findOne (candidate userId);
  match item with
  | Some item =>
      (* Mark item as used and assign to user *)
      _ ← Mongo.updateOne (by_id (_id item)) (set_assign userId);
      ret (mkResponse true (ItemData (data item)))
  | None =>
      (* If no unused items found, reset all items *)
      _ ← Mongo.updateMany everything set_reset;
      (* Try to get the first available item *)
      resetItem ← Mongo.findOne everything;
      match resetItem with
      | Some resetItem =>
          _ ← Mongo.updateOne (by_id (_id resetItem)) (set_assign userId);
          ret (mkResponse true (ItemData (data resetItem)))
      | None => ret (no_items_available collectionName)
      end
  end.

(** [items] are the [{ data }] records of the caller; [now] is what
    [new Date()] reads. *)
Definition createItems (userId : UserId) (items : list P) (now : Timestamp)
    : M (Store P) (Response P) :=
  let itemsToInsert :=
    (λ item, mkItem item false None (Some userId) (Some now)) <$> items in
  insertedIds ← Mongo.insertMany itemsToInsert;
  ret (mkResponse true (InsertedData (length insertedIds) insertedIds)).

(** The body of the callback of [initializeCollections]. *)
Definition initializeCollections_callback (sampleData : list (BaseItem P))
    : M (Store P) unit :=
  count ← Mongo.countDocuments;
  if decide (count = 0)
  then _ ← Mongo.insertMany sampleData; ret tt
  else ret tt.

Definition initializeCollections (dbName : string)
    (collections : list (CollectionConfig P)) : M (MongoClient P) unit :=
  on_db dbName
    (promise_all
       ((λ '(mkConfig name sampleData),
           on_collection name (initializeCollections_callback sampleData))
        <$> collections)).
End Operations.
End V1.

(** * The JSON text of a payload *)

(** [JSON.stringify] and [JSON.parse] of the runtime, on the payloads of a
    collection; [JSON_parse] is [None] where [JSON.parse] throws a
    [SyntaxError]. *)
Class Json (P : Type) : Type := mkJson {
  JSON_stringify : P → string;
  JSON_parse : string → option P
}.

(** The payload is one of those that JSON represents faithfully. *)
Definition round_trips {P} `{Json P} (payload : P) : Prop :=
  JSON_parse (JSON_stringify payload) = Some payload.

(** * The SQLite statements of the operations *)

Module Sqlite.
(** A table [(id, data TEXT, used, assignedTo, createdBy, createdAt)]. *)
Abbreviation Table := (Store string).
(** The tables of the database file. *)
Abbreviation Tables := (gmap string (Store string)).

(** [SELECT COUNT( * ) as count FROM t] *)
Definition select_count : M Table nat :=
  λ t, (t, Returned (length (docs t))).

(** [INSERT INTO t (data, used) VALUES (?, ?)]: the other columns take
    their defaults, [createdAt] the current time.  Resolves to [lastID]. *)
Definition insert_data_used (text : string) (used : bool) (now : Timestamp)
    : M Table Id :=
  λ t, (insert_all [mkItem text used None None (Some now)] t, Returned (nextId t)).

(** [INSERT INTO t (data, used, createdBy, createdAt)
     VALUES (?, FALSE, ?, CURRENT_TIMESTAMP)] *)
Definition insert_created (text : string) (userId : UserId) (now : Timestamp)
    : M Table Id :=
  λ t, (insert_all [mkItem text false None (Some userId) (Some now)] t,
        Returned (nextId t)).

(** [SELECT * FROM t WHERE q ORDER BY RANDOM() LIMIT 1] *)
Definition select_random (q : Stored string → bool) (r : Random)
    : M Table (option (Stored string)) :=
  λ t, let rows := matching q t in
       (t, Returned (rows !! randomIndex r (length rows))).

(** [UPDATE t SET ... WHERE q], resolving to [changes]: the rows matched. *)
Definition update_set (q : Stored string → bool) (s : SetDoc) : M Table nat :=
  λ t, (update_where q s t, Returned (length (matching q t))).

(** [DELETE FROM t WHERE q], resolving to [changes]. *)
Definition delete_from (q : Stored string → bool) : M Table nat :=
  λ t, (delete_where q t, Returned (length (matching q t))).

(** The statements of a call all name the table [collectionName]; a
    statement on a table that does not exist fails.  The table is looked up
    under the name as it is written, which is how the code names the
    tables it creates; SQLite itself takes no account of the case of the
    letters of a name. *)
Definition with_table {A} (collectionName : string) (m : M Table A) : M Tables A :=
  λ ts, match ts !! collectionName with
        | Some t => let '(t', o) := m t in (<[collectionName := t']> ts, o)
        | None =>
            (ts, Thrown (SqliteError ("SQLITE_ERROR: no such table: " +:+ collectionName)))
        end.
End Sqlite.

(** [for (const x of l) await f(x)] *)
Fixpoint for_each {S A} (l : list A) (f : A → M S unit) : M S unit :=
  match l with
  | [] => ret tt
  | x :: l => _ ← f x; for_each l f
  end.

(** The same loop, collecting what the body pushes to [results]. *)
Fixpoint for_each_push {S A B} (l : list A) (f : A → M S B) : M S (list B) :=
  match l with
  | [] => ret []
  | x :: l => y ← f x; ys ← for_each_push l f; ret (y :: ys)
  end.

(** * [database.ts]: the two clients *)

(** What a call into a driver does with the outside world (the server is
    reachable, the file opens) is an input of the model. *)
Inductive DriverResult : Type :=
| Succeeds
| Fails (e : Exception).

Definition driver {S} (r : DriverResult) : M S unit :=
  match r with
  | Succeeds => ret tt
  | Fails e => throw e
  end.

(** [class MongoDBClient]; [client] stands for the server behind the
    [MongoClient]. *)
Record MongoDBClient (P : Type) : Type := mkMongoDBClient {
  client : MongoClient P;
  dbName : string;
  isConnectedFlag : bool
}.
Arguments mkMongoDBClient {P}.
Arguments client {P}.
Arguments dbName {P}.
Arguments isConnectedFlag {P}.

(** [class SQLiteClient]; [db_open] is [this.db !== null], and [tables] are
    the tables of the file [dbFile], which outlive the connection. *)
Record SQLiteClient : Type := mkSQLiteClient {
  db_open : bool;
  dbFile : string;
  tables : Sqlite.Tables
}.

(** [interface DatabaseClient] with its two implementations. *)
Inductive DatabaseClient (P : Type) : Type :=
| OfMongoDB (c : MongoDBClient P)
| OfSQLite (c : SQLiteClient).
Arguments OfMongoDB {P}.
Arguments OfSQLite {P}.

(** What [getCollection] resolves to: [Collection<T> | Database]. *)
Inductive Handle : Type :=
| CollectionHandle (dbName name : string)     (* a MongoDB [Collection] *)
| DatabaseHandle.                             (* the SQLite [Database] *)

Module MongoDBClientImpl.
Section Methods.
Context {P : Type}.

(** [constructor(mongoUri, dbName)], on the server that [mongoUri] names *)
Definition new (server : MongoClient P) (dbName : string) : MongoDBClient P :=
  mkMongoDBClient server dbName false.

Definition connect (r : DriverResult) : M (MongoDBClient P) unit :=
  _ ← driver r;                                    (* [await this.client.connect()] *)
  modify (λ c, mkMongoDBClient (client c) (dbName c) true).

Definition disconnect (r : DriverResult) : M (MongoDBClient P) unit :=
  _ ← driver r;                                    (* [await this.client.close()] *)
  modify (λ c, mkMongoDBClient (client c) (dbName c) false).

Definition getCollection (name : string) : M (MongoDBClient P) Handle :=
  c ← get;
  ret (CollectionHandle (dbName c) name).

Definition isConnected (c : MongoDBClient P) : bool := isConnectedFlag c.
End Methods.
End MongoDBClientImpl.

(** What the driver makes of the two statements of
    [SQLiteClient.connect]: both run, or the first one fails, or the second
    one does after the first has run. *)
Inductive ExecResult : Type :=
| Executed
| FailsAtEvents (error : Exception)
| FailsAtQuestions (error : Exception).

Module SQLiteClientImpl.
(** [CREATE TABLE IF NOT EXISTS name (...)] *)
Definition create_table_if_not_exists (name : string) (ts : Sqlite.Tables)
    : Sqlite.Tables :=
  match ts !! name with
  | Some _ => ts
  | None => <[name := empty_store]> ts
  end.

(** [constructor(dbFile)], on the contents of that file *)
Definition new (dbFile : string) (file : Sqlite.Tables) : Outcome SQLiteClient :=
  if decide (dbFile = "")
  then Thrown (Error "sqlite: filename cannot be null / undefined")
  else Returned (mkSQLiteClient false dbFile file).

(** [this.db.exec(...)] of the two [CREATE TABLE] statements runs them in
    turn and stops at the first that fails; what has run stays. *)
Definition exec_create_tables (executed : ExecResult) : M Sqlite.Tables unit :=
  match executed with
  | FailsAtEvents error => throw error
  | FailsAtQuestions error =>
      _ ← modify (create_table_if_not_exists "events");
      throw error
  | Executed =>
      _ ← modify (create_table_if_not_exists "events");
      modify (create_table_if_not_exists "questions")
  end.

(** [opened]: the outcome of [open({ filename, driver })];
    [executed]: the outcome of [this.db.exec(CREATE TABLE ...)]. *)
Definition connect (opened : DriverResult) (executed : ExecResult)
    : M SQLiteClient unit :=
  _ ← driver opened;
  _ ← modify (λ c, mkSQLiteClient true (dbFile c) (tables c));
  (* Create tables if they don't exist *)
  zoom tables (λ ts c, mkSQLiteClient (db_open c) (dbFile c) ts)
    (exec_create_tables executed).

Definition disconnect (closed : DriverResult) : M SQLiteClient unit :=
  c ← get;
  if db_open c
  then _ ← driver closed;                          (* [await this.db.close()] *)
       modify (λ c, mkSQLiteClient false (dbFile c) (tables c))
  else ret tt.

Definition getCollection (name : string) : M SQLiteClient Handle :=
  c ← get;
  if negb (db_open c)
  then throw (Error "Database not connected")
  else ret DatabaseHandle.

Definition isConnected (c : SQLiteClient) : bool := db_open c.
End SQLiteClientImpl.

(** The methods of the interface, dispatched on the implementation. *)
Definition on_mongodb {P A} (m : M (MongoDBClient P) A) (otherwise : M SQLiteClient A)
    : M (DatabaseClient P) A :=
  λ cl, match cl with
        | OfMongoDB c => let '(c', o) := m c in (OfMongoDB c', o)
        | OfSQLite c => let '(c', o) := otherwise c in (OfSQLite c', o)
        end.

Definition getCollection {P} (name : string) : M (DatabaseClient P) Handle :=
  on_mongodb (MongoDBClientImpl.getCollection name) (SQLiteClientImpl.getCollection name).

Definition isConnected {P} (cl : DatabaseClient P) : bool :=
  match cl with
  | OfMongoDB c => MongoDBClientImpl.isConnected c
  | OfSQLite c => SQLiteClientImpl.isConnected c
  end.

(** [if (collection instanceof Collection) { mongo } else { sqlite }]: the
    first branch works on the collection of the handle, the second one on
    the tables of the database.  [getCollection] gives a client only
    handles of its own kind.  The first branch does not look at
    [isConnectedFlag], as the code does not: what the driver does on a
    client that is not connected is of the driver (see [Mongo]). *)
Definition instanceof_Collection {P A} (h : Handle)
    (mongo : M (Store P) A) (sqlite : M Sqlite.Tables A) : M (DatabaseClient P) A :=
  λ cl, match h, cl with
        | CollectionHandle dbn n, OfMongoDB c =>
            let '(srv, o) := on_db dbn (on_collection n mongo) (client c) in
            (OfMongoDB (mkMongoDBClient srv (dbName c) (isConnectedFlag c)), o)
        | DatabaseHandle, OfSQLite c =>
            let '(ts, o) := sqlite (tables c) in
            (OfSQLite (mkSQLiteClient (db_open c) (dbFile c) ts), o)
        | _, _ => (cl, Thrown TypeError)
        end.

(** * Second generation of [operations.ts]: both backends, random candidate *)

Module V2.
Section Operations.
Context {P : Type} `{Bson P} `{Json P}.

(** The branch [if (collection instanceof Collection)] of
    [getItemFromCollection]; [r] is what [Math.random()] gives. *)
Definition getItemFromCollection_mongodb (collectionName : string) (userId : UserId)
    (sampleData : list (BaseItem P)) (r : Random) : M (Store P) (Response P) :=
  count ← Mongo.countDocuments;
  _ ← (if decide (count = 0)
       then _ ← Mongo.insertMany sampleData; ret tt
       else ret tt);
  (* Get all unused items not assigned to this user *)
  items ← Mongo.find (candidate userId);
  if (0 <? length items)%nat
  then
    (* Select a random item *)
    match items !! randomIndex r (length items) with
    | Some item =>
        (* Mark the selected item as used *)
        _ ← Mongo.updateOne (by_id (_id item)) (set_assign userId);
        ret (mkResponse true (ItemData (data item)))
    | None => throw TypeError             (* [items[randomIndex]] is undefined *)
    end
  else
    (* Reset all items if none are available *)
    _ ← Mongo.updateMany everything set_reset;
    (* Try to get a random item again after reset *)
    resetItems ← Mongo.find everything;
    if (0 <? length resetItems)%nat
    then
      match resetItems !! randomIndex r (length resetItems) with
      | Some item =>
          _ ← Mongo.updateOne (by_id (_id item)) (set_assign userId);
          ret (mkResponse true (ItemData (data item)))
      | None => throw TypeError
      end
    else ret (no_items_available collectionName).

(** The [else] branch, on the table [collectionName]; [r] is what
    [RANDOM()] gives and [now] what [CURRENT_TIMESTAMP] reads. *)
Definition getItemFromCollection_sqlite (collectionName : string) (userId : UserId)
    (sampleData : list (BaseItem P)) (r : Random) (now : Timestamp)
    : M Sqlite.Table (Response P) :=
  (* Check if we need to initialize data *)
  count ← Sqlite.select_count;
  _ ← (if decide (count = 0)
       then for_each sampleData (λ item,
              _ ← Sqlite.insert_data_used (JSON_stringify (data item)) false now;
              ret tt)
       else ret tt);
  (* Get a random unused item *)
  item ← Sqlite.select_random (candidate userId) r;
  match item with
  | Some item =>
      _ ← Sqlite.update_set (by_id (_id item)) (set_assign userId);
      match JSON_parse (data item) with
      | Some payload => ret (mkResponse true (ItemData payload))
      | None => throw SyntaxError
      end
  | None =>
      (* Reset all items if none are available *)
      _ ← Sqlite.update_set everything set_reset;
      (* Try to get a random item again after reset *)
      resetItem ← Sqlite.select_random everything r;
      match resetItem with
      | Some resetItem =>
          _ ← Sqlite.update_set (by_id (_id resetItem)) (set_assign userId);
          match JSON_parse (data resetItem) with
          | Some payload => ret (mkResponse true (ItemData payload))
          | None => throw SyntaxError
          end
      | None => ret (no_items_available collectionName)
      end
  end.

Definition getItemFromCollection (collectionName : string) (userId : UserId)
    (sampleData : list (BaseItem P)) (r : Random) (now : Timestamp)
    : M (DatabaseClient P) (Response P) :=
  collection ← getCollection collectionName;
  instanceof_Collection collection
    (getItemFromCollection_mongodb collectionName userId sampleData r)
    (Sqlite.with_table collectionName
       (getItemFromCollection_sqlite collectionName userId sampleData r now)).

(** [items] are the [{ data }] records of the caller; [now] is what
    [new Date()], resp. [CURRENT_TIMESTAMP], reads. *)
Definition createItems_mongodb (userId : UserId) (items : list P) (now : Timestamp)
    : M (Store P) (Response P) :=
  let itemsToInsert :=
    (λ item, mkItem item false None (Some userId) (Some now)) <$> items in
  insertedIds ← Mongo.insertMany itemsToInsert;
  ret (mkResponse true (InsertedData (length insertedIds) insertedIds)).

Definition createItems_sqlite (userId : UserId) (items : list P) (now : Timestamp)
    : M Sqlite.Table (Response P) :=
  results ← for_each_push items (λ item,
               Sqlite.insert_created (JSON_stringify item) userId now);
  ret (mkResponse true (InsertedData (length results) results)).

(** The loop over no item runs no statement: the table is not looked up
    and the answer is the one for an empty [results]. *)
Definition createItems_sqlite_none : M Sqlite.Tables (Response P) :=
  ret (mkResponse true (InsertedData 0 [])).

Definition createItems (collectionName : string) (userId : UserId)
    (items : list P) (now : Timestamp) : M (DatabaseClient P) (Response P) :=
  collection ← getCollection collectionName;
  instanceof_Collection collection
    (createItems_mongodb userId items now)
    (match items with
     | [] => createItems_sqlite_none
     | _ :: _ => Sqlite.with_table collectionName (createItems_sqlite userId items now)
     end).

(** The body of the callback of [initializeCollections], by backend. *)
Definition initializeCollections_mongodb (sampleData : list (BaseItem P))
    : M (Store P) unit :=
  count ← Mongo.countDocuments;
  if decide (count = 0)
  then _ ← Mongo.insertMany sampleData; ret tt
  else ret tt.

Definition initializeCollections_sqlite (sampleData : list (BaseItem P))
    (now : Timestamp) : M Sqlite.Table unit :=
  count ← Sqlite.select_count;
  if decide (count = 0)
  then for_each sampleData (λ item,
         _ ← Sqlite.insert_data_used (JSON_stringify (data item)) false now;
         ret tt)
  else ret tt.

Definition initializeCollections (collections : list (CollectionConfig P))
    (now : Timestamp) : M (DatabaseClient P) unit :=
  promise_all
    ((λ '(mkConfig name sampleData),
        collection ← getCollection name;
        instanceof_Collection collection
          (initializeCollections_mongodb sampleData)
          (Sqlite.with_table name (initializeCollections_sqlite sampleData now)))
     <$> collections).

Definition markAllItemsAsUsed_mongodb : M (Store P) (Response P) :=
  modifiedCount ← Mongo.updateMany unused set_mark;
  ret (mkResponse true (ModifiedData modifiedCount)).

Definition markAllItemsAsUsed_sqlite : M Sqlite.Table (Response P) :=
  (* [UPDATE t SET used = TRUE WHERE used = FALSE] *)
  changed ← Sqlite.update_set unused set_mark;
  ret (mkResponse true (ModifiedData changed)).

Definition markAllItemsAsUsed (collectionName : string)
    : M (DatabaseClient P) (Response P) :=
  collection ← getCollection collectionName;
  instanceof_Collection collection
    markAllItemsAsUsed_mongodb
    (Sqlite.with_table collectionName markAllItemsAsUsed_sqlite).

Definition deleteItemsByUser_mongodb (userId : UserId) : M (Store P) (Response P) :=
  deletedCount ← Mongo.deleteMany (created_by userId);
  ret (mkResponse true (DeletedData deletedCount)).

Definition deleteItemsByUser_sqlite (userId : UserId) : M Sqlite.Table (Response P) :=
  (* [DELETE FROM t WHERE createdBy = ?] *)
  changed ← Sqlite.delete_from (created_by userId);
  ret (mkResponse true (DeletedData changed)).

Definition deleteItemsByUser (collectionName : string) (userId : UserId)
    : M (DatabaseClient P) (Response P) :=
  collection ← getCollection collectionName;
  instanceof_Collection collection
    (deleteItemsByUser_mongodb userId)
    (Sqlite.with_table collectionName (deleteItemsByUser_sqlite userId)).
End Operations.
End V2.

(** * The payload of [BaseItem]: [data: { message: string }] *)

Record MessageData : Type := mkMessage { message : string }.

#[global] Instance MessageData_eq_dec : EqDecision MessageData.
Proof. solve_decision. Defined.

(** The message is a string, which BSON stores as it is. *)
#[global] Instance MessageData_Bson : Bson MessageData :=
  mkBson MessageData (λ payload, payload).

(** ** Its JSON text

    [JSON.stringify({ message })] is [{"message":<quoted string>}]; a string
    is quoted as ECMAScript's QuoteJSONString does.  The characters of a
    string are its code units, here below 256. *)
Module MessageJson.
Definition dquote : ascii := "034"%char.
Definition backslash : ascii := "092"%char.

Definition hex_digit (n : nat) : ascii :=
  if (n <? 10)%nat then ascii_of_nat (48 + n) else ascii_of_nat (87 + n).

Definition hex_value (c : ascii) : option nat :=
  let n := nat_of_ascii c in
  if (48 <=? n)%nat && (n <=? 57)%nat then Some (n - 48)
  else if (97 <=? n)%nat && (n <=? 102)%nat then Some (n - 87)
  else if (65 <=? n)%nat && (n <=? 70)%nat then Some (n - 55)
  else None.

(** The escape of one code unit. *)
Definition quote_char (c : ascii) : string :=
  let n := nat_of_ascii c in
  if decide (n = 8) then String backslash "b"
  else if decide (n = 9) then String backslash "t"
  else if decide (n = 10) then String backslash "n"
  else if decide (n = 12) then String backslash "f"
  else if decide (n = 13) then String backslash "r"
  else if decide (n = 34) then String backslash (String dquote "")
  else if decide (n = 92) then String backslash (String backslash "")
  else if (n <? 32)%nat
       then String backslash
              (String "u" (String "0" (String "0"
                 (String (hex_digit (n `div` 16)) (String (hex_digit (n `mod` 16)) "")))))
       else String c "".

Fixpoint quote_chars (s : string) : string :=
  match s with
  | "" => ""
  | String c s => quote_char c +:+ quote_chars s
  end.

Definition quote (s : string) : string :=
  String dquote (quote_chars s +:+ String dquote "").

Definition stringify (d : MessageData) : string :=
  "{" +:+ quote "message" +:+ ":" +:+ quote (message d) +:+ "}".

(** The character a one-letter escape stands for. *)
Definition unescape (c : ascii) : option ascii :=
  let n := nat_of_ascii c in
  if decide (n = 98) then Some (ascii_of_nat 8)
  else if decide (n = 116) then Some (ascii_of_nat 9)
  else if decide (n = 110) then Some (ascii_of_nat 10)
  else if decide (n = 102) then Some (ascii_of_nat 12)
  else if decide (n = 114) then Some (ascii_of_nat 13)
  else if decide (n = 34) then Some dquote
  else if decide (n = 92) then Some backslash
  else if decide (n = 47) then Some "/"%char
  else None.

Definition cons_char (c : ascii) (r : option (string * string))
    : option (string * string) :=
  match r with
  | Some (s, rest) => Some (String c s, rest)
  | None => None
  end.

(** Reads a JSON string after its opening quote: the string and the text
    after the closing quote. *)
Fixpoint unquote_chars (s : string) : option (string * string) :=
  match s with
  | "" => None
  | String c s1 =>
      if decide (c = dquote) then Some ("", s1)
      else if decide (c = backslash) then
        match s1 with
        | "" => None
        | String e s2 =>
            if decide (e = "u"%char) then
              match s2 with
              | String h1 (String h2 (String h3 (String h4 s3))) =>
                  match hex_value h1, hex_value h2, hex_value h3, hex_value h4 with
                  | Some 0, Some 0, Some v3, Some v4 =>
                      cons_char (ascii_of_nat (16 * v3 + v4)) (unquote_chars s3)
                  | _, _, _, _ => None
                  end
              | _ => None
              end
            else
              match unescape e with
              | Some c' => cons_char c' (unquote_chars s2)
              | None => None
              end
        end
      else if (nat_of_ascii c <? 32)%nat then None
      else cons_char c (unquote_chars s1)
  end.

Fixpoint strip_prefix (p s : string) : option string :=
  match p, s with
  | "", _ => Some s
  | String a p, String b s => if decide (a = b) then strip_prefix p s else None
  | String _ _, "" => None
  end.

(** [JSON.parse] on the texts of an object with the one key [message] and
    no insignificant white space; other texts are not payloads of the
    collection. *)
Definition parse (text : string) : option MessageData :=
  match strip_prefix ("{" +:+ quote "message" +:+ ":" +:+ String dquote "") text with
  | Some body =>
      match unquote_chars body with
      | Some (m, "}") => Some (mkMessage m)
      | _ => None
      end
  | None => None
  end.
End MessageJson.

#[global] Instance MessageData_Json : Json MessageData :=
  mkJson MessageData MessageJson.stringify MessageJson.parse.

(** * [models/question.ts], [models/event.ts] and [config/collections.ts] *)

Definition questionSampleData : list (BaseItem MessageData) :=
  [ mkItem (mkMessage "Question 1") false None None None;
    mkItem (mkMessage "Question 2") false None None None;
    mkItem (mkMessage "Question 3") false None None None ].

Definition eventSampleData : list (BaseItem MessageData) :=
  [ mkItem (mkMessage "Event 1") false None None None;
    mkItem (mkMessage "Event 2") false None None None;
    mkItem (mkMessage "Event 3") false None None None ].

Definition COLLECTIONS : list (CollectionConfig MessageData) :=
  [ mkConfig "events" eventSampleData;
    mkConfig "questions" questionSampleData ].

(** * The rotation, apart from the backend

    What the three versions of [getItemFromCollection] have in common, as a
    function: the candidate is picked among the matches, or among all items
    once they have all been reset.  The lemmas [V1_getItem_rotate],
    [V2_getItem_mongodb_rotate] and [V2_getItem_sqlite_rotate] relate the
    operations to it. *)

(** "first candidate in store order" and "random among candidates" *)
Definition pick_first {D} (l : list (Stored D)) : option (Stored D) := head l.
Definition pick_random {D} (r : Random) (l : list (Stored D)) : option (Stored D) :=
  l !! randomIndex r (length l).

Definition rotate {D} (pick : list (Stored D) → option (Stored D))
    (userId : UserId) (s : Store D) : Store D * option (Stored D) :=
  match pick (matching (candidate userId) s) with
  | Some item => (update_where (by_id (_id item)) (set_assign userId) s, Some item)
  | None =>
      let s' := update_where everything set_reset s in
      match pick (docs s') with
      | Some item => (update_where (by_id (_id item)) (set_assign userId) s', Some item)
      | None => (s', None)
      end
  end.

(** A policy picks one of the items it is given, when there is one. *)
Class Picker {D} (pick : list (Stored D) → option (Stored D)) : Prop := {
  pick_elem_of l x : pick l = Some x → x ∈ l;
  pick_is_Some l : l ≠ [] → is_Some (pick l)
}.

(** The rows of a seeding loop, inserted one statement at a time. *)
Definition insert_each {D} (batch : list (BaseItem D)) (s : Store D) : Store D :=
  foldl (λ s b, insert_all [b] s) s batch.

(** The row the [INSERT] statements of the seeding write for a sample. *)
Definition seed_row {P} `{Json P} (now : Timestamp) (sample : BaseItem P)
    : BaseItem string :=
  mkItem (JSON_stringify (data sample)) false None None (Some now).

(** The row [createItems] writes for a payload. *)
Definition created_row {P} `{Json P} (userId : UserId) (now : Timestamp) (payload : P)
    : BaseItem string :=
  mkItem (JSON_stringify payload) false None (Some userId) (Some now).

(** The payload a stored item stands for: the [data] of a MongoDB document,
    the parsed [data] text of a SQLite row. *)
Definition payload_mongodb {P} (d : Stored P) : option P := Some (data d).
Definition payload_sqlite {P} `{Json P} (d : Stored string) : option P :=
  JSON_parse (data d).

(** The response for the item the rotation has assigned, given how the
    payload is read off the stored item. *)
Definition respond_with {D P} (payload : Stored D → option P)
    (collectionName : string) (item : option (Stored D)) : Outcome (Response P) :=
  match item with
  | Some item =>
      match payload item with
      | Some p => Returned (mkResponse true (ItemData p))
      | None => Thrown SyntaxError
      end
  | None => Returned (no_items_available collectionName)
  end.

(** An item that is handed out and one that is free. *)
Definition held_by {D} (userId : UserId) (b : BaseItem D) : Prop :=
  used b = true ∧ assignedTo b = Some userId.
Definition free {D} (b : BaseItem D) : Prop :=
  used b = false ∧ assignedTo b = None.

#[global] Instance held_by_dec {D} u (b : BaseItem D) : Decision (held_by u b).
Proof. unfold held_by. apply _. Defined.
#[global] Instance free_dec {D} (b : BaseItem D) : Decision (free b).
Proof. unfold free. apply _. Defined.

(** The whole collection is reset, then the item with the key [chosen] is
    assigned to [userId]: the documents and the two entries of the journal. *)
Definition reset_then_assigned {D} (userId : UserId) (chosen : Id) (s s' : Store D)
    : Prop :=
  docs s' = (λ d, if by_id chosen d
                  then update (set_assign userId) (update set_reset d)
                  else update set_reset d) <$> docs s
  ∧ journal s' = journal s ++ [Updated (ids (docs s)) set_reset;
                               Updated [chosen] (set_assign userId)]
  ∧ nextId s' = nextId s.

(** Only the item with the key [chosen] is changed: it is assigned to
    [userId]. *)
Definition only_assigned {D} (userId : UserId) (chosen : Id) (s s' : Store D) : Prop :=
  docs s' = (λ d, if by_id chosen d then update (set_assign userId) d else d) <$> docs s
  ∧ journal s' = journal s ++ [Updated [chosen] (set_assign userId)]
  ∧ nextId s' = nextId s.

(** The table a call of the SQLite branch works on once its seeding is over. *)
Definition seeded_table {P} `{Json P} (sampleData : list (BaseItem P))
    (now : Timestamp) (t : Store string) : Store string :=
  if decide (docs t = []) then insert_each (seed_row now <$> sampleData) t else t.

(** * The notions of the specification *)

(** Every [data] cell of the table is the JSON text of a payload. *)
Definition readable {P} `{Json P} (t : Store string) : Prop :=
  Forall (λ d : Stored string, is_Some (payload_sqlite (P:=P) d)) (docs t).

(** No item is a candidate for [userId], and there are items. *)
Definition exhausted {D} (userId : UserId) (s : Store D) : Prop :=
  docs s ≠ [] ∧
  Forall (λ d : Stored D, used d = true ∨ assignedTo d = Some userId) (docs s).

(** Some item is a candidate for [userId]. *)
Definition has_candidate {D} (userId : UserId) (s : Store D) : Prop :=
  Exists (λ d : Stored D, used d = false ∧ assignedTo d ≠ Some userId) (docs s).

(** The call on [s] with the result [(s', o)] has reset every item, has then
    assigned one item, [chosen], to [userId] and has returned its payload:
    one item is held by the user and all the others are free. *)
Definition resets_and_assigns_one {D P} (payload : Stored D → option P)
    (userId : UserId) (s : Store D) (result : Store D * Outcome (Response P)) : Prop :=
  ∃ (chosen : Stored D) (p : P),
    chosen ∈ docs s ∧ payload chosen = Some p ∧
    result.2 = Returned (mkResponse true (ItemData p)) ∧
    reset_then_assigned userId (_id chosen) s result.1 ∧
    length (filter (λ d : Stored D, held_by userId d) (docs result.1)) = 1 ∧
    length (filter (λ d : Stored D, free d) (docs result.1)) = length (docs s) - 1.

(** The item [d] in the hands of [userId]: used, assigned to the user,
    and with the key, the payload, the creator and the date it has. *)
Definition handed_to {D} (userId : UserId) (d : Stored D) : Stored D :=
  mkStored (_id d) (mkItem (data d) true (Some userId) (createdBy d) (createdAt d)).

(** The call on [s] with the result [(s', o)] has returned the payload of a
    candidate, [chosen], and has changed this item only: the collection
    holds an item with its key that is used and assigned to [userId], with
    the payload, the creator and the date of before, so the user holds one
    item more and one item less is unused; every other item is as it was,
    at its place. *)
Definition assigns_one_candidate {D P} (payload : Stored D → option P)
    (userId : UserId) (s : Store D) (result : Store D * Outcome (Response P)) : Prop :=
  ∃ (chosen : Stored D) (p : P),
    chosen ∈ docs s ∧ used chosen = false ∧ assignedTo chosen ≠ Some userId ∧
    payload chosen = Some p ∧
    result.2 = Returned (mkResponse true (ItemData p)) ∧
    only_assigned userId (_id chosen) s result.1 ∧
    (∀ d, d ∈ docs s → _id d ≠ _id chosen → d ∈ docs result.1) ∧
    docs result.1
    = (λ d, if decide (_id d = _id chosen) then handed_to userId d else d) <$> docs s ∧
    handed_to userId chosen ∈ docs result.1 ∧
    (∃ d', d' ∈ docs result.1 ∧ _id d' = _id chosen ∧
           used d' = true ∧ assignedTo d' = Some userId ∧
           data d' = data chosen ∧ createdBy d' = createdBy chosen ∧
           createdAt d' = createdAt chosen) ∧
    length (filter (λ d : Stored D, held_by userId d) (docs result.1))
    = S (length (filter (λ d : Stored D, held_by userId d) (docs s))) ∧
    length (filter (λ d : Stored D, used d = false) (docs s))
    = S (length (filter (λ d : Stored D, used d = false) (docs result.1))).

(** What the seeding of an empty collection leaves, [seeded], given the
    documents (rows) [new] it is to insert: these documents in their
    order, under fresh keys; and the call on the empty collection is the
    call on the seeded one. *)
Definition seeds {D A} (new : list (BaseItem D)) (s seeded : Store D)
    (call : M (Store D) A) : Prop :=
  item <$> docs seeded = new
  ∧ ids (docs seeded) = seq (nextId s) (length new)
  ∧ call s = call seeded.

(** The call on [s] with the result [(s', o)] has removed exactly the items
    created by [userId], has left the others as they were, in their order,
    and has returned how many it removed. *)
Definition deletes_created_by {D P} (userId : UserId) (s : Store D)
    (result : Store D * Outcome (Response P)) : Prop :=
  let removed := filter (λ d : Stored D, createdBy d = Some userId) (docs s) in
  result.2 = Returned (mkResponse true (DeletedData (length removed)))
  ∧ docs result.1 = filter (λ d : Stored D, createdBy d ≠ Some userId) (docs s)
  ∧ length (docs result.1) + length removed = length (docs s)
  ∧ journal result.1 = journal s ++ [Deleted (ids removed)].

(** The collection after [deleteItemsByUser] for each of the users, in turn. *)
Definition after_deletions {D P} (delete : UserId → M (Store D) (Response P))
    (users : list UserId) (s : Store D) : Store D :=
  foldl (λ s u, (delete u s).1) s users.

(** * Histories of a client *)

(** The calls on a [SQLiteClient] and what the file system answers. *)
Inductive SQLiteCall : Type :=
| CallConnect (opened : DriverResult) (executed : ExecResult)
| CallDisconnect (closed : DriverResult)
| CallGetCollection (name : string).

Definition sqlite_call (call : SQLiteCall) (c : SQLiteClient) : SQLiteClient :=
  match call with
  | CallConnect opened executed => (SQLiteClientImpl.connect opened executed c).1
  | CallDisconnect closed => (SQLiteClientImpl.disconnect closed c).1
  | CallGetCollection name => (SQLiteClientImpl.getCollection name c).1
  end.

Definition sqlite_history (calls : list SQLiteCall) (c : SQLiteClient) : SQLiteClient :=
  foldl (λ c call, sqlite_call call c) c calls.

(** The call is a [connect()] during which the database file opens. *)
Definition opens (call : SQLiteCall) : bool :=
  match call with
  | CallConnect Succeeds _ => true
  | _ => false
  end.

(** * Counting the items of the collections of a database *)

(** The number of items of the collection [name]: in a database of a
    [MongoClient], and behind a [DatabaseClient] (a table that does not exist
    has no rows). *)
Definition count_in {P} (dbName name : string) (client : MongoClient P) : nat :=
  length (docs (collection name (database dbName client))).

Definition count_of {P} (name : string) (cl : DatabaseClient P) : nat :=
  match cl with
  | OfMongoDB c => count_in (dbName c) name (client c)
  | OfSQLite c =>
      match tables c !! name with
      | Some t => length (docs t)
      | None => 0
      end
  end.

(** The statements of the operations reach the collection [name]: always on
    MongoDB, on SQLite when the database is open and has the table. *)
Definition reachable {P} (name : string) (cl : DatabaseClient P) : bool :=
  match cl with
  | OfMongoDB _ => true
  | OfSQLite c => db_open c && bool_decide (is_Some (tables c !! name))
  end.

(** The size after a call that seeds [k] items into an empty collection. *)
Definition size_after_seeding {D} (k : nat) (s : Store D) : nat :=
  if decide (docs s = []) then k else length (docs s).

(** The same, from the size before. *)
Definition seeded_size (k size : nat) : nat := if decide (size = 0) then k else size.

(** Nothing is left to seed in the collection [name] with [k] items, given
    the sizes of the collections and whether they can be seeded. *)
Definition settled {S} (size : string → S → nat) (seedable : string → S → bool)
    (name : string) (k : nat) (s : S) : Prop :=
  size name s ≠ 0 ∨ k = 0 ∨ seedable name s = false.

(** Steps, one after the other. *)
Definition steps_of {S C} (step : C → S → S) (cs : list C) (s : S) : S :=
  foldl (λ s c, step c s) s cs.

(** The calls that seed a collection, with what they read of the outside:
    a callback of [initializeCollections] and [getItemFromCollection]. *)
Inductive SeedingStep (P : Type) : Type :=
| InitializeStep (config : CollectionConfig P) (now : Timestamp)
| GetItemStep (collectionName : string) (userId : UserId)
    (sampleData : list (BaseItem P)) (r : Random) (now : Timestamp).
Arguments InitializeStep {P}.
Arguments GetItemStep {P}.

Definition step_target {P} (step : SeedingStep P) : string :=
  match step with
  | InitializeStep config _ => name config
  | GetItemStep collectionName _ _ _ _ => collectionName
  end.

Definition step_amount {P} (step : SeedingStep P) : nat :=
  match step with
  | InitializeStep config _ => length (sampleData config)
  | GetItemStep _ _ sampleData _ _ => length sampleData
  end.

(** The number of items of the collection [n] of a database. *)
Definition v1_size {P} (n : string) (d : Database P) : nat :=
  length (docs (collection n d)).

(** The step in a database of the first generation. *)
Definition v1_step {P} `{Bson P} (step : SeedingStep P) (d : Database P) : Database P :=
  match step with
  | InitializeStep config _ =>
      (on_collection (name config)
         (V1.initializeCollections_callback (sampleData config)) d).1
  | GetItemStep collectionName userId sampleData _ _ =>
      (on_collection collectionName
         (V1.getItemFromCollection collectionName userId sampleData) d).1
  end.

(** [getItemFromCollection] of the first generation on the handle
    [client.db(dbName).collection(name)], as its callers use it. *)
Definition v1_getItem {P} `{Bson P} (dbName name : string) (userId : UserId)
    (sampleData : list (BaseItem P)) : M (MongoClient P) (Response P) :=
  on_db dbName (on_collection name (V1.getItemFromCollection name userId sampleData)).

(** The frame of every operation of the second generation:
    [getCollection], then one branch or the other. *)
Definition on_store {P A} (collectionName : string)
    (mongo : M (Store P) A) (sqlite : M (Store string) A) : M (DatabaseClient P) A :=
  collection ← getCollection collectionName;
  instanceof_Collection collection mongo (Sqlite.with_table collectionName sqlite).

(** The step on a client of the second generation. *)
Definition v2_step {P} `{Bson P} `{Json P} (step : SeedingStep P) (cl : DatabaseClient P)
    : DatabaseClient P :=
  match step with
  | InitializeStep config now => (V2.initializeCollections [config] now cl).1
  | GetItemStep collectionName userId sampleData r now =>
      (V2.getItemFromCollection collectionName userId sampleData r now cl).1
  end.

(** * The life of a collection *)

(** The mutations the operations apply to a collection: an insertion of
    items that satisfy [ok], the assignment of the item with a given key,
    the reset of all items, the marking of the unused items (when
    [marking] allows it) and the deletion of the items of a creator. *)
Inductive mutation {D} (ok : BaseItem D → Prop) (marking : bool)
    : Store D → Store D → Prop :=
| mutation_insert s batch :
    Forall ok batch → mutation ok marking s (insert_all batch s)
| mutation_assign s i u :
    mutation ok marking s (update_where (by_id i) (set_assign u) s)
| mutation_reset s :
    mutation ok marking s (update_where everything set_reset s)
| mutation_mark s :
    marking = true → mutation ok marking s (update_where unused set_mark s)
| mutation_delete s u :
    mutation ok marking s (delete_where (created_by u) s).

Definition evolves {D} (ok : BaseItem D → Prop) (marking : bool)
    : Store D → Store D → Prop :=
  rtc (mutation ok marking).

(** An operation changes a well-formed collection by such mutations only. *)
Definition mutates {D A} (ok : BaseItem D → Prop) (marking : bool)
    (m : M (Store D) A) : Prop :=
  ∀ s, wf s → evolves ok marking s (m s).1.

(** The user of the last entry of the journal that assigns the item [i]. *)
Definition assigns (i : Id) (entry : Mutation) : option UserId :=
  match entry with
  | Updated ids (mkSet _ (Some (Some u))) => if decide (i ∈ ids) then Some u else None
  | _ => None
  end.

Fixpoint last_assignee (journal : list Mutation) (i : Id) : option UserId :=
  match journal with
  | [] => None
  | entry :: journal =>
      match last_assignee journal i with
      | Some u => Some u
      | None => assigns i entry
      end
  end.

(** The journal has an entry of [markAllItemsAsUsed] for the item [i]. *)
Definition marked (journal : list Mutation) (i : Id) : Prop :=
  ∃ ids, Updated ids set_mark ∈ journal ∧ i ∈ ids.

(** C5 as it is stated: every used item is assigned to the user of its last
    assignment. *)
Definition used_items_are_held {D} (s : Store D) : Prop :=
  ∀ d : Stored D, d ∈ docs s → used d = true →
    ∃ u, assignedTo d = Some u ∧ last_assignee (journal s) (_id d) = Some u.

(** C5 as amended: or it is unassigned and was marked by
    [markAllItemsAsUsed]. *)
Definition used_items_are_held_or_marked {D} (s : Store D) : Prop :=
  ∀ d : Stored D, d ∈ docs s → used d = true →
    (∃ u, assignedTo d = Some u ∧ last_assignee (journal s) (_id d) = Some u)
    ∨ (assignedTo d = None ∧ marked (journal s) (_id d)).

(** The invariant behind C5: keys are unique, an unused item is unassigned,
    and a used item is held by the user of its last assignment or, when
    [marking] is allowed, was marked while unassigned. *)
Definition flags_invariant {D} (marking : bool) (s : Store D) : Prop :=
  wf s
  ∧ (∀ d : Stored D, d ∈ docs s → used d = false → assignedTo d = None)
  ∧ (∀ d : Stored D, d ∈ docs s → used d = true →
       (∃ u, assignedTo d = Some u ∧ last_assignee (journal s) (_id d) = Some u)
       ∨ (marking = true ∧ assignedTo d = None ∧ marked (journal s) (_id d))).

(** An item of the collection after mutations was there before, under the
    same key and with the same [data], or was inserted under a new key with
    the [data] of an item that satisfies [ok]. *)
Definition kept_or_inserted {D} (ok : BaseItem D → Prop) (s : Store D)
    (d' : Stored D) : Prop :=
  (∃ d : Stored D, d ∈ docs s ∧ _id d = _id d' ∧ data d = data d')
  ∨ ((nextId s ≤ _id d')%nat ∧ ∃ b, ok b ∧ data b = data d').

(** The calls on a MongoDB collection, of either generation, and on a
    SQLite table, with what they read of the outside. *)
Inductive MongoCall (P : Type) : Type :=
| MongoGetItemV1 (collectionName : string) (userId : UserId)
    (sampleData : list (BaseItem P))
| MongoGetItem (collectionName : string) (userId : UserId)
    (sampleData : list (BaseItem P)) (r : Random)
| MongoCreateItems (userId : UserId) (items : list P) (now : Timestamp)
| MongoInitialize (sampleData : list (BaseItem P))
| MongoMarkAll
| MongoDelete (userId : UserId).
Arguments MongoGetItemV1 {P}.
Arguments MongoGetItem {P}.
Arguments MongoCreateItems {P}.
Arguments MongoInitialize {P}.
Arguments MongoMarkAll {P}.
Arguments MongoDelete {P}.

Inductive SqliteCall (P : Type) : Type :=
| SqliteGetItem (collectionName : string) (userId : UserId)
    (sampleData : list (BaseItem P)) (r : Random) (now : Timestamp)
| SqliteCreateItems (userId : UserId) (items : list P) (now : Timestamp)
| SqliteInitialize (sampleData : list (BaseItem P)) (now : Timestamp)
| SqliteMarkAll
| SqliteDelete (userId : UserId).
Arguments SqliteGetItem {P}.
Arguments SqliteCreateItems {P}.
Arguments SqliteInitialize {P}.
Arguments SqliteMarkAll {P}.
Arguments SqliteDelete {P}.

Definition mongo_call {P} `{Bson P} `{Json P} (call : MongoCall P) (s : Store P)
    : Store P :=
  match call with
  | MongoGetItemV1 name u sd => (V1.getItemFromCollection name u sd s).1
  | MongoGetItem name u sd r => (V2.getItemFromCollection_mongodb name u sd r s).1
  | MongoCreateItems u items now => (V2.createItems_mongodb u items now s).1
  | MongoInitialize sd => (V2.initializeCollections_mongodb sd s).1
  | MongoMarkAll => (V2.markAllItemsAsUsed_mongodb (P:=P) s).1
  | MongoDelete u => (V2.deleteItemsByUser_mongodb (P:=P) u s).1
  end.

Definition sqlite_call_on {P} `{Json P} (call : SqliteCall P) (t : Store string)
    : Store string :=
  match call with
  | SqliteGetItem name u sd r now => (V2.getItemFromCollection_sqlite name u sd r now t).1
  | SqliteCreateItems u items now => (V2.createItems_sqlite u items now t).1
  | SqliteInitialize sd now => (V2.initializeCollections_sqlite sd now t).1
  | SqliteMarkAll => (V2.markAllItemsAsUsed_sqlite (P:=P) t).1
  | SqliteDelete u => (V2.deleteItemsByUser_sqlite (P:=P) u t).1
  end.

Definition mongo_calls {P} `{Bson P} `{Json P} (calls : list (MongoCall P)) (s : Store P)
    : Store P :=
  foldl (λ s call, mongo_call call s) s calls.

Definition sqlite_calls {P} `{Json P} (calls : list (SqliteCall P)) (t : Store string)
    : Store string :=
  foldl (λ t call, sqlite_call_on call t) t calls.

(** The documents a call on MongoDB may insert, and the rows a call on
    SQLite may. *)
Definition mongo_inserts {P} `{Bson P} (call : MongoCall P) (b : BaseItem P) : Prop :=
  match call with
  | MongoGetItemV1 _ _ sd | MongoGetItem _ _ sd _ | MongoInitialize sd =>
      ∃ sample, sample ∈ sd ∧ b = stored_document sample
  | MongoCreateItems u items now =>
      ∃ payload, payload ∈ items
        ∧ b = stored_document (mkItem payload false None (Some u) (Some now))
  | MongoMarkAll | MongoDelete _ => False
  end.

Definition sqlite_inserts {P} `{Json P} (call : SqliteCall P) (b : BaseItem string)
    : Prop :=
  match call with
  | SqliteGetItem _ _ sd _ now | SqliteInitialize sd now =>
      ∃ sample, sample ∈ sd ∧ b = seed_row now sample
  | SqliteCreateItems u items now =>
      ∃ payload, payload ∈ items ∧ b = created_row u now payload
  | SqliteMarkAll | SqliteDelete _ => False
  end.


Definition sqlite_payloads {P} (call : SqliteCall P) : list P :=
  match call with
  | SqliteGetItem _ _ sd _ _ | SqliteInitialize sd _ => data <$> sd
  | SqliteCreateItems _ items _ => items
  | SqliteMarkAll | SqliteDelete _ => []
  end.

(** The sample data of the call are unused and unassigned, as the sample
    tables of the repository are. *)
Definition mongo_pristine {P} (call : MongoCall P) : Prop :=
  match call with
  | MongoGetItemV1 _ _ sd | MongoGetItem _ _ sd _ | MongoInitialize sd => Forall free sd
  | _ => True
  end.

Definition is_mongo_mark {P} (call : MongoCall P) : bool :=
  match call with MongoMarkAll => true | _ => false end.
Definition is_sqlite_mark {P} (call : SqliteCall P) : bool :=
  match call with SqliteMarkAll => true | _ => false end.


(** * Collections of the scenarios *)

(** Three events, all used and assigned to alice: as MongoDB documents and
    as SQLite rows. *)
Definition held_by_alice {D} (data : D) : BaseItem D :=
  mkItem data true (Some "alice") None None.

Definition three_held_by_alice : Store MessageData :=
  mkStore (number 0 (held_by_alice <$> (data <$> eventSampleData))) 3 [].

Definition three_rows_held_by_alice : Store string :=
  mkStore (number 1 (held_by_alice <$> (JSON_stringify <$> (data <$> eventSampleData))))
          4 [].

(** The collection after its seeding, nothing assigned yet. *)
Definition three_fresh : Store MessageData :=
  insert_all (stored_document <$> eventSampleData) empty_store.
Definition three_fresh_rows : Store string :=
  insert_each (seed_row 0 <$> eventSampleData) empty_store.

(** A [SQLiteClient] after a first [connect()] on a new file, and a
    [MongoDBClient] on a new server. *)
Definition connected_sqlite : DatabaseClient MessageData :=
  OfSQLite (SQLiteClientImpl.connect Succeeds Executed
              (mkSQLiteClient false "data.db" ∅)).1.
Definition new_mongodb : DatabaseClient MessageData :=
  OfMongoDB (MongoDBClientImpl.new ∅ "events_db").

(** * The two backends, side by side *)

(** The samples of the repository: unused, unassigned and without a
    creator. *)
Definition pristine {D} (b : BaseItem D) : Prop :=
  used b = false ∧ assignedTo b = None ∧ createdBy b = None.

#[global] Instance pristine_dec {D} (b : BaseItem D) : Decision (pristine b).
Proof. unfold pristine. apply _. Defined.

(** A MongoDB document and a SQLite row hold the same item: the [data] cell
    is the JSON text of the payload, and the flags and the creator are the
    same.  ([_id] and [id] are keys of different stores, and [createdAt] is
    written by the code on one side and by the default of the column on the
    other.) *)
Definition stored_as {P} `{Json P} (d : Stored P) (row : Stored string) : Prop :=
  data row = JSON_stringify (data d)
  ∧ used row = used d ∧ assignedTo row = assignedTo d ∧ createdBy row = createdBy d.

(** A collection and a table hold the same items in the same order. *)
Definition same_items {P} `{Json P} (s : Store P) (t : Store string) : Prop :=
  Forall2 stored_as (docs s) (docs t).

(** Two calls answer the same; the keys of inserted items are those of
    their stores and are not compared. *)
Definition same_response {P} (o o' : Outcome (Response P)) : Prop :=
  match o, o' with
  | Returned (mkResponse ok (InsertedData n _)),
    Returned (mkResponse ok' (InsertedData n' _)) => ok = ok' ∧ n = n'
  | _, _ => o = o'
  end.

(** [Math.random()] on MongoDB and [RANDOM()] on SQLite point at the same
    place of every list of candidates. *)
Definition same_choice (r r' : Random) : Prop :=
  ∀ n, randomIndex r n = randomIndex r' n.

(** SQLite compares the names of tables without regard to the case of
    the ASCII letters. *)
Definition lower_case_letter (a : ascii) : ascii :=
  let n := nat_of_ascii a in
  if (65 <=? n)%nat && (n <=? 90)%nat then ascii_of_nat (n + 32) else a.

Fixpoint lower_case (name : string) : string :=
  match name with
  | "" => ""
  | String a name => String (lower_case_letter a) (lower_case name)
  end.

Definition same_table_name (name name' : string) : Prop :=
  lower_case name = lower_case name'.

(** The statements put the collection name into the SQL text as it is.
    The tables of the model stand for the statements of a name that is one
    identifier: letters, digits and underscores ([main.events] or
    [events AS e] would reach the table [events]). *)
Definition name_character (a : ascii) : bool :=
  let n := nat_of_ascii a in
  ((48 <=? n)%nat && (n <=? 57)%nat) || ((65 <=? n)%nat && (n <=? 90)%nat)
  || ((97 <=? n)%nat && (n <=? 122)%nat) || (n =? 95)%nat.

Fixpoint plain_name (name : string) : bool :=
  match name with
  | "" => true
  | String a name => name_character a && plain_name name
  end.

(** * What the other operations do to a collection *)

(** The document that MongoDB holds after [createItems] for a payload: the
    payload as BSON has it, unused, unassigned, created by the user. *)
Definition created_document {P} `{Bson P} (userId : UserId) (now : Timestamp)
    (payload : P) : BaseItem P :=
  mkItem (BSON_stored payload) false None (Some userId) (Some now).

(** The call on [s] with the result [(s', o)] has added the items [new], in
    this order and under fresh keys, after the items of [s], which it has
    left as they were, and it has returned their number and their keys. *)
Definition appended {D P} (new : list (BaseItem D)) (s : Store D)
    (result : Store D * Outcome (Response P)) : Prop :=
  ∃ keys : list Id,
    result.2 = Returned (mkResponse true (InsertedData (length new) keys))
    ∧ docs result.1 = docs s ++ zip_with mkStored keys new
    ∧ length keys = length new
    ∧ (wf s → NoDup (ids (docs s) ++ keys)).

(** The item with [used = true] and everything else as it is. *)
Definition as_used {D} (d : Stored D) : Stored D :=
  mkStored (_id d) (mkItem (data d) true (assignedTo d) (createdBy d) (createdAt d)).

(** The call on [s] with the result [(s', o)] has set [used] on every item,
    has changed nothing else and has returned the number of items that
    were not used. *)
Definition marks_all {D P} (s : Store D) (result : Store D * Outcome (Response P))
    : Prop :=
  docs result.1 = as_used <$> docs s
  ∧ result.2 = Returned (mkResponse true
                 (ModifiedData (length (filter (λ d : Stored D, used d = false) (docs s))))).

(** What [getItemFromCollection] and [markAllItemsAsUsed] never write:
    the key, the payload, the creator and the time of creation. *)
Definition identity_of {D} (d : Stored D) : Id * D * option UserId * option Timestamp :=
  (_id d, data d, createdBy d, createdAt d).

(** * A cycle of the rotation *)

(** No item is assigned without being used. *)
Definition unassigned_when_unused {D} (s : Store D) : Prop :=
  ∀ d : Stored D, d ∈ docs s → used d = false → assignedTo d = None.

(** The calls for [users], in this order, on [s], with the result
    [(s', o)], have handed out the items [chosen], one for each call: items
    of [s] that were not used, no item twice, each answered with its
    payload, and each assigned to the user of its call, with no other
    mutation of the collection. *)
Definition handed_out {D P} (payload : Stored D → option P) (users : list UserId)
    (s : Store D) (result : Store D * Outcome (list (Response P))) : Prop :=
  ∃ chosen : list (Stored D),
    length chosen = length users
    ∧ Forall (λ d : Stored D, d ∈ docs s ∧ used d = false) chosen
    ∧ NoDup (ids chosen)
    ∧ (∃ responses,
         result.2 = Returned responses
         ∧ Forall2 (λ (d : Stored D) resp,
                      ∃ p, payload d = Some p ∧ resp = mkResponse true (ItemData p))
             chosen responses)
    ∧ journal result.1
      = journal s ++ zip_with (λ (d : Stored D) u, Updated [_id d] (set_assign u))
                       chosen users
    ∧ length (matching unused result.1) = length (matching unused s) - length users.

(** * Tables of the scenarios *)

(** A table with one row whose [data] cell is not the JSON text of a
    payload. *)
Definition one_unreadable_row : Store string :=
  mkStore [mkStored 1 (mkItem "oops" false None None (Some 0))] 2 [].

(** A [SQLiteClient] before its first [connect()]. *)
Definition new_sqlite : SQLiteClient := mkSQLiteClient false "data.db" ∅.

(** * [database.ts]: the configuration and the factory *)

(** [DatabaseConfig].  At run time [type] is the string the caller has cast
    to [DatabaseType]; an optional field that is absent is [None]. *)
Record DatabaseConfig : Type := mkDatabaseConfig {
  type : string;
  mongoUri : option string;
  sqliteFile : option string
}.

(** [!value] for an optional string: absent or empty. *)
Definition is_missing (value : option string) : bool :=
  match value with
  | None => true
  | Some v => bool_decide (v = "")
  end.

(** [value || fallback] for an optional string *)
Definition or_else (value : option string) (fallback : string) : string :=
  match value with
  | Some v => if decide (v = "") then fallback else v
  | None => fallback
  end.

(** [createDatabaseClient(config)].  [MONGODB_DB] is
    [process.env.MONGODB_DB]; [accepted] says whether [new MongoClient]
    accepts the connection string; [server] and [file] are what the
    connection string and the file name denote. *)
Definition createDatabaseClient {P} (config : DatabaseConfig)
    (MONGODB_DB : option string) (accepted : DriverResult)
    (server : MongoClient P) (file : Sqlite.Tables) : Outcome (DatabaseClient P) :=
  if decide (type config = "mongodb") then
    if is_missing (mongoUri config)
    then Thrown (Error "MongoDB URI is required for MongoDB client")
    else match accepted with
         | Succeeds =>
             Returned (OfMongoDB (MongoDBClientImpl.new server
                                    (or_else MONGODB_DB "events_db")))
         | Fails e => Thrown e
         end
  else if decide (type config = "sqlite") then
    if is_missing (sqliteFile config)
    then Thrown (Error "SQLite file path is required for SQLite client")
    else match SQLiteClientImpl.new (default "" (sqliteFile config)) file with
         | Returned c => Returned (OfSQLite c)
         | Thrown e => Thrown e
         end
  else Thrown (Error ("Unsupported database type: " +:+ type config)).

(** The calls on a [MongoDBClient] and what the driver answers. *)
Inductive MongoDBCall : Type :=
| MongoConnect (connected : DriverResult)
| MongoDisconnect (closed : DriverResult)
| MongoGetCollection (name : string).

Definition mongodb_call {P} (call : MongoDBCall) (c : MongoDBClient P) : MongoDBClient P :=
  match call with
  | MongoConnect connected => (MongoDBClientImpl.connect connected c).1
  | MongoDisconnect closed => (MongoDBClientImpl.disconnect closed c).1
  | MongoGetCollection name => (MongoDBClientImpl.getCollection name c).1
  end.

Definition mongodb_history {P} (calls : list MongoDBCall) (c : MongoDBClient P)
    : MongoDBClient P :=
  foldl (λ c call, mongodb_call call c) c calls.

(** What a call decides about the connection: a [connect()] that the driver
    completes (for SQLite: during which the file opens) connects, a
    [disconnect()] that the driver completes disconnects, and any other
    call decides nothing. *)
Definition mongodb_decides (call : MongoDBCall) : option bool :=
  match call with
  | MongoConnect Succeeds => Some true
  | MongoDisconnect Succeeds => Some false
  | _ => None
  end.

Definition sqlite_decides (call : SQLiteCall) : option bool :=
  match call with
  | CallConnect Succeeds _ => Some true
  | CallDisconnect Succeeds => Some false
  | _ => None
  end.

(** The last call that decides, if any, and what was before otherwise. *)
Definition last_decision {C} (decides : C → option bool) (calls : list C)
    (before : bool) : bool :=
  default before (last (omap decides calls)).

(** * JSON values *)

(** What [JSON.parse] gives: [null], a boolean, a number (here the text
    ECMAScript prints for it, which determines it), a string, an array or
    an object with its members in the order of the text. *)
#[warnings="-register-all"] Inductive JsonValue : Type :=
| JNull
| JBoolean (b : bool)
| JNumber (text : string)
| JString (s : string)
| JArray (elements : list JsonValue)
| JObject (members : list (string * JsonValue)).

(** [object[key]] for an object of [JSON.parse]: the last member with this
    key, [undefined] ([None]) when there is none. *)
Fixpoint member (key : string) (members : list (string * JsonValue))
    : option JsonValue :=
  match members with
  | [] => None
  | (k, v) :: members =>
      match member key members with
      | Some v' => Some v'
      | None => if decide (k = key) then Some v else None
      end
  end.

(** [value[key]] for one of the keys [message], [type], [amount],
    [property], [baseAmount], which no prototype defines: a [TypeError]
    on [null], the member of an object, [undefined] on anything else. *)
Definition property_of (key : string) (value : JsonValue) : Outcome (option JsonValue) :=
  match value with
  | JNull => Thrown TypeError
  | JObject members => Returned (member key members)
  | _ => Returned None
  end.

(** [text.includes(needle)] *)
Fixpoint starts_with (needle text : string) : bool :=
  match needle, text with
  | "", _ => true
  | String a needle, String b text => bool_decide (a = b) && starts_with needle text
  | String _ _, "" => false
  end.

Fixpoint includes (needle text : string) : bool :=
  starts_with needle text
  || match text with
     | "" => false
     | String _ text => includes needle text
     end.

(** [try { body } catch (error) { handler }] *)
Definition try_catch {S A} (body : M S A) (handler : Exception → M S A) : M S A :=
  λ s, match body s with
       | (s', Returned a) => (s', Returned a)
       | (s', Thrown error) => handler error s'
       end.

(** [error.message], where the model has it: the messages of the
    [TypeError] and the [SyntaxError] of the runtime are not modelled. *)
Definition message_of (error : Exception) : option string :=
  match error with
  | Error message | MongoInvalidArgumentError message | SqliteError message =>
      Some message
  | TypeError | SyntaxError => None
  end.

(** * [services/openai.ts]: [class MonopolyChatBot] *)

Module Services.

Record OpenAIConfig : Type := mkOpenAIConfig {
  apiKey : string;
  baseURL : string;
  model : string
}.

(** [new OpenAI({ apiKey, baseURL })] *)
Record OpenAI : Type := mkOpenAI {
  client_apiKey : string;
  client_baseURL : string
}.

(** An instance: [openaiClient] and [model]. *)
Record MonopolyChatBot : Type := mkMonopolyChatBot {
  openaiClient : option OpenAI;
  bot_model : string
}.

(** [private constructor() {}] *)
Definition new : MonopolyChatBot := mkMonopolyChatBot None "".

(** The static field [instance]. *)
Definition Instance : Type := option MonopolyChatBot.

(** [MonopolyChatBot.getInstance().method()]: the instance is created on
    the first call, and the method works on it. *)
Definition getInstance {A} (method : M MonopolyChatBot A) : M Instance A :=
  λ instance,
    let bot := default new instance in
    let '(bot', o) := method bot in (Some bot', o).

Definition initialize (config : OpenAIConfig) : M MonopolyChatBot unit :=
  if decide (apiKey config = "")
  then throw (Error "Missing apiKey in OpenAI configuration")
  else if decide (baseURL config = "")
  then throw (Error "Missing baseURL in OpenAI configuration")
  else if decide (model config = "")
  then throw (Error "Missing model in OpenAI configuration")
  else modify (λ _, mkMonopolyChatBot
                      (Some (mkOpenAI (apiKey config) (baseURL config)))
                      (model config)).

(** What [createGameEvent] resolves to: [{ success, data }]. *)
Record GameEvents : Type := mkGameEvents {
  generated : bool;                (* [success] *)
  events : list JsonValue          (* [data] *)
}.

(** [{ message, type: 'system' }] *)
Definition system_event (message : string) : JsonValue :=
  JObject [("message", JString message); ("type", JString "system")].

(** [completion] is what the call of [chat.completions.create] and the
    reading of [choices[0]?.message?.content] give: an exception, or the
    content, if any. *)
Definition createGameEvent `{Json JsonValue} (completion : Outcome (option string))
    (message : string) : M MonopolyChatBot GameEvents :=
  bot ← get;
  match openaiClient bot with
  | None => throw (Error "MonopolyChatBot not initialized. Call initialize() first.")
  | Some _ =>
      match completion with
      | Thrown error => throw error
      | Returned content =>
          let content := or_else content "" in
          match JSON_parse content with
          | Some (JArray events) => ret (mkGameEvents true events)
          | Some _ =>
              ret (mkGameEvents false [system_event "Invalid game events format"])
          | None =>
              ret (mkGameEvents false [system_event "Failed to parse game events"])
          end
      end
  end.

Definition isInitialized (bot : MonopolyChatBot) : bool :=
  bool_decide (openaiClient bot ≠ None).
End Services.

(** * [index.ts]: the configuration, the start and the routes *)

Definition and_then {A B} (o : Outcome A) (f : A → Outcome B) : Outcome B :=
  match o with
  | Returned a => f a
  | Thrown error => Thrown error
  end.

(** [array.map(f)] for an [f] that may throw *)
Fixpoint map_outcome {A B} (f : A → Outcome B) (l : list A) : Outcome (list B) :=
  match l with
  | [] => Returned []
  | x :: l =>
      and_then (f x) (λ y, and_then (map_outcome f l) (λ ys, Returned (y :: ys)))
  end.

(** A synchronous computation at its place in an [async] function *)
Definition lift {S A} (o : Outcome A) : M S A := λ s, (s, o).

Module Index.

(** A key of an object that the code builds: the object does not have
    the key, or it has it with the value [undefined], or with a value that
    JSON has. *)
Inductive Property : Type :=
| Absent
| Undefined
| Defined (value : JsonValue).

(** The [data] of an item, of a question as of an event: an object with
    some of the keys [message], [type], [amount], [property] and
    [baseAmount]. *)
Record ItemData : Type := mkItemData {
  message : Property;
  type : Property;
  amount : Property;
  property : Property;
  baseAmount : Property
}.

(** BSON has no [undefined]: the driver writes [null] for it. *)
Definition BSON_property (value : Property) : Property :=
  match value with
  | Undefined => Defined JNull
  | _ => value
  end.

#[global] Instance ItemData_Bson : Bson ItemData :=
  mkBson ItemData
    (λ d, mkItemData (BSON_property (message d)) (BSON_property (type d))
            (BSON_property (amount d)) (BSON_property (property d))
            (BSON_property (baseAmount d))).

(** [process.env], as far as [index.ts] reads it *)
Record Env : Type := mkEnv {
  DB_TYPE : option string;
  MONGODB_URI : option string;
  MONGODB_DB : option string;
  SQLITE_FILE : option string;
  OPENAI_API_KEY : option string;
  OPENAI_BASE_URL : option string;
  OPENAI_MODEL : option string
}.

Definition dbType (env : Env) : string := or_else (DB_TYPE env) "mongodb".

(** [resolve] is [path.resolve]. *)
Definition dbConfig (resolve : string → string) (env : Env) : DatabaseConfig :=
  mkDatabaseConfig (dbType env) (MONGODB_URI env)
    (if decide (dbType env = "sqlite")
     then Some (resolve (or_else (SQLITE_FILE env) "./data.db"))
     else None).

(** How the module ends its loading: with the client, with
    [process.exit(code)], or with an exception nobody catches. *)
Inductive Loaded (A : Type) : Type :=
| Created (a : A)
| ExitedWith (code : nat)
| Uncaught (error : Exception).
Arguments Created {A}.
Arguments ExitedWith {A}.
Arguments Uncaught {A}.

(** The statements of the module up to [const dbClient = ...]. *)
Definition load (resolve : string → string) (env : Env) (accepted : DriverResult)
    (server : MongoClient ItemData) (file : Sqlite.Tables)
    : Loaded (DatabaseClient ItemData) :=
  let config := dbConfig resolve env in
  if bool_decide (dbType env = "mongodb") && is_missing (mongoUri config)
  then ExitedWith 1
  else if bool_decide (dbType env = "sqlite") && is_missing (sqliteFile config)
  then ExitedWith 1
  else match createDatabaseClient config (MONGODB_DB env) accepted server file with
       | Returned dbClient => Created dbClient
       | Thrown error => Uncaught error
       end.

(** The state of the process: [dbClient] and [MonopolyChatBot.instance]. *)
Record Server : Type := mkServer {
  dbClient : DatabaseClient ItemData;
  chatBot : Services.Instance
}.

Definition on_dbClient {A} (m : M (DatabaseClient ItemData) A) : M Server A :=
  zoom dbClient (λ c s, mkServer c (chatBot s)) m.
Definition on_chatBot {A} (m : M Services.Instance A) : M Server A :=
  zoom chatBot (λ b s, mkServer (dbClient s) b) m.

(** [dbClient.connect()], on either client; [executed] matters to SQLite
    only. *)
Definition connect (opened : DriverResult) (executed : ExecResult)
    : M (DatabaseClient ItemData) unit :=
  on_mongodb (MongoDBClientImpl.connect opened)
    (SQLiteClientImpl.connect opened executed).

(** How [initializeServices] ends: the promise resolves and the server
    listens, or the process exits. *)
Inductive Started : Type :=
| Listening
| Exited (code : nat).

Definition initializeServices (env : Env) (opened : DriverResult)
    (executed : ExecResult) : M Server Started :=
  try_catch
    ((* Initialize database *)
     _ ← on_dbClient (connect opened executed);
     (* Initialize MonopolyChatBot *)
     _ ← try_catch
           (on_chatBot
              (Services.getInstance
                 (Services.initialize
                    (Services.mkOpenAIConfig (or_else (OPENAI_API_KEY env) "")
                       (or_else (OPENAI_BASE_URL env) "")
                       (or_else (OPENAI_MODEL env) "")))))
           (λ _, ret tt);
     ret Listening)
    (λ _, ret (Exited 1)).

(** ** The responses *)

(** A string of a response: a literal of the code, or [error.message]. *)
Inductive Text : Type :=
| Literal (text : string)
| MessageOf (error : Exception).

Inductive Body : Type :=
| ResultBody (result : Response ItemData)          (* [res.json(result)] *)
| ErrorBody (error : Text)                         (* [{ error }] *)
| UnavailableBody (error details : string)         (* [{ error, details }] *)
| StatusBody (status : string) (message : Text)    (* [{ status, message }] *)
| UpdatedBody (deletedEvents newEvents : ResponseData ItemData).
    (* [{ success: true, data: { deletedEvents, newEvents } }] *)

(** What a route sends: [res.status(status).json(body)]; [res.json(body)]
    sends the status 200. *)
Record HttpResponse : Type := mkHttpResponse {
  status : nat;
  body : Body
}.

Definition unknown_error (error : Exception) : HttpResponse :=
  mkHttpResponse 500 (ErrorBody (MessageOf error)).

(** [error.message.includes('MonopolyChatBot not initialized')] *)
Definition not_initialized (error : Exception) : bool :=
  match message_of error with
  | Some message => includes "MonopolyChatBot not initialized" message
  | None => false
  end.

Definition unavailable : HttpResponse :=
  mkHttpResponse 503
    (UnavailableBody "MonopolyChatBot service is not available"
       "Game event creation with AI is currently unavailable").

(** ** The routes

    A route is given the fields of the request it reads and what it reads
    of the outside; it gives the response it sends.  What [next()] does
    after that is not of the routes.

    The fields are those of a request of the declared type
    ([UserIdRequest], [CreateEventRequest]): a string, or [None] for a
    field that is not there.  The routes themselves test [!userId] and
    [!message] only; a field that is an object, an array, a number or
    [true] would pass the test and reach the operations, which are written
    for strings.  Such requests are not modelled. *)

Section Routes.
Context `{Json ItemData} `{Json JsonValue}.
Context (events questions : CollectionConfig ItemData).  (* [COLLECTIONS] *)


(** [userId] is [req.query.userId]. *)
Definition getEvent (userId : option string) (r : Random) (now : Timestamp)
    : M Server HttpResponse :=
  try_catch
    (if is_missing userId
     then ret (mkHttpResponse 400 (ErrorBody (Literal "userId is required")))
     else
       result ← on_dbClient
                  (V2.getItemFromCollection (config_name events) (default "" userId)
                     (config_sampleData events) r now);
       ret (mkHttpResponse 200 (ResultBody result)))
    (λ error, ret (unknown_error error)).

Definition getQuestion (userId : option string) (r : Random) (now : Timestamp)
    : M Server HttpResponse :=
  try_catch
    (if is_missing userId
     then ret (mkHttpResponse 400 (ErrorBody (Literal "userId is required")))
     else
       result ← on_dbClient
                  (V2.getItemFromCollection (config_name questions) (default "" userId)
                     (config_sampleData questions) r now);
       ret (mkHttpResponse 200 (ResultBody result)))
    (λ error, ret (unknown_error error)).

(** [key: value] in an object literal *)
Definition key_with (value : option JsonValue) : Property :=
  match value with
  | Some v => Defined v
  | None => Undefined
  end.

(** [...(value !== undefined && { key: value })] in an object literal *)
Definition key_if_defined (value : option JsonValue) : Property :=
  match value with
  | Some v => Defined v
  | None => Absent
  end.

(** The [data] of the item that the routes make of an event of the chat
    bot. *)
Definition event_data (event : JsonValue) : Outcome ItemData :=
  and_then (property_of "message" event) (λ message,
  and_then (property_of "type" event) (λ type,
  and_then (property_of "amount" event) (λ amount,
  and_then (property_of "property" event) (λ property,
  and_then (property_of "baseAmount" event) (λ baseAmount,
  Returned (mkItemData (key_with message) (key_with type) (key_if_defined amount)
              (key_if_defined property) (key_if_defined baseAmount))))))).

(** [userId] and [message] are the fields of [req.body]; [completion] is
    what the chat model answers. *)
Definition createEvents (userId message : option string)
    (completion : Outcome (option string)) (now : Timestamp) : M Server HttpResponse :=
  try_catch
    (if is_missing userId || is_missing message
     then ret (mkHttpResponse 400 (ErrorBody (Literal "userId and message are required")))
     else
       try_catch
         (response ← on_chatBot
                       (Services.getInstance
                          (Services.createGameEvent completion (default "" message)));
          if negb (Services.generated response)
          then ret (mkHttpResponse 400
                      (ErrorBody (Literal "Failed to generate game events")))
          else
            items ← lift (map_outcome event_data (Services.events response));
            result ← on_dbClient
                       (V2.createItems (config_name events) (default "" userId) items now);
            ret (mkHttpResponse 200 (ResultBody result)))
         (λ error, if not_initialized error then ret unavailable else throw error))
    (λ error, ret (unknown_error error)).

Definition updateEvents (userId message : option string)
    (completion : Outcome (option string)) (now : Timestamp) : M Server HttpResponse :=
  try_catch
    (if is_missing userId || is_missing message
     then ret (mkHttpResponse 400 (ErrorBody (Literal "userId and message are required")))
     else
       try_catch
         ((* First, delete all existing events created by this user *)
          deleteResult ← on_dbClient
                           (V2.deleteItemsByUser (config_name events) (default "" userId));
          (* Then create new events *)
          response ← on_chatBot
                       (Services.getInstance
                          (Services.createGameEvent completion (default "" message)));
          if negb (Services.generated response)
          then ret (mkHttpResponse 400
                      (ErrorBody (Literal "Failed to generate game events")))
          else
            items ← lift (map_outcome event_data (Services.events response));
            result ← on_dbClient
                       (V2.createItems (config_name events) (default "" userId) items now);
            ret (mkHttpResponse 200 (UpdatedBody (rdata deleteResult) (rdata result))))
         (λ error, if not_initialized error then ret unavailable else throw error))
    (λ error, ret (unknown_error error)).
End Routes.

(** ** [models/event.ts], [models/question.ts] and [config/collections.ts],
    as [index.ts] imports them *)

Definition text (s : string) : Property := Defined (JString s).
Definition number (printed : string) : Property := Defined (JNumber printed).

Definition eventSampleData : list (BaseItem ItemData) :=
  [ mkItem (mkItemData (text "Pay luxury tax") (text "chance")
              (number "2400") Absent (number "2000")) false None None None;
    mkItem (mkItemData (text "Property auction") (text "auction")
              (number "1600") (text "Park Place") (number "2000")) false None None None;
    mkItem (mkItemData (text "Bank error in your favor") (text "community_chest")
              (number "1200") Absent (number "1000")) false None None None ].

Definition questionSampleData : list (BaseItem ItemData) :=
  [ mkItem (mkItemData (text "Question 1") Absent Absent Absent Absent)
           false None None None;
    mkItem (mkItemData (text "Question 2") Absent Absent Absent Absent)
           false None None None;
    mkItem (mkItemData (text "Question 3") Absent Absent Absent Absent)
           false None None None ].

Definition events : CollectionConfig ItemData := mkConfig "events" eventSampleData.
Definition questions : CollectionConfig ItemData :=
  mkConfig "questions" questionSampleData.
End Index.

(** * Histories of the chat bot *)

(** The settings [initialize] accepts: none of the three is empty. *)
Definition complete (config : Services.OpenAIConfig) : Prop :=
  Services.apiKey config ≠ "" ∧ Services.baseURL config ≠ ""
  ∧ Services.model config ≠ "".

#[global] Instance complete_dec config : Decision (complete config).
Proof. unfold complete. apply _. Defined.

(** The bot after calls of [initialize], whether they throw or not. *)
Definition initialized_with (configs : list Services.OpenAIConfig)
    (bot : Services.MonopolyChatBot) : Services.MonopolyChatBot :=
  foldl (λ bot config, (Services.initialize config bot).1) bot configs.

(** The bot that [initialize] makes of complete settings. *)
Definition bot_of (config : Services.OpenAIConfig) : Services.MonopolyChatBot :=
  Services.mkMonopolyChatBot
    (Some (Services.mkOpenAI (Services.apiKey config) (Services.baseURL config)))
    (Services.model config).

(** The settings of the environment, as [initializeServices] passes them. *)
Definition settings_of (env : Index.Env) : Services.OpenAIConfig :=
  Services.mkOpenAIConfig (or_else (Index.OPENAI_API_KEY env) "")
    (or_else (Index.OPENAI_BASE_URL env) "") (or_else (Index.OPENAI_MODEL env) "").

(** A server that has just loaded its module. *)
Definition loaded (dbClient : DatabaseClient Index.ItemData) : Index.Server :=
  Index.mkServer dbClient None.

(** An environment with nothing but the MongoDB connection string. *)
Definition env_without_openai : Index.Env :=
  Index.mkEnv None (Some "mongodb://localhost:27017") None None None None None.

(** [dbClient.connect()] goes through when the driver connects, for SQLite
    when the file opens and the tables are created. *)
Definition connects (cl : DatabaseClient Index.ItemData) (opened : DriverResult)
    (executed : ExecResult) : bool :=
  match cl, opened, executed with
  | OfMongoDB _, Succeeds, _ => true
  | OfSQLite _, Succeeds, Executed => true
  | _, _, _ => false
  end.

(** * What a client shows of its collections *)

(** An item without its payload: the key, [used], [assignedTo] and
    [createdBy]. *)
Definition Row : Type := Id * bool * option UserId * option UserId.

Definition row_of {D} (d : Stored D) : Row :=
  (_id d, used d, assignedTo d, createdBy d).

Definition creator (row : Row) : option UserId := row.2.

(** The items of the collection [name] behind a client, in their order;
    a collection or a table that does not exist has none. *)
Definition rows_of {P} (name : string) (cl : DatabaseClient P) : list Row :=
  match cl with
  | OfMongoDB c => row_of <$> docs (collection name (database (dbName c) (client c)))
  | OfSQLite c =>
      match tables c !! name with
      | Some t => row_of <$> docs t
      | None => []
      end
  end.

(** The client can serve the collection [name]: its keys are unique, and
    on SQLite the client is connected to a database that has the table,
    every row of which parses. *)
Definition serves {P} `{Json P} (name : string) (cl : DatabaseClient P) : Prop :=
  match cl with
  | OfMongoDB c => wf (collection name (database (dbName c) (client c)))
  | OfSQLite c =>
      db_open c = true
      ∧ ∃ t, tables c !! name = Some t ∧ wf t ∧ readable (P:=P) t
  end.




(** What a route answers when the operation it has called throws. *)
Definition failed (error : Exception) : Index.HttpResponse :=
  if Index.not_initialized error then Index.unavailable else Index.unknown_error error.

(** What the two routes that call the chat bot do once the events of the
    user are deleted, or not, as a function: [cl] is the client at that
    point, [respond] the body of the response 200.  The lemmas
    [createEvents_run] and [updateEvents_run] relate the routes to it. *)
Definition generate_and_create `{Json Index.ItemData} `{Json JsonValue}
    (events : CollectionConfig Index.ItemData) (userId message : option string)
    (completion : Outcome (option string)) (now : Timestamp)
    (respond : Response Index.ItemData → Index.Body)
    (cl : DatabaseClient Index.ItemData) (instance : Services.Instance)
    : Index.Server * Index.HttpResponse :=
  let bot := default Services.new instance in
  match (Services.createGameEvent completion (default "" message) bot).2 with
  | Thrown error => (Index.mkServer cl (Some bot), failed error)
  | Returned response =>
      if negb (Services.generated response)
      then (Index.mkServer cl (Some bot),
            Index.mkHttpResponse 400
              (Index.ErrorBody (Index.Literal "Failed to generate game events")))
      else
        match map_outcome Index.event_data (Services.events response) with
        | Thrown error => (Index.mkServer cl (Some bot), failed error)
        | Returned items =>
            let result := V2.createItems (config_name events) (default "" userId)
                            items now cl in
            (Index.mkServer result.1 (Some bot),
             match result.2 with
             | Returned created => Index.mkHttpResponse 200 (respond created)
             | Thrown error => failed error
             end)
        end
  end.

(** The rows of items that [createItems] has added for a user under the
    given keys. *)
Definition created_rows (userId : UserId) (keys : list Id) : list Row :=
  (λ key, (key, false, None, Some userId)) <$> keys.

(** What [createItems] for [n] items does to the rows of a collection and
    answers: it adds the rows of that many new items of the user and
    returns their number, or it throws and leaves the rows. *)
Definition creates_rows {P} (userId : UserId) (n : nat) (rows : list Row)
    (o : Outcome (Response P)) (rows' : list Row) : Prop :=
  (∃ keys, length keys = n
           ∧ o = Returned (mkResponse true (InsertedData n keys))
           ∧ rows' = rows ++ created_rows userId keys)
  ∨ (∃ error, o = Thrown error ∧ rows' = rows).

(** What [deleteItemsByUser] does to the rows of a collection and
    answers. *)
Definition deletes_rows {P} (userId : UserId) (rows : list Row)
    (o : Outcome (Response P)) (rows' : list Row) : Prop :=
  o = Returned (mkResponse true
        (DeletedData (length (filter (λ row, creator row = Some userId) rows))))
  ∧ rows' = filter (λ row, creator row ≠ Some userId) rows.

(** * The [index.ts] of the first generation, and the one before it *)

(** A field of [req.body], the object that [express.json()] has parsed,
    that passes [if (!field || typeof field !== 'string')]: a string that
    is not empty.  [None] is a key that is absent. *)
Definition valid_string (field : option JsonValue) : option string :=
  match field with
  | Some (JString s) => if decide (s = "") then None else Some s
  | _ => None
  end.

Module IndexV1.

(** The body of a response: [{ success, data }], where [data] is the
    payload of an item, an error, or, for [/createEvents],
    [{ userMessage, aiResponse, ...result.data }]. *)
Inductive Body : Type :=
| ResultBody (result : Response MessageData)
| CreatedBody (userMessage aiResponse : string) (rest : ResponseData MessageData).

Record HttpResponse : Type := mkHttpResponse {
  status : nat;
  body : Body
}.

Definition invalid (parameter : string) : HttpResponse :=
  mkHttpResponse 400
    (ResultBody (mkResponse false (ErrorData ("Invalid " +:+ parameter +:+ " parameter")))).

Definition internal_server_error : HttpResponse :=
  mkHttpResponse 500 (ResultBody (mkResponse false (ErrorData "Internal server error"))).

(** [services/openai.ts] of that generation; [completion] is what the call
    of [chat.completions.create] and the reading of
    [choices[0]?.message?.content] give. *)
Definition getCreateEventsChatResponse (completion : Outcome (option string))
    (message : string) : Outcome string :=
  match completion with
  | Returned content => Returned (or_else content "No response generated")
  | Thrown error => Thrown error
  end.

Section Routes.
Context (dbName : string).        (* [process.env.MONGODB_DB || 'events_db'] *)

(** [connected] is the outcome of [client.connect()].  When the promise
    resolves, the caller goes on to [app.listen]. *)
Definition connectToMongo (connected : DriverResult)
    : M (MongoClient MessageData) Index.Started :=
  try_catch
    (_ ← driver connected;
     _ ← V1.initializeCollections dbName COLLECTIONS;
     ret Index.Listening)
    (λ _, ret (Index.Exited 1)).

(** [userId] is [req.body.userId]. *)
Definition getEvent (userId : option JsonValue) : M (MongoClient MessageData) HttpResponse :=
  match valid_string userId with
  | None => ret (invalid "userId")
  | Some userId =>
      try_catch
        (result ← on_db dbName
                    (on_collection "events"
                       (V1.getItemFromCollection "events" userId eventSampleData));
         ret (mkHttpResponse 200 (ResultBody result)))
        (λ _, ret internal_server_error)
  end.

Definition getQuestion (userId : option JsonValue)
    : M (MongoClient MessageData) HttpResponse :=
  match valid_string userId with
  | None => ret (invalid "userId")
  | Some userId =>
      try_catch
        (result ← on_db dbName
                    (on_collection "questions"
                       (V1.getItemFromCollection "questions" userId questionSampleData));
         ret (mkHttpResponse 200 (ResultBody result)))
        (λ _, ret internal_server_error)
  end.

Definition createEvents (userId message : option JsonValue)
    (completion : Outcome (option string)) (now : Timestamp)
    : M (MongoClient MessageData) HttpResponse :=
  match valid_string userId with
  | None => ret (invalid "userId")
  | Some userId =>
      match valid_string message with
      | None => ret (invalid "message")
      | Some message =>
          try_catch
            ((* Get response from OpenAI *)
             aiResponse ← lift (getCreateEventsChatResponse completion message);
             (* Create event with the AI response *)
             result ← on_db dbName
                        (on_collection "events"
                           (V1.createItems userId [mkMessage aiResponse] now));
             ret (mkHttpResponse 200 (CreatedBody message aiResponse (rdata result))))
            (λ _, ret internal_server_error)
      end
  end.
End Routes.
End IndexV1.

(** The first [index.ts], with the rotation in the route itself. *)
Module Index0.
Section Routes.
Context (dbName collectionName : string).
  (* [process.env.MONGODB_DB || 'events_db'],
     [process.env.MONGODB_COLLECTION || 'events'] *)

(** The [try] block of [connectToMongo] after [client.connect()], on the
    collection. *)
Definition initialize_events : M (Store MessageData) unit :=
  count ← Mongo.countDocuments;
  if decide (count = 0)
  then _ ← Mongo.insertMany
             [ mkItem (mkMessage "Event 1") false None None None;
               mkItem (mkMessage "Event 2") false None None None;
               mkItem (mkMessage "Event 3") false None None None ];
       ret tt
  else ret tt.

Definition connectToMongo (connected : DriverResult)
    : M (MongoClient MessageData) Index.Started :=
  try_catch
    (_ ← driver connected;
     _ ← on_db dbName (on_collection collectionName initialize_events);
     ret Index.Listening)
    (λ _, ret (Index.Exited 1)).

(** The [try] block of the route [/getEvent], on the collection: what it
    passes to [res.json]. *)
Definition getEvent_on_collection (userId : UserId)
    : M (Store MessageData) (Response MessageData) :=
  (* Find an unused event not assigned to this user *)
  event ← Mongo.findOne (candidate userId);
  match event with
  | Some event =>
      (* Mark event as used and assign to user *)
      _ ← Mongo.updateOne (by_id (_id event)) (set_assign userId);
      ret (mkResponse true (ItemData (data event)))
  | None =>
      (* If no unused events found, reset all events *)
      _ ← Mongo.updateMany everything set_reset;
      (* Try to get the first available event *)
      resetEvent ← Mongo.findOne everything;
      match resetEvent with
      | Some resetEvent =>
          _ ← Mongo.updateOne (by_id (_id resetEvent)) (set_assign userId);
          ret (mkResponse true (ItemData (data resetEvent)))
      | None => ret (mkResponse false (ErrorData "No events available"))
      end
  end.

Definition getEvent (userId : option JsonValue)
    : M (MongoClient MessageData) IndexV1.HttpResponse :=
  match valid_string userId with
  | None => ret (IndexV1.invalid "userId")
  | Some userId =>
      try_catch
        (result ← on_db dbName (on_collection collectionName
                                  (getEvent_on_collection userId));
         ret (IndexV1.mkHttpResponse 200 (IndexV1.ResultBody result)))
        (λ _, ret IndexV1.internal_server_error)
  end.
End Routes.
End Index0.

(* ===================================================================== *)
(** * Properties *)
(* ===================================================================== *)

(** ** The store *)

Section StoreFacts.
Context {D : Type}.
Implicit Types (l : list (Stored D)) (s : Store D) (q : Stored D → bool).

Lemma id_update u (d : Stored D) : _id (update u d) = _id d.
Proof. reflexivity. Qed.

Lemma data_update u (d : Stored D) : data (update u d) = data d.
Proof. reflexivity. Qed.

Lemma createdBy_update u (d : Stored D) : createdBy (update u d) = createdBy d.
Proof. reflexivity. Qed.

Lemma ids_update_where q u l :
  ids ((λ d, if q d then update u d else d) <$> l) = ids l.
Proof.
  unfold ids. rewrite <- list_fmap_compose. apply list_fmap_ext.
  intros i d _. simpl. by destruct (q d).
Qed.

Lemma ids_update_first_in q u l : ids (update_first_in q u l) = ids l.
Proof.
  induction l as [|d l IH]; [done|]. cbn [update_first_in].
  destruct (q d); [done|]. unfold ids in *. rewrite !fmap_cons. by rewrite IH.
Qed.

Lemma ids_number n (batch : list (BaseItem D)) :
  ids (number n batch) = seq n (length batch).
Proof.
  revert n. induction batch as [|b batch IH]; intros n; [done|].
  unfold ids in *. cbn [number length seq]. rewrite fmap_cons. by rewrite IH.
Qed.

Lemma length_number n (batch : list (BaseItem D)) :
  length (number n batch) = length batch.
Proof. revert n. induction batch as [|b batch IH]; intros n; simpl; auto. Qed.

Lemma item_number n (batch : list (BaseItem D)) :
  item <$> number n batch = batch.
Proof.
  revert n. induction batch as [|b batch IH]; intros n; [done|].
  cbn [number]. rewrite fmap_cons. by rewrite IH.
Qed.

Lemma by_id_true i (d : Stored D) : by_id i d = true ↔ _id d = i.
Proof. unfold by_id. by rewrite bool_decide_eq_true. Qed.

Lemma by_id_false i (d : Stored D) : by_id i d = false ↔ _id d ≠ i.
Proof. unfold by_id. by rewrite bool_decide_eq_false. Qed.

Lemma by_id_absent i l e : i ∉ ids l → e ∈ l → by_id i e = false.
Proof.
  intros Hi He. apply by_id_false. intros <-. apply Hi.
  unfold ids. apply list_elem_of_fmap. eauto.
Qed.

Lemma update_absent i u l :
  i ∉ ids l → (λ d, if by_id i d then update u d else d) <$> l = l.
Proof.
  intros Hi. rewrite <- (list_fmap_id l) at 2. apply list_fmap_ext.
  intros k d Hk. simpl. erewrite by_id_absent; eauto using list_elem_of_lookup_2.
Qed.

Lemma matching_absent i l :
  i ∉ ids l → filter (λ d, by_id i d = true) l = [].
Proof.
  induction l as [|d l IH]; [done|]. unfold ids. rewrite fmap_cons, not_elem_of_cons.
  intros [Hne Hi]. rewrite filter_cons.
  destruct (decide (by_id i d = true)) as [He|He]; [|by apply IH].
  apply by_id_true in He. congruence.
Qed.

(** With unique keys, updating the first match on a key is updating every
    match. *)
Lemma update_first_in_by_id i u l :
  NoDup (ids l) →
  update_first_in (by_id i) u l = (λ d, if by_id i d then update u d else d) <$> l.
Proof.
  induction l as [|d l IH]; [done|]. unfold ids. rewrite fmap_cons, NoDup_cons.
  intros [Hd Hl]. cbn [update_first_in]. rewrite fmap_cons.
  destruct (by_id i d) eqn:Hi.
  - f_equal. apply by_id_true in Hi. subst i. by rewrite update_absent.
  - f_equal. by apply IH.
Qed.

Lemma matching_by_id i l :
  NoDup (ids l) → i ∈ ids l → ∃ d, d ∈ l ∧ _id d = i ∧
    filter (λ d, by_id i d = true) l = [d].
Proof.
  induction l as [|d l IH]; [by rewrite elem_of_nil|].
  unfold ids. rewrite !fmap_cons, NoDup_cons, elem_of_cons.
  intros [Hd Hl] Hi. rewrite filter_cons.
  destruct (decide (by_id i d = true)) as [He|He].
  - apply by_id_true in He. subst i. exists d. split_and!; [left|done|].
    by rewrite matching_absent.
  - destruct Hi as [->|Hi]; [destruct He; by apply by_id_true|].
    destruct (IH Hl Hi) as (e & He1 & He2 & He3).
    exists e. split_and!; [by right|done|done].
Qed.

Lemma ids_matching_by_id i l :
  NoDup (ids l) → i ∈ ids l → ids (filter (λ d, by_id i d = true) l) = [i].
Proof.
  intros Hnd Hi. destruct (matching_by_id i l Hnd Hi) as (d & _ & <- & ->). done.
Qed.

Lemma matching_by_id_take i l :
  NoDup (ids l) →
  take 1 (filter (λ d, by_id i d = true) l) = filter (λ d, by_id i d = true) l.
Proof.
  intros Hnd. destruct (decide (i ∈ ids l)) as [Hi|Hi].
  - destruct (matching_by_id i l Hnd Hi) as (d & _ & _ & ->). done.
  - by rewrite matching_absent.
Qed.

Lemma update_first_by_id i u s :
  wf s → update_first (by_id i) u s = update_where (by_id i) u s.
Proof.
  intros [Hnd _]. unfold update_first, update_where, matching. f_equal.
  - by apply update_first_in_by_id.
  - by rewrite matching_by_id_take.
Qed.

(** *** Well-formedness is kept by every mutation *)

Lemma wf_empty : wf (@empty_store D).
Proof. split; [apply NoDup_nil_2 | apply Forall_nil_2]. Qed.

Lemma wf_insert_all batch s : wf s → wf (insert_all batch s).
Proof.
  intros [Hnd Hlt]. unfold wf, insert_all. simpl.
  unfold ids in *. rewrite fmap_app. fold (ids (number (nextId s) batch)).
  rewrite ids_number. split.
  - apply NoDup_app. split_and!; [done| |apply NoDup_seq].
    intros i Hi Hi'. rewrite Forall_forall in Hlt. apply Hlt in Hi.
    apply elem_of_seq in Hi'. lia.
  - apply Forall_app. split.
    + eapply Forall_impl; [exact Hlt|]. simpl. intros; lia.
    + apply Forall_forall. intros i Hi. apply elem_of_seq in Hi. lia.
Qed.

Lemma wf_update_where q u s : wf s → wf (update_where q u s).
Proof. unfold wf, update_where. simpl. by rewrite ids_update_where. Qed.

Lemma wf_update_first q u s : wf s → wf (update_first q u s).
Proof. unfold wf, update_first. simpl. by rewrite ids_update_first_in. Qed.

Lemma elem_of_ids_filter (Q : Stored D → Prop) `{∀ d, Decision (Q d)} l i :
  i ∈ ids (filter Q l) → i ∈ ids l.
Proof.
  unfold ids. rewrite !list_elem_of_fmap.
  intros (d & -> & [_ Hd]%list_elem_of_filter). eauto.
Qed.

Lemma NoDup_ids_filter (Q : Stored D → Prop) `{∀ d, Decision (Q d)} l :
  NoDup (ids l) → NoDup (ids (filter Q l)).
Proof.
  induction l as [|d l IH]; [done|]. unfold ids. rewrite fmap_cons, NoDup_cons.
  intros [Hd Hl]. rewrite filter_cons. destruct (decide (Q d)); [|by apply IH].
  rewrite fmap_cons. apply NoDup_cons. split; [|by apply IH].
  intros Hin. apply Hd. by eapply elem_of_ids_filter.
Qed.

Lemma wf_delete_where q s : wf s → wf (delete_where q s).
Proof.
  intros [Hnd Hlt]. unfold wf, delete_where. simpl. split.
  - by apply NoDup_ids_filter.
  - rewrite Forall_forall in *. intros i Hi. eapply Hlt, elem_of_ids_filter, Hi.
Qed.
End StoreFacts.

(** ** The rotation *)

Lemma randomIndex_lt r len : 0 < len → randomIndex r len < len.
Proof.
  intros Hlen. unfold randomIndex.
  apply Nat.Div0.div_lt_upper_bound. nia.
Qed.

#[global] Instance pick_first_picker {D} : Picker (@pick_first D).
Proof.
  split; unfold pick_first.
  - intros [|d l] x; [done|]. simpl. intros [= ->]. left.
  - intros [|d l]; [done|]. by eexists.
Qed.

#[global] Instance pick_random_picker {D} r : Picker (@pick_random D r).
Proof.
  split; unfold pick_random.
  - intros l x. apply list_elem_of_lookup_2.
  - intros l Hl. apply lookup_lt_is_Some, randomIndex_lt.
    destruct l; [done|]. simpl. lia.
Qed.

Section Rotation.
Context {D : Type} (pick : list (Stored D) → option (Stored D)) `{!Picker pick}.
Implicit Types (s : Store D) (u : UserId).

Lemma pick_nil : pick [] = None.
Proof.
  destruct (pick []) as [x|] eqn:Hx; [|done].
  apply pick_elem_of in Hx. by apply elem_of_nil in Hx.
Qed.

Lemma docs_reset s :
  docs (update_where everything set_reset s) = update set_reset <$> docs s.
Proof. reflexivity. Qed.

Lemma matching_everything s : matching everything s = docs s.
Proof.
  unfold matching. induction (docs s) as [|d l IH]; [done|].
  rewrite filter_cons. simpl. by rewrite IH.
Qed.

Lemma rotate_candidate u s :
  (∃ d, d ∈ docs s ∧ candidate u d = true) →
  ∃ chosen, chosen ∈ docs s ∧ candidate u chosen = true ∧
    rotate pick u s =
      (update_where (by_id (_id chosen)) (set_assign u) s, Some chosen).
Proof.
  intros (d & Hd & Hc). unfold rotate.
  destruct (pick_is_Some (matching (candidate u) s)) as [chosen Hp].
  { intros Hnil.
    by apply (filter_nil_not_elem_of (λ d, candidate u d = true) (docs s) d). }
  rewrite Hp. apply pick_elem_of in Hp. apply list_elem_of_filter in Hp as [??].
  by exists chosen.
Qed.

Lemma matching_none u s :
  (∀ d, d ∈ docs s → candidate u d = false) → matching (candidate u) s = [].
Proof.
  intros Hno. unfold matching. induction (docs s) as [|d l IH]; [done|].
  rewrite filter_cons. rewrite decide_False.
  - apply IH. intros e He. apply Hno. by right.
  - rewrite Hno; [done|by left].
Qed.

Lemma rotate_exhausted u s :
  docs s ≠ [] → (∀ d, d ∈ docs s → candidate u d = false) →
  ∃ chosen, chosen ∈ docs s ∧
    rotate pick u s =
      (update_where (by_id (_id chosen)) (set_assign u)
         (update_where everything set_reset s),
       Some (update set_reset chosen)).
Proof.
  intros Hne Hno. unfold rotate. rewrite matching_none by done. rewrite pick_nil.
  cbv zeta. rewrite docs_reset.
  destruct (pick_is_Some (update set_reset <$> docs s)) as [it Hp].
  { by destruct (docs s). }
  rewrite Hp. apply pick_elem_of, list_elem_of_fmap in Hp as (chosen & -> & Hin).
  by exists chosen.
Qed.

Lemma rotate_empty u s :
  docs s = [] → rotate pick u s = (update_where everything set_reset s, None).
Proof.
  intros Hnil. unfold rotate, matching. rewrite Hnil. rewrite filter_nil, pick_nil.
  cbv zeta. by rewrite docs_reset, Hnil, fmap_nil, pick_nil.
Qed.

(** The item, if any, is one of the collection; there is none exactly when
    the collection is empty. *)
Lemma rotate_None u s : (rotate pick u s).2 = None ↔ docs s = [].
Proof.
  split.
  - intros Hn. destruct (docs s) as [|d l] eqn:Hd; [done|]. exfalso.
    destruct (decide (Exists (λ e, candidate u e = true) (docs s))) as [Hc|Hc].
    + apply Exists_exists in Hc.
      destruct (rotate_candidate u s Hc) as (c & _ & _ & Heq). by rewrite Heq in Hn.
    + destruct (rotate_exhausted u s) as (c & _ & Heq).
      * by rewrite Hd.
      * intros e He. destruct (candidate u e) eqn:Hce; [|done].
        destruct Hc. apply Exists_exists. eauto.
      * by rewrite Heq in Hn.
  - intros Hnil. by rewrite rotate_empty.
Qed.

Lemma rotate_length u s : length (docs (rotate pick u s).1) = length (docs s).
Proof.
  unfold rotate. repeat case_match; simpl; by rewrite ?length_fmap.
Qed.
End Rotation.

Section Shapes.
Context {D : Type}.
Implicit Types (s : Store D) (u : UserId).

Lemma only_assigned_intro u s chosen :
  wf s → chosen ∈ docs s →
  only_assigned u (_id chosen) s (update_where (by_id (_id chosen)) (set_assign u) s).
Proof.
  intros [Hnd _] Hin. split_and!; [done| |done]. simpl. do 3 f_equal.
  apply ids_matching_by_id; [done|]. unfold ids. apply list_elem_of_fmap. eauto.
Qed.

Lemma reset_then_assigned_intro u s chosen :
  wf s → chosen ∈ docs s →
  reset_then_assigned u (_id chosen) s
    (update_where (by_id (_id chosen)) (set_assign u)
       (update_where everything set_reset s)).
Proof.
  intros [Hnd _] Hin. split_and!; [|simpl|done].
  - simpl. rewrite <- list_fmap_compose. by apply list_fmap_ext.
  - rewrite <- app_assoc. simpl. rewrite matching_everything. do 4 f_equal.
    apply ids_matching_by_id; cbn [docs update_where]; rewrite ids_update_where.
    + done.
    + unfold ids. apply list_elem_of_fmap. eauto.
Qed.
End Shapes.

(** ** The operations and the rotation *)

Ltac run1 :=
  unfold bind, ret, throw, modify, get,
    Mongo.countDocuments, Mongo.insertMany, Mongo.findOne, Mongo.find,
    Mongo.updateOne, Mongo.updateMany, Mongo.deleteMany,
    Sqlite.select_count, Sqlite.select_random, Sqlite.update_set,
    Sqlite.delete_from, Sqlite.insert_data_used, Sqlite.insert_created;
  cbn beta iota zeta.
Ltac run := repeat progress run1.

Lemma length_zero_iff_nil_docs {D} (s : Store D) : length (docs s) = 0 ↔ docs s = [].
Proof. apply length_zero_iff_nil. Qed.

Section V1Facts.
Context {P : Type} `{Bson P}.
Implicit Types (s : Store P) (u : UserId) (sd : list (BaseItem P)).

Lemma V1_getItem_rotate name u sd s :
  wf s → docs s ≠ [] →
  V1.getItemFromCollection name u sd s =
    ((rotate pick_first u s).1,
     respond_with payload_mongodb name (rotate pick_first u s).2).
Proof.
  intros Hwf Hne. unfold V1.getItemFromCollection, rotate, pick_first. run.
  rewrite decide_False by by rewrite length_zero_iff_nil_docs.
  destruct (head (matching (candidate u) s)) as [item|] eqn:Hitem; run.
  - by rewrite update_first_by_id.
  - rewrite matching_everything.
    destruct (head (docs (update_where everything set_reset s))) as [item|] eqn:Hr; run.
    + rewrite update_first_by_id by by apply wf_update_where. done.
    + done.
Qed.

Lemma docs_insert_all_ne sd s : sd ≠ [] → docs (insert_all sd s) ≠ [].
Proof.
  intros Hsd. cbn [docs insert_all]. destruct sd as [|b sd]; [done|].
  intros [_ Hnil]%app_eq_nil. done.
Qed.

Lemma stored_documents_ne sd : sd ≠ [] → stored_document <$> sd ≠ [].
Proof. by destruct sd. Qed.

Lemma docs_stored_ne sd s : sd ≠ [] → docs (insert_all (stored_document <$> sd) s) ≠ [].
Proof. intros Hsd. by apply docs_insert_all_ne, stored_documents_ne. Qed.

Lemma free_stored_document (b : BaseItem P) : free (stored_document b) ↔ free b.
Proof. done. Qed.

Lemma Forall_free_stored sd : Forall free sd → Forall free (stored_document <$> sd).
Proof. intros Hfree. apply Forall_fmap. by eapply Forall_impl. Qed.

(** On an empty collection the call is the call on the seeded collection. *)
Lemma V1_getItem_seed name u sd s :
  docs s = [] → sd ≠ [] →
  V1.getItemFromCollection name u sd s =
  V1.getItemFromCollection name u sd (insert_all (stored_document <$> sd) s).
Proof.
  intros Hnil Hsd. unfold V1.getItemFromCollection. run.
  rewrite decide_True by by rewrite length_zero_iff_nil_docs.
  rewrite decide_False
    by (rewrite length_zero_iff_nil_docs; by apply docs_stored_ne).
  destruct sd as [|b sd]; [done|]. reflexivity.
Qed.

Lemma V1_getItem_empty_batch name u s :
  docs s = [] →
  V1.getItemFromCollection name u [] s =
    (s, Thrown (MongoInvalidArgumentError
                  "Invalid BulkOperation, Batch cannot be empty")).
Proof.
  intros Hnil. unfold V1.getItemFromCollection. run.
  by rewrite decide_True by by rewrite length_zero_iff_nil_docs.
Qed.
End V1Facts.

Section V2Facts.
Context {P : Type} `{Bson P} `{Json P}.
Implicit Types (s : Store P) (t : Sqlite.Table) (u : UserId)
  (sd : list (BaseItem P)).

Lemma V2_getItem_mongodb_rotate name u sd r s :
  wf s → docs s ≠ [] →
  V2.getItemFromCollection_mongodb name u sd r s =
    ((rotate (pick_random r) u s).1,
     respond_with payload_mongodb name (rotate (pick_random r) u s).2).
Proof.
  intros Hwf Hne. unfold V2.getItemFromCollection_mongodb, rotate, pick_random. run.
  rewrite decide_False by by rewrite length_zero_iff_nil_docs.
  destruct (matching (candidate u) s) as [|d l] eqn:Hm.
  - cbn [length Nat.ltb Nat.leb]. run. rewrite lookup_nil. rewrite matching_everything.
    destruct (docs (update_where everything set_reset s)) as [|e k] eqn:Hd.
    + cbn [length Nat.ltb Nat.leb]. by rewrite lookup_nil.
    + cbn [Nat.ltb Nat.leb length].
      destruct ((e :: k) !! randomIndex r (S (length k))) as [item|] eqn:Hi; run.
      * rewrite update_first_by_id by by apply wf_update_where. done.
      * apply lookup_ge_None in Hi.
        pose proof (randomIndex_lt r (S (length k))). simpl in Hi. lia.
  - cbn [length Nat.ltb Nat.leb].
    destruct ((d :: l) !! randomIndex r (S (length l))) as [item|] eqn:Hi; run.
    + by rewrite update_first_by_id.
    + apply lookup_ge_None in Hi.
      pose proof (randomIndex_lt r (S (length l))). simpl in Hi. lia.
Qed.

Lemma V2_getItem_mongodb_seed name u sd r s :
  docs s = [] → sd ≠ [] →
  V2.getItemFromCollection_mongodb name u sd r s =
  V2.getItemFromCollection_mongodb name u sd r (insert_all (stored_document <$> sd) s).
Proof.
  intros Hnil Hsd. unfold V2.getItemFromCollection_mongodb. run.
  rewrite decide_True by by rewrite length_zero_iff_nil_docs.
  rewrite decide_False
    by (rewrite length_zero_iff_nil_docs; by apply docs_stored_ne).
  destruct sd as [|b sd]; [done|]. reflexivity.
Qed.

Lemma V2_getItem_mongodb_empty_batch name u r s :
  docs s = [] →
  V2.getItemFromCollection_mongodb name u [] r s =
    (s, Thrown (MongoInvalidArgumentError
                  "Invalid BulkOperation, Batch cannot be empty")).
Proof.
  intros Hnil. unfold V2.getItemFromCollection_mongodb. run.
  by rewrite decide_True by by rewrite length_zero_iff_nil_docs.
Qed.

(** The seeding loop of the SQLite branches. *)
Lemma for_each_seed sd now t :
  for_each sd (λ item,
      _ ← Sqlite.insert_data_used (JSON_stringify (data item)) false now; ret tt) t
  = (insert_each (seed_row now <$> sd) t, Returned tt).
Proof.
  revert t. induction sd as [|b sd IH]; intros t; [done|].
  cbn [for_each]. run. rewrite IH. done.
Qed.

Lemma V2_getItem_sqlite_rotate name u sd r now t :
  V2.getItemFromCollection_sqlite name u sd r now t =
    let t0 := seeded_table sd now t in
    ((rotate (pick_random r) u t0).1,
     respond_with payload_sqlite name (rotate (pick_random r) u t0).2).
Proof.
  unfold V2.getItemFromCollection_sqlite, seeded_table.
  set (loop := for_each sd _).
  assert (∀ t', loop t' = (insert_each (seed_row now <$> sd) t', Returned tt)) as Hloop
    by (intros; apply for_each_seed).
  clearbody loop. run.
  assert ((if decide (length (docs t) = 0) then loop else λ t', (t', Returned ())) t
          = (if decide (docs t = []) then insert_each (seed_row now <$> sd) t else t,
             Returned tt)) as ->.
  { destruct (decide (docs t = [])) as [Hn|Hn].
    - rewrite decide_True by by rewrite length_zero_iff_nil_docs. apply Hloop.
    - by rewrite decide_False by by rewrite length_zero_iff_nil_docs. }
  generalize (if decide (docs t = []) then insert_each (seed_row now <$> sd) t else t).
  clear t loop Hloop. intros t. unfold rotate, pick_random, respond_with, payload_sqlite.
  destruct (matching (candidate u) t !! _) as [item|]; run.
  - simpl. by destruct (JSON_parse _).
  - rewrite matching_everything.
    destruct (docs (update_where everything set_reset t) !! _) as [item|]; run.
    + simpl. by destruct (JSON_parse _).
    + done.
Qed.
End V2Facts.

(** ** Counting the items of a collection *)

Section Counting.
Context {D : Type}.
Implicit Types (l : list (Stored D)) (f : Stored D → Stored D).

Lemma candidate_false u (d : Stored D) :
  candidate u d = false ↔ used d = true ∨ assignedTo d = Some u.
Proof.
  unfold candidate. rewrite andb_false_iff, !negb_false_iff, bool_decide_eq_true.
  done.
Qed.

Lemma candidate_true u (d : Stored D) :
  candidate u d = true ↔ used d = false ∧ assignedTo d ≠ Some u.
Proof.
  unfold candidate. rewrite andb_true_iff, !negb_true_iff, bool_decide_eq_false.
  done.
Qed.

Lemma filter_fmap_none (Q : Stored D → Prop) `{∀ d, Decision (Q d)} f l :
  (∀ d, d ∈ l → ¬ Q (f d)) → filter Q (f <$> l) = [].
Proof.
  induction l as [|d l IH]; [done|]. intros Hno. rewrite fmap_cons, filter_cons.
  rewrite decide_False by (apply Hno; left). apply IH. intros e He. apply Hno. by right.
Qed.

Lemma filter_fmap_all (Q : Stored D → Prop) `{∀ d, Decision (Q d)} f l :
  (∀ d, d ∈ l → Q (f d)) → filter Q (f <$> l) = f <$> l.
Proof.
  induction l as [|d l IH]; [done|]. intros Hall. rewrite fmap_cons, filter_cons.
  rewrite decide_True by (apply Hall; left). f_equal. apply IH.
  intros e He. apply Hall. by right.
Qed.

(** Exactly one item has a given key of the collection. *)
Lemma count_key (Q : Stored D → Prop) `{∀ d, Decision (Q d)} f l i :
  NoDup (ids l) → i ∈ ids l →
  (∀ d, Q (f d) ↔ _id d = i) →
  length (filter Q (f <$> l)) = 1.
Proof.
  intros Hnd Hi HQ. induction l as [|d l IH]; [by apply elem_of_nil in Hi|].
  unfold ids in *. rewrite fmap_cons in Hnd, Hi. apply NoDup_cons in Hnd as [Hd Hnd].
  rewrite fmap_cons, filter_cons. destruct (decide (Q (f d))) as [Hq|Hq].
  - apply HQ in Hq. subst i. rewrite filter_fmap_none; [done|].
    intros e He Hqe. apply HQ in Hqe. apply Hd. apply list_elem_of_fmap. eauto.
  - apply IH; [done|]. apply elem_of_cons in Hi as [->|Hi]; [|done].
    destruct Hq. by apply HQ.
Qed.

Lemma count_others (Q : Stored D → Prop) `{∀ d, Decision (Q d)} f l i :
  NoDup (ids l) → i ∈ ids l →
  (∀ d, Q (f d) ↔ _id d ≠ i) →
  length (filter Q (f <$> l)) = length l - 1.
Proof.
  intros Hnd Hi HQ. induction l as [|d l IH]; [by apply elem_of_nil in Hi|].
  unfold ids in *. rewrite fmap_cons in Hnd, Hi. apply NoDup_cons in Hnd as [Hd Hnd].
  rewrite fmap_cons, filter_cons. destruct (decide (Q (f d))) as [Hq|Hq].
  - apply HQ in Hq. apply elem_of_cons in Hi as [->|Hi]; [done|].
    cbn [length]. rewrite IH by done.
    assert (0 < length l); [|lia].
    destruct l; [by apply elem_of_nil in Hi|simpl; lia].
  - assert (_id d = i) as <-.
    { destruct (decide (_id d = i)); [done|]. destruct Hq. by apply HQ. }
    rewrite filter_fmap_all.
    + rewrite length_fmap. simpl. lia.
    + intros e He. apply HQ. intros Heq. apply Hd.
      rewrite <- Heq. apply list_elem_of_fmap. eauto.
Qed.

(** One item, which [Q] does not hold of, is replaced by one [Q] holds of. *)
Lemma count_one_more (Q : Stored D → Prop) `{∀ d, Decision (Q d)} f l chosen :
  NoDup (ids l) → chosen ∈ l →
  (∀ d, d ∈ l → _id d ≠ _id chosen → f d = d) →
  ¬ Q chosen → Q (f chosen) →
  length (filter Q (f <$> l)) = S (length (filter Q l)).
Proof.
  intros Hnd Hin Hothers Hno Hyes. induction l as [|d l IH]; [by apply elem_of_nil in Hin|].
  unfold ids in *. rewrite fmap_cons in Hnd. apply NoDup_cons in Hnd as [Hd Hnd].
  rewrite fmap_cons, !filter_cons.
  assert (∀ e, e ∈ l → _id e ≠ _id d) as Hfresh.
  { intros e He Heq. apply Hd. rewrite <- Heq. apply list_elem_of_fmap. eauto. }
  apply elem_of_cons in Hin as [->|Hin].
  - rewrite decide_True, decide_False by done. cbn [length].
    assert (f <$> l = l) as ->; [|done].
    rewrite <- (list_fmap_id l) at 2. apply list_fmap_ext.
    intros k e Hk. apply Hothers; [right; by eapply list_elem_of_lookup_2|].
    apply Hfresh. by eapply list_elem_of_lookup_2.
  - assert (_id d ≠ _id chosen) as Hne by (intros Heq; by apply (Hfresh chosen Hin)).
    rewrite (Hothers d) by (done || left).
    assert (length (filter Q (f <$> l)) = S (length (filter Q l))) as Hl.
    { apply IH; [done..|]. intros e He. apply Hothers. by right. }
    destruct (decide (Q d)); cbn [length]; by rewrite Hl.
Qed.

(** One item, which [Q] holds of, is replaced by one [Q] does not hold of. *)
Lemma count_one_less (Q : Stored D → Prop) `{∀ d, Decision (Q d)} f l chosen :
  NoDup (ids l) → chosen ∈ l →
  (∀ d, d ∈ l → _id d ≠ _id chosen → f d = d) →
  Q chosen → ¬ Q (f chosen) →
  length (filter Q l) = S (length (filter Q (f <$> l))).
Proof.
  intros Hnd Hin Hothers Hyes Hno. induction l as [|d l IH]; [by apply elem_of_nil in Hin|].
  unfold ids in *. rewrite fmap_cons in Hnd. apply NoDup_cons in Hnd as [Hd Hnd].
  rewrite fmap_cons, !filter_cons.
  assert (∀ e, e ∈ l → _id e ≠ _id d) as Hfresh.
  { intros e He Heq. apply Hd. rewrite <- Heq. apply list_elem_of_fmap. eauto. }
  apply elem_of_cons in Hin as [->|Hin].
  - rewrite decide_True, decide_False by done. cbn [length].
    assert (f <$> l = l) as ->; [|done].
    rewrite <- (list_fmap_id l) at 2. apply list_fmap_ext.
    intros k e Hk. apply Hothers; [right; by eapply list_elem_of_lookup_2|].
    apply Hfresh. by eapply list_elem_of_lookup_2.
  - assert (_id d ≠ _id chosen) as Hne by (intros Heq; by apply (Hfresh chosen Hin)).
    rewrite (Hothers d) by (done || left).
    assert (length (filter Q l) = S (length (filter Q (f <$> l)))) as Hl.
    { apply IH; [done..|]. intros e He. apply Hothers. by right. }
    destruct (decide (Q d)); cbn [length]; by rewrite Hl.
Qed.

Lemma reset_then_assigned_counts u (s s' : Store D) chosen :
  wf s → chosen ∈ docs s → reset_then_assigned u (_id chosen) s s' →
  length (filter (λ d : Stored D, held_by u d) (docs s')) = 1 ∧
  length (filter (λ d : Stored D, free d) (docs s')) = length (docs s) - 1.
Proof.
  intros [Hnd _] Hin (-> & _ & _).
  assert (_id chosen ∈ ids (docs s)) as Hi
    by (unfold ids; apply list_elem_of_fmap; eauto).
  split.
  - apply count_key with (i := _id chosen); [done..|].
    intros d. unfold held_by, by_id.
    destruct (decide (_id d = _id chosen)) as [Hd|Hd];
      [rewrite bool_decide_true by done|rewrite bool_decide_false by done];
      simpl; intuition congruence.
  - apply count_others with (i := _id chosen); [done..|].
    intros d. unfold free, by_id.
    destruct (decide (_id d = _id chosen)) as [Hd|Hd];
      [rewrite bool_decide_true by done|rewrite bool_decide_false by done];
      simpl; intuition congruence.
Qed.
End Counting.

(** ** What the rotation does, for any policy and any backend *)

Section RotationSpec.
Context {D P : Type} (pick : list (Stored D) → option (Stored D)) `{!Picker pick}.
Context (payload : Stored D → option P).
Context (payload_update : ∀ u d, payload (update u d) = payload d).
Implicit Types (s : Store D) (u : UserId).

Lemma rotate_resets_and_assigns_one name u s :
  wf s → exhausted u s → Forall (λ d, is_Some (payload d)) (docs s) →
  resets_and_assigns_one payload u s
    ((rotate pick u s).1, respond_with payload name (rotate pick u s).2).
Proof.
  intros Hwf [Hne Hall] Hpay.
  destruct (rotate_exhausted pick u s Hne) as (chosen & Hin & ->).
  { intros d Hd. apply candidate_false. rewrite Forall_forall in Hall. auto. }
  rewrite Forall_forall in Hpay. destruct (Hpay chosen Hin) as [p Hp].
  exists chosen, p. cbn [fst snd respond_with]. rewrite payload_update, Hp.
  pose proof (reset_then_assigned_intro u s chosen Hwf Hin) as Hra.
  split_and!; [done..|eapply reset_then_assigned_counts|eapply reset_then_assigned_counts];
    done.
Qed.

Lemma rotate_assigns_one_candidate name u s :
  wf s → has_candidate u s → Forall (λ d, is_Some (payload d)) (docs s) →
  assigns_one_candidate payload u s
    ((rotate pick u s).1, respond_with payload name (rotate pick u s).2).
Proof.
  intros Hwf Hc Hpay. apply Exists_exists in Hc.
  destruct (rotate_candidate pick u s) as (chosen & Hin & Hcand & ->).
  { destruct Hc as (d & Hd & Hcd). exists d. by rewrite candidate_true. }
  rewrite Forall_forall in Hpay. destruct (Hpay chosen Hin) as [p Hp].
  apply candidate_true in Hcand as [Hu Ha].
  exists chosen, p. cbn [fst snd respond_with]. rewrite Hp.
  assert (docs (update_where (by_id (_id chosen)) (set_assign u) s)
          = (λ d, if decide (_id d = _id chosen) then handed_to u d else d) <$> docs s)
    as Hdocs.
  { cbn [docs update_where]. apply list_fmap_ext. intros k d _. unfold by_id.
    destruct (decide (_id d = _id chosen)) as [Hid|Hid];
      [rewrite bool_decide_true by done|rewrite bool_decide_false by done]; [|done].
    by destruct d as [i []]. }
  assert (handed_to u chosen
          ∈ docs (update_where (by_id (_id chosen)) (set_assign u) s)) as Hhanded.
  { rewrite Hdocs. apply list_elem_of_fmap. exists chosen. by rewrite decide_True. }
  split_and!; [done..|by apply only_assigned_intro| |done|done| | |].
  - intros d Hd Hne. cbn [docs update_where]. apply list_elem_of_fmap.
    exists d. split; [|done]. by rewrite (proj2 (by_id_false _ _)).
  - by exists (handed_to u chosen).
  - rewrite Hdocs. apply (count_one_more _ _ _ chosen); [by destruct Hwf|done| | |].
    + intros d _ Hd. by rewrite decide_False.
    + unfold held_by. rewrite Hu. by intros [? _].
    + by rewrite decide_True.
  - rewrite Hdocs. apply (count_one_less _ _ _ chosen); [by destruct Hwf|done| |done|].
    + intros d _ Hd. by rewrite decide_False.
    + by rewrite decide_True.
Qed.
End RotationSpec.

Lemma Forall_payload_mongodb {P} (l : list (Stored P)) :
  Forall (λ d, is_Some (payload_mongodb d)) l.
Proof. apply Forall_forall. intros d _. by eexists. Qed.

Lemma exhausted_ne {D} u (s : Store D) : exhausted u s → docs s ≠ [].
Proof. by intros [? _]. Qed.

Lemma has_candidate_ne {D} u (s : Store D) : has_candidate u s → docs s ≠ [].
Proof. unfold has_candidate. intros Hc Hnil. rewrite Hnil in Hc. by apply Exists_nil in Hc. Qed.

Lemma seeded_table_ne {P} `{Json P} (sd : list (BaseItem P)) now t :
  docs t ≠ [] → seeded_table sd now t = t.
Proof. intros Hne. unfold seeded_table. by rewrite decide_False. Qed.

(** ** C1 *)

(** C1. When the collection is not empty and no item is a candidate for the
    user (every item is used or assigned to the user), a call of
    [getItemFromCollection] first resets every item ([used = false],
    [assignedTo] cleared) and then assigns exactly one item to the user and
    returns its payload: afterwards one item is used and assigned to the
    user and all the others are unused and unassigned (for three items: one
    and two).  This holds for the first generation, for the MongoDB branch
    and for the SQLite branch of the second one. *)
Theorem C1_exhausted_pool_is_reset_then_one_item_assigned
    {P : Type} `{Bson P} `{Json P} (collectionName : string) (userId : UserId)
    (sampleData : list (BaseItem P)) (r : Random) (now : Timestamp) :
  (∀ s : Store P, wf s → exhausted userId s →
     resets_and_assigns_one payload_mongodb userId s
       (V1.getItemFromCollection collectionName userId sampleData s))
  ∧ (∀ s : Store P, wf s → exhausted userId s →
     resets_and_assigns_one payload_mongodb userId s
       (V2.getItemFromCollection_mongodb collectionName userId sampleData r s))
  ∧ (∀ t : Sqlite.Table, wf t → readable t → exhausted userId t →
     resets_and_assigns_one payload_sqlite userId t
       (V2.getItemFromCollection_sqlite collectionName userId sampleData r now t)).
Proof.
  split_and!.
  - intros s Hwf Hex. rewrite V1_getItem_rotate by eauto using exhausted_ne.
    apply rotate_resets_and_assigns_one; auto using Forall_payload_mongodb with typeclass_instances.
  - intros s Hwf Hex. rewrite V2_getItem_mongodb_rotate by eauto using exhausted_ne.
    apply rotate_resets_and_assigns_one; auto using Forall_payload_mongodb with typeclass_instances.
  - intros t Hwf Hread Hex. rewrite V2_getItem_sqlite_rotate. cbv zeta.
    rewrite seeded_table_ne by eauto using exhausted_ne.
    apply rotate_resets_and_assigns_one; auto with typeclass_instances.
Qed.

(** The scenario of the specification: three items, all used and assigned
    to alice; alice asks for an item; two items end unused and unassigned
    and one used and assigned to alice. *)
Lemma C1_three_items_held_by_alice :
  let after_v1 := V1.getItemFromCollection "events" "alice" eventSampleData
                    three_held_by_alice in
  let after_mongodb := V2.getItemFromCollection_mongodb "events" "alice" eventSampleData
                         (mkRandom 2 1) three_held_by_alice in
  let after_sqlite := V2.getItemFromCollection_sqlite (P:=MessageData) "events" "alice"
                        eventSampleData (mkRandom 2 1) 0 three_rows_held_by_alice in
  (length (filter (λ d : Stored _, held_by "alice" d) (docs after_v1.1)) = 1
   ∧ length (filter (λ d : Stored _, free d) (docs after_v1.1)) = 2)
  ∧ (length (filter (λ d : Stored _, held_by "alice" d) (docs after_mongodb.1)) = 1
     ∧ length (filter (λ d : Stored _, free d) (docs after_mongodb.1)) = 2)
  ∧ (length (filter (λ d : Stored _, held_by "alice" d) (docs after_sqlite.1)) = 1
     ∧ length (filter (λ d : Stored _, free d) (docs after_sqlite.1)) = 2).
Proof.
  intros after_v1 after_mongodb after_sqlite.
  destruct (C1_exhausted_pool_is_reset_then_one_item_assigned (P:=MessageData)
              "events" "alice" eventSampleData (mkRandom 2 1) 0) as (H1 & H2 & H3).
  assert (wf three_held_by_alice) as Hwf by compute_done.
  assert (exhausted "alice" three_held_by_alice) as Hex
    by (split; [done|repeat constructor; by left]).
  assert (wf three_rows_held_by_alice) as Hwf' by compute_done.
  assert (exhausted "alice" three_rows_held_by_alice) as Hex'
    by (split; [done|repeat constructor; by left]).
  assert (readable (P:=MessageData) three_rows_held_by_alice) as Hread
    by (unfold readable; compute_done).
  split; [|split].
  - destruct (H1 _ Hwf Hex) as (c & p & _ & _ & _ & _ & Hheld & Hfree).
    split; [exact Hheld|exact Hfree].
  - destruct (H2 _ Hwf Hex) as (c & p & _ & _ & _ & _ & Hheld & Hfree).
    split; [exact Hheld|exact Hfree].
  - destruct (H3 _ Hwf' Hread Hex') as (c & p & _ & _ & _ & _ & Hheld & Hfree).
    split; [exact Hheld|exact Hfree].
Defined.

(** ** C3 *)

(** C3. When the collection has a candidate for the user (an item with
    [used = false] whose [assignedTo] is absent or another user), a call of
    [getItemFromCollection] returns [success = true] with the payload of one
    such candidate and changes that item only: afterwards the collection
    holds, at the place of the candidate, the item with its key, payload,
    creator and date, with [used = true] and [assignedTo] the user; every
    other item stays as it is, at its place; the user holds one item more
    and one item less is unused.  This holds for the first generation, for
    the MongoDB branch and for the SQLite branch of the second one. *)
Theorem C3_candidate_is_returned_and_only_it_is_assigned
    {P : Type} `{Bson P} `{Json P} (collectionName : string) (userId : UserId)
    (sampleData : list (BaseItem P)) (r : Random) (now : Timestamp) :
  (∀ s : Store P, wf s → has_candidate userId s →
     assigns_one_candidate payload_mongodb userId s
       (V1.getItemFromCollection collectionName userId sampleData s))
  ∧ (∀ s : Store P, wf s → has_candidate userId s →
     assigns_one_candidate payload_mongodb userId s
       (V2.getItemFromCollection_mongodb collectionName userId sampleData r s))
  ∧ (∀ t : Sqlite.Table, wf t → readable t → has_candidate userId t →
     assigns_one_candidate payload_sqlite userId t
       (V2.getItemFromCollection_sqlite collectionName userId sampleData r now t)).
Proof.
  split_and!.
  - intros s Hwf Hc. rewrite V1_getItem_rotate by eauto using has_candidate_ne.
    apply rotate_assigns_one_candidate;
      auto using Forall_payload_mongodb with typeclass_instances.
  - intros s Hwf Hc. rewrite V2_getItem_mongodb_rotate by eauto using has_candidate_ne.
    apply rotate_assigns_one_candidate;
      auto using Forall_payload_mongodb with typeclass_instances.
  - intros t Hwf Hread Hc. rewrite V2_getItem_sqlite_rotate. cbv zeta.
    rewrite seeded_table_ne by eauto using has_candidate_ne.
    apply rotate_assigns_one_candidate; auto with typeclass_instances.
Qed.

(** On the freshly seeded events, for bob. *)
Lemma C3_fresh_events_for_bob :
  assigns_one_candidate payload_mongodb "bob" three_fresh
    (V1.getItemFromCollection "events" "bob" eventSampleData three_fresh)
  ∧ assigns_one_candidate payload_mongodb "bob" three_fresh
      (V2.getItemFromCollection_mongodb "events" "bob" eventSampleData
         (mkRandom 1 1) three_fresh)
  ∧ assigns_one_candidate (payload_sqlite (P:=MessageData)) "bob" three_fresh_rows
      (V2.getItemFromCollection_sqlite "events" "bob" eventSampleData
         (mkRandom 1 1) 5 three_fresh_rows).
Proof.
  destruct (C3_candidate_is_returned_and_only_it_is_assigned (P:=MessageData)
              "events" "bob" eventSampleData (mkRandom 1 1) 5) as (H1 & H2 & H3).
  assert (wf three_fresh) as Hwf by compute_done.
  assert (has_candidate "bob" three_fresh) as Hc by (by left).
  assert (wf three_fresh_rows) as Hwf' by compute_done.
  assert (has_candidate "bob" three_fresh_rows) as Hc' by (by left).
  assert (readable (P:=MessageData) three_fresh_rows) as Hread
    by (unfold readable; compute_done).
  split; [|split].
  - exact (H1 _ Hwf Hc).
  - exact (H2 _ Hwf Hc).
  - exact (H3 _ Hwf' Hread Hc').
Defined.

(** ** Seeding *)

Section Seeding.
Context {D : Type}.
Implicit Types (s : Store D) (batch : list (BaseItem D)).

Lemma number_app n batch batch' :
  number n (batch ++ batch') = number n batch ++ number (n + length batch) batch'.
Proof.
  revert n. induction batch as [|b batch IH]; intros n.
  - simpl. by rewrite Nat.add_0_r.
  - cbn [number app length]. rewrite IH. do 3 f_equal. lia.
Qed.

Lemma docs_insert_each batch s :
  docs (insert_each batch s) = docs s ++ number (nextId s) batch
  ∧ nextId (insert_each batch s) = nextId s + length batch.
Proof.
  unfold insert_each. revert s. induction batch as [|b batch IH]; intros s.
  - simpl. by rewrite app_nil_r, Nat.add_0_r.
  - cbn [foldl]. destruct (IH (insert_all [b] s)) as [-> ->].
    cbn [insert_all docs nextId number length]. rewrite <- app_assoc.
    split; [|lia]. do 2 f_equal. cbn [app]. do 2 f_equal. lia.
Qed.

Lemma wf_insert_each batch s : wf s → wf (insert_each batch s).
Proof.
  unfold insert_each. revert s. induction batch as [|b batch IH]; intros s Hwf; [done|].
  cbn [foldl]. by apply IH, wf_insert_all.
Qed.

Lemma wf_nil s : docs s = [] → wf s.
Proof. intros Hnil. unfold wf. rewrite Hnil. split; constructor. Qed.

Lemma docs_insert_all_nil batch s :
  docs s = [] → docs (insert_all batch s) = number (nextId s) batch.
Proof. intros Hnil. cbn [insert_all docs]. by rewrite Hnil. Qed.

Lemma docs_insert_each_nil batch s :
  docs s = [] → docs (insert_each batch s) = number (nextId s) batch.
Proof. intros Hnil. destruct (docs_insert_each batch s) as [-> _]. by rewrite Hnil. Qed.

Lemma Forall_number (Q : BaseItem D → Prop) n batch :
  Forall Q batch → Forall (λ d : Stored D, Q d) (number n batch).
Proof.
  revert n. induction batch as [|b batch IH]; intros n Hall; [constructor|].
  apply Forall_cons in Hall as [Hb Hall]. cbn [number]. constructor; [done|by apply IH].
Qed.
End Seeding.

Lemma rotate_call_length {D P} (pick : list (Stored D) → option (Stored D))
    (payload : Stored D → option P) name u (s : Store D)
    (call : M (Store D) (Response P)) :
  call s = ((rotate pick u s).1, respond_with payload name (rotate pick u s).2) →
  length (docs (call s).1) = length (docs s).
Proof. intros ->. apply rotate_length. Qed.

(** ** C2 *)

(** C2. When the collection is empty at the start of a call of
    [getItemFromCollection], the sample data are inserted before anything
    is selected: the call is the call on the seeded collection, which holds
    the samples in their order under fresh keys (in MongoDB the documents
    that the driver writes for them, with the flags they are given, so
    unused and unassigned when the samples are; in SQLite rows that are
    unused and unassigned), and the collection holds as many items as there
    are samples.  With no sample at all the MongoDB driver rejects the empty
    batch and the collection stays empty. *)
Theorem C2_empty_collection_is_seeded_before_selection
    {P : Type} `{Bson P} `{Json P} (collectionName : string) (userId : UserId)
    (sampleData : list (BaseItem P)) (r : Random) (now : Timestamp) :
  (∀ s : Store P, docs s = [] →
     let call := V1.getItemFromCollection collectionName userId sampleData in
     let documents := stored_document <$> sampleData in
     length (docs (call s).1) = length sampleData
     ∧ (sampleData ≠ [] → seeds documents s (insert_all documents s) call)
     ∧ (Forall free sampleData →
        Forall (λ d : Stored P, free d) (docs (insert_all documents s))))
  ∧ (∀ s : Store P, docs s = [] →
     let call := V2.getItemFromCollection_mongodb collectionName userId sampleData r in
     let documents := stored_document <$> sampleData in
     length (docs (call s).1) = length sampleData
     ∧ (sampleData ≠ [] → seeds documents s (insert_all documents s) call)
     ∧ (Forall free sampleData →
        Forall (λ d : Stored P, free d) (docs (insert_all documents s))))
  ∧ (∀ t : Sqlite.Table, docs t = [] →
     let call := V2.getItemFromCollection_sqlite collectionName userId sampleData r now in
     let rows := seed_row now <$> sampleData in
     length (docs (call t).1) = length sampleData
     ∧ seeds rows t (insert_each rows t) call
     ∧ Forall (λ d : Stored string, free d) (docs (insert_each rows t))).
Proof.
  split_and!.
  - intros s Hnil call documents. split_and!.
    + destruct sampleData as [|b sd] eqn:Hsd.
      * unfold call. rewrite V1_getItem_empty_batch by done. simpl. by rewrite Hnil.
      * unfold call. rewrite V1_getItem_seed by done.
        erewrite rotate_call_length.
        -- rewrite docs_insert_all_nil by done. by rewrite length_number, length_fmap.
        -- apply V1_getItem_rotate; [by apply wf_insert_all, wf_nil|].
           by apply docs_stored_ne.
    + intros Hsd. split_and!.
      * rewrite docs_insert_all_nil by done. apply item_number.
      * rewrite docs_insert_all_nil by done. apply ids_number.
      * by apply V1_getItem_seed.
    + intros Hfree. rewrite docs_insert_all_nil by done.
      by apply Forall_number, Forall_free_stored.
  - intros s Hnil call documents. split_and!.
    + destruct sampleData as [|b sd] eqn:Hsd.
      * unfold call. rewrite V2_getItem_mongodb_empty_batch by done. simpl. by rewrite Hnil.
      * unfold call. rewrite V2_getItem_mongodb_seed by done.
        erewrite rotate_call_length.
        -- rewrite docs_insert_all_nil by done. by rewrite length_number, length_fmap.
        -- apply V2_getItem_mongodb_rotate; [by apply wf_insert_all, wf_nil|].
           by apply docs_stored_ne.
    + intros Hsd. split_and!.
      * rewrite docs_insert_all_nil by done. apply item_number.
      * rewrite docs_insert_all_nil by done. apply ids_number.
      * by apply V2_getItem_mongodb_seed.
    + intros Hfree. rewrite docs_insert_all_nil by done.
      by apply Forall_number, Forall_free_stored.
  - intros t Hnil call rows.
    assert (seeded_table sampleData now t = insert_each rows t) as Hseeded
      by (unfold seeded_table; by rewrite decide_True).
    assert (seeded_table sampleData now (insert_each rows t) = insert_each rows t)
      as Hagain.
    { unfold seeded_table. destruct (decide (docs (insert_each rows t) = [])) as [Hn|]; [|done].
      rewrite docs_insert_each_nil in Hn by done.
      apply (f_equal length) in Hn. rewrite length_number in Hn. unfold rows in *.
      rewrite length_fmap in Hn. destruct sampleData; [done|simpl in Hn; lia]. }
    split_and!.
    + unfold call. rewrite V2_getItem_sqlite_rotate. cbv zeta. cbn [fst].
      rewrite rotate_length, Hseeded, docs_insert_each_nil by done.
      unfold rows. by rewrite length_number, length_fmap.
    + split_and!.
      * rewrite docs_insert_each_nil by done. apply item_number.
      * rewrite docs_insert_each_nil by done. apply ids_number.
      * unfold call. rewrite !V2_getItem_sqlite_rotate. cbv zeta.
        by rewrite Hseeded, Hagain.
    + rewrite docs_insert_each_nil by done. apply Forall_number.
      unfold rows. apply Forall_fmap, Forall_forall. by intros b _.
Qed.

(** On the empty [events] collection, with the sample events. *)
Lemma C2_empty_events_are_seeded :
  length (docs (V1.getItemFromCollection "events" "alice" eventSampleData
                  empty_store).1) = 3
  ∧ length (docs (V2.getItemFromCollection_mongodb "events" "alice" eventSampleData
                    (mkRandom 0 0) empty_store).1) = 3
  ∧ length (docs (V2.getItemFromCollection_sqlite "events" "alice" eventSampleData
                    (mkRandom 0 0) 0 empty_store).1) = 3.
Proof.
  destruct (C2_empty_collection_is_seeded_before_selection (P:=MessageData)
              "events" "alice" eventSampleData (mkRandom 0 0) 0) as (H1 & H2 & H3).
  split; [|split].
  - exact (proj1 (H1 empty_store eq_refl)).
  - exact (proj1 (H2 empty_store eq_refl)).
  - exact (proj1 (H3 empty_store eq_refl)).
Defined.

(** ** C4 *)

Section NoItems.
Context {D P : Type} (pick : list (Stored D) → option (Stored D)) `{!Picker pick}.
Context (payload : Stored D → option P).
Implicit Types (s : Store D) (u : UserId).

(** The rotation answers "no items" exactly when the collection is empty,
    and it answers, without an exception, whenever it is. *)
Lemma rotate_no_items name u s :
  let result := ((rotate pick u s).1, respond_with payload name (rotate pick u s).2) in
  (∀ resp, result.2 = Returned resp →
     (success resp = false ↔ docs result.1 = [])
     ∧ (success resp = false → resp = no_items_available name))
  ∧ (docs result.1 = [] → result.2 = Returned (no_items_available name))
  ∧ (∀ e, result.2 = Thrown e → e = SyntaxError).
Proof.
  cbn [fst snd].
  assert (docs (rotate pick u s).1 = [] ↔ (rotate pick u s).2 = None) as Hiff.
  { rewrite rotate_None by done. rewrite <- !length_zero_iff_nil.
    by rewrite rotate_length. }
  destruct (rotate pick u s).2 as [it|] eqn:Hit; cbn [respond_with].
  - assert (docs (rotate pick u s).1 ≠ []) as Hne by (rewrite Hiff; done).
    split_and!.
    + destruct (payload it); intros resp [= <-]. simpl. split; [split|]; done.
    + done.
    + destruct (payload it); intros e [= <-]. done.
  - assert (docs (rotate pick u s).1 = []) as Hnil by by apply Hiff.
    split_and!; [|done..]. intros resp [= <-]. done.
Qed.
End NoItems.

Section NoItemsMongodb.
Context {P : Type} `{Bson P} `{Json P}.
Implicit Types (s : Store P) (u : UserId) (sd : list (BaseItem P)).

(** A call on MongoDB that returns has found an item; it throws exactly on
    an empty collection without sample data. *)
Lemma getItem_mongodb_outcome (call : list (BaseItem P) → M (Store P) (Response P))
    (pick : list (Stored P) → option (Stored P)) `{!Picker pick} name u :
  (∀ sd s, wf s → docs s ≠ [] →
     call sd s = ((rotate pick u s).1,
                  respond_with payload_mongodb name (rotate pick u s).2)) →
  (∀ sd s, docs s = [] → sd ≠ [] →
     call sd s = call sd (insert_all (stored_document <$> sd) s)) →
  (∀ s, docs s = [] →
     call [] s = (s, Thrown (MongoInvalidArgumentError
                               "Invalid BulkOperation, Batch cannot be empty"))) →
  ∀ sd s, wf s →
    (∀ resp, (call sd s).2 = Returned resp →
       success resp = true ∧ docs (call sd s).1 ≠ [])
    ∧ (∀ e, (call sd s).2 = Thrown e → docs s = [] ∧ sd = [] ∧ (call sd s).1 = s).
Proof.
  intros Hrot Hseed Hempty sd s Hwf.
  assert (∀ s', wf s' → docs s' ≠ [] →
    (∀ resp, (call sd s').2 = Returned resp →
       success resp = true ∧ docs (call sd s').1 ≠ [])
    ∧ (∀ e, (call sd s').2 = Thrown e → False)) as Hfull.
  { intros s' Hwf' Hne. rewrite Hrot by done. cbn [fst snd].
    destruct (rotate pick u s').2 as [it|] eqn:Hit.
    - cbn. split; [|done]. intros resp [= <-]. split; [done|].
      rewrite <- length_zero_iff_nil, rotate_length, length_zero_iff_nil. done.
    - apply rotate_None in Hit; done. }
  destruct (decide (docs s = [])) as [Hnil|Hne].
  - destruct sd as [|b sd].
    + rewrite Hempty by done. cbn. split; [done|]. done.
    + rewrite Hseed by done.
      destruct (Hfull (insert_all (stored_document <$> b :: sd) s)) as [H1 H2].
      * by apply wf_insert_all.
      * by apply docs_stored_ne.
      * split; [done|]. intros e He. by apply H2 in He.
  - destruct (Hfull s Hwf Hne) as [H1 H2]. split; [done|].
    intros e He. by apply H2 in He.
Qed.

Lemma V1_getItem_outcome name u sd s :
  wf s →
  let result := V1.getItemFromCollection name u sd s in
  (∀ resp, result.2 = Returned resp → success resp = true ∧ docs result.1 ≠ [])
  ∧ (∀ e, result.2 = Thrown e → docs s = [] ∧ sd = [] ∧ result.1 = s).
Proof.
  intros Hwf.
  apply (getItem_mongodb_outcome (V1.getItemFromCollection name u) pick_first name u);
    auto using V1_getItem_rotate, V1_getItem_seed, V1_getItem_empty_batch.
Qed.

Lemma V2_getItem_mongodb_outcome name u sd r s :
  wf s →
  let result := V2.getItemFromCollection_mongodb name u sd r s in
  (∀ resp, result.2 = Returned resp → success resp = true ∧ docs result.1 ≠ [])
  ∧ (∀ e, result.2 = Thrown e → docs s = [] ∧ sd = [] ∧ result.1 = s).
Proof.
  intros Hwf.
  apply (getItem_mongodb_outcome
           (λ sd, V2.getItemFromCollection_mongodb name u sd r) (pick_random r) name u);
    auto using V2_getItem_mongodb_rotate, V2_getItem_mongodb_seed,
      V2_getItem_mongodb_empty_batch.
Qed.

(** The SQLite branch answers "no items", naming the collection, exactly
    when the table is empty after the seeding and the reset, and it does
    not throw then. *)
Lemma V2_getItem_sqlite_no_items name u sd r now (t : Sqlite.Table) :
  let result := V2.getItemFromCollection_sqlite name u sd r now t in
  (∀ resp, result.2 = Returned resp →
     (success resp = false ↔ docs result.1 = [])
     ∧ (success resp = false → resp = no_items_available name))
  ∧ (docs result.1 = [] → result.2 = Returned (no_items_available name))
  ∧ (∀ e, result.2 = Thrown e → e = SyntaxError).
Proof.
  cbv zeta. rewrite V2_getItem_sqlite_rotate. cbv zeta.
  apply rotate_no_items. apply _.
Qed.
End NoItemsMongodb.

(** C4. [getItemFromCollection] is to answer [success = false], with an
    error that names the collection and without an exception, exactly when
    the collection is empty after the seeding and the reset.  The SQLite
    branch does ([V2_getItem_sqlite_no_items]).  On MongoDB a collection is
    empty then only if it was empty and no sample data were given, and for
    this input the driver rejects the empty batch of the seeding: the call
    throws, in both generations, where the SQLite branch answers. *)
Theorem C4_empty_pool_without_samples
    {P : Type} `{Bson P} `{Json P} (collectionName : string) (userId : UserId)
    (r : Random) (now : Timestamp) :
  let rejected := Thrown (MongoInvalidArgumentError
                            "Invalid BulkOperation, Batch cannot be empty") in
  V1.getItemFromCollection (P:=P) collectionName userId [] empty_store
    = (empty_store, rejected)
  ∧ V2.getItemFromCollection_mongodb (P:=P) collectionName userId [] r empty_store
    = (empty_store, rejected)
  ∧ (V2.getItemFromCollection_sqlite (P:=P) collectionName userId [] r now empty_store).2
    = Returned (no_items_available collectionName).
Proof.
  split_and!.
  - by apply V1_getItem_empty_batch.
  - by apply V2_getItem_mongodb_empty_batch.
  - reflexivity.
Qed.

(** ** C7 *)

Section Deleting.
Context {D : Type}.
Implicit Types (s : Store D) (u : UserId) (l : list (Stored D)).

Lemma created_by_true u (d : Stored D) : created_by u d = true ↔ createdBy d = Some u.
Proof. unfold created_by. by rewrite bool_decide_eq_true. Qed.

Lemma created_by_false u (d : Stored D) : created_by u d = false ↔ createdBy d ≠ Some u.
Proof. unfold created_by. by rewrite bool_decide_eq_false. Qed.

Lemma filter_created_by u l :
  filter (λ d, created_by u d = true) l = filter (λ d : Stored D, createdBy d = Some u) l
  ∧ filter (λ d, created_by u d = false) l
    = filter (λ d : Stored D, createdBy d ≠ Some u) l.
Proof.
  split; apply list_filter_iff; intros d.
  - apply created_by_true.
  - apply created_by_false.
Qed.

Lemma length_filter_complement (Q : Stored D → Prop) `{∀ d, Decision (Q d)} l :
  length (filter (λ d, ¬ Q d) l) + length (filter Q l) = length l.
Proof.
  induction l as [|d l IH]; [done|]. rewrite !filter_cons.
  destruct (decide (Q d)).
  - rewrite decide_False by tauto. simpl. lia.
  - rewrite decide_True by done. simpl. lia.
Qed.

Lemma delete_where_created_by {P} u s :
  deletes_created_by (P:=P) u s
    (delete_where (created_by u) s,
     Returned (mkResponse true (DeletedData (length (matching (created_by u) s))))).
Proof.
  destruct (filter_created_by u (docs s)) as [Ht Hf].
  unfold deletes_created_by. cbn [fst snd delete_where docs journal]. unfold matching.
  rewrite Ht, Hf. split_and!; [done..| |done].
  apply (length_filter_complement (λ d : Stored D, createdBy d = Some u)).
Qed.

Lemma delete_where_keeps u s (d : Stored D) :
  d ∈ docs s → createdBy d = None → d ∈ docs (delete_where (created_by u) s).
Proof.
  intros Hd Hnone. cbn [delete_where docs]. apply list_elem_of_filter. split; [|done].
  apply created_by_false. by rewrite Hnone.
Qed.
End Deleting.

(** C7. [deleteItemsByUser] removes exactly the items whose [createdBy] is
    the given user, neither removes nor changes any other item, and returns
    [success = true] with the number of removed items as [deletedCount]:
    the number of items goes down by the number of items created by the
    user.  This holds for the MongoDB branch and for the SQLite branch. *)
Theorem C7_deleteItemsByUser_removes_exactly_the_items_of_the_user
    {P : Type} `{Json P} (userId : UserId) :
  (∀ s : Store P,
     deletes_created_by userId s (V2.deleteItemsByUser_mongodb userId s))
  ∧ (∀ t : Sqlite.Table,
     deletes_created_by (P:=P) userId t (V2.deleteItemsByUser_sqlite userId t)).
Proof.
  split; intros s; apply (delete_where_created_by (P:=P)).
Qed.

(** ** C10 *)

Lemma after_deletions_keeps {D P} (delete : UserId → M (Store D) (Response P))
    users (s : Store D) (d : Stored D) :
  (∀ u s, (delete u s).1 = delete_where (created_by u) s) →
  d ∈ docs s → createdBy d = None → d ∈ docs (after_deletions delete users s).
Proof.
  intros Hdel. unfold after_deletions. revert s.
  induction users as [|u users IH]; intros s Hd Hnone; [done|].
  cbn [foldl]. apply IH; [|done]. rewrite Hdel. by apply delete_where_keeps.
Qed.

(** C10. [deleteItemsByUser] never removes an item whose [createdBy] is
    absent, whoever the user is.  In particular the seeded items survive
    every sequence of such calls: the rows of the SQLite seeding have no
    [createdBy], and the documents of the MongoDB seeding are those of the
    samples, which have none in the sample tables of the repository. *)
Theorem C10_items_without_creator_survive_deleteItemsByUser
    {P : Type} `{Bson P} `{Json P} :
  (∀ (userId : UserId) (s : Store P) (d : Stored P),
     d ∈ docs s → createdBy d = None →
     d ∈ docs (V2.deleteItemsByUser_mongodb userId s).1)
  ∧ (∀ (userId : UserId) (t : Sqlite.Table) (d : Stored string),
     d ∈ docs t → createdBy d = None →
     d ∈ docs (V2.deleteItemsByUser_sqlite (P:=P) userId t).1)
  ∧ (∀ (users : list UserId) (sampleData : list (BaseItem P)) (s : Store P)
       (d : Stored P),
     Forall (λ b, createdBy b = None) sampleData →
     d ∈ number (nextId s) (stored_document <$> sampleData) →
     d ∈ docs (after_deletions V2.deleteItemsByUser_mongodb users
                 (insert_all (stored_document <$> sampleData) s)))
  ∧ (∀ (users : list UserId) (sampleData : list (BaseItem P)) (now : Timestamp)
       (t : Sqlite.Table) (d : Stored string),
     d ∈ number (nextId t) (seed_row now <$> sampleData) →
     d ∈ docs (after_deletions (V2.deleteItemsByUser_sqlite (P:=P)) users
                 (insert_each (seed_row now <$> sampleData) t))).
Proof.
  split_and!.
  - intros u s d. apply delete_where_keeps.
  - intros u t d. apply delete_where_keeps.
  - intros users sd s d Hnone Hd. apply after_deletions_keeps; [done| |].
    + cbn [insert_all docs]. apply elem_of_app. by right.
    + assert (Forall (λ b : BaseItem P, createdBy b = None) (stored_document <$> sd))
        as Hstored by (apply Forall_fmap; by eapply Forall_impl).
      apply (Forall_number _ (nextId s)) in Hstored.
      rewrite Forall_forall in Hstored. by apply Hstored.
  - intros users sd now t d Hd. apply after_deletions_keeps; [done| |].
    + destruct (docs_insert_each (seed_row now <$> sd) t) as [-> _].
      apply elem_of_app. by right.
    + assert (Forall (λ b : BaseItem string, createdBy b = None) (seed_row now <$> sd))
        as Hnone by (apply Forall_fmap, Forall_forall; by intros b _).
      apply (Forall_number _ (nextId t)) in Hnone.
      rewrite Forall_forall in Hnone. by apply Hnone.
Qed.

(** The seeded questions survive the deletions for alice and for bob. *)
Lemma C10_seeded_questions_survive :
  Forall (λ d, d ∈ docs (after_deletions V2.deleteItemsByUser_mongodb ["alice"; "bob"]
                           (insert_all (stored_document <$> questionSampleData)
                              empty_store)))
         (number 0 (stored_document <$> questionSampleData)).
Proof.
  destruct (C10_items_without_creator_survive_deleteItemsByUser (P:=MessageData))
    as (_ & _ & Hseeded & _).
  apply Forall_forall. intros d Hd.
  apply (Hseeded ["alice"; "bob"] questionSampleData empty_store d); [|exact Hd].
  repeat constructor.
Defined.

(** ** C9 *)

Lemma sqlite_history_not_open calls c :
  db_open c = false → Forall (λ call, opens call = false) calls →
  db_open (sqlite_history calls c) = false.
Proof.
  unfold sqlite_history. revert c.
  induction calls as [|call calls IH]; intros c Hc Hall; [done|].
  apply Forall_cons in Hall as [Hcall Hall]. cbn [foldl]. apply IH; [|done].
  destruct call as [[|e] executed|closed|name]; try done; cbn.
  - unfold SQLiteClientImpl.disconnect. run. by rewrite Hc.
  - unfold SQLiteClientImpl.getCollection. run. by rewrite Hc.
Qed.

(** The SQLite client does what C9 asks for: [getCollection] fails with
    the error "Database not connected", whatever the collection, as long as
    no [connect()] has opened the database file; the client then reports
    that it is not connected. *)
Lemma sqlite_getCollection_fails_until_connect_opens_the_database
    (dbFile : string) (file : Sqlite.Tables) (c : SQLiteClient)
    (calls : list SQLiteCall) (name : string) :
  SQLiteClientImpl.new dbFile file = Returned c →
  Forall (λ call, opens call = false) calls →
  let c' := sqlite_history calls c in
  getCollection (P:=unit) name (OfSQLite c')
    = (OfSQLite c', Thrown (Error "Database not connected"))
  ∧ isConnected (P:=unit) (OfSQLite c') = false.
Proof.
  intros Hnew Hcalls c'.
  assert (db_open c' = false) as Hclosed.
  { apply sqlite_history_not_open; [|done].
    unfold SQLiteClientImpl.new in Hnew. by destruct (decide (dbFile = "")); simplify_eq. }
  split; [|done].
  unfold getCollection, on_mongodb, SQLiteClientImpl.getCollection. run.
  by rewrite Hclosed.
Qed.

(** After a [connect()] that could not open the file and a [disconnect()]. *)
Lemma sqlite_getCollection_before_connect :
  let c := mkSQLiteClient false "data.db" ∅ in
  let c' := sqlite_history [CallConnect (Fails (SqliteError "unable to open database file"))
                              Executed;
                            CallDisconnect Succeeds] c in
  getCollection (P:=unit) "events" (OfSQLite c')
    = (OfSQLite c', Thrown (Error "Database not connected"))
  ∧ isConnected (P:=unit) (OfSQLite c') = false.
Proof.
  apply (sqlite_getCollection_fails_until_connect_opens_the_database "data.db" ∅).
  - reflexivity.
  - repeat constructor.
Defined.

(** C9. [getCollection] is to fail with a "not connected" error on every
    client before [connect()] has succeeded.  [SQLiteClient.getCollection]
    does; [MongoDBClient.getCollection] does not look at the connection: on
    a client that was never connected, and says so, it resolves to a
    collection handle. *)
Theorem C9_mongodb_getCollection_before_connect :
  let c := MongoDBClientImpl.new (P:=unit) ∅ "events_db" in
  isConnected (OfMongoDB c) = false
  ∧ getCollection "events" (OfMongoDB c)
    = (OfMongoDB c, Returned (CollectionHandle "events_db" "events")).
Proof. split; reflexivity. Qed.

(** The same in every state of a [MongoDBClient]. *)
Lemma mongodb_getCollection_always_resolves {P} (c : MongoDBClient P) name :
  getCollection name (OfMongoDB c)
    = (OfMongoDB c, Returned (CollectionHandle (dbName c) name)).
Proof. reflexivity. Qed.

(** A failed creation of the tables leaves the database open, although
    [connect()] has thrown: the claim C9 says nothing of this history. *)
Lemma sqlite_connect_open_then_failed e name :
  let c := mkSQLiteClient false "data.db" ∅ in
  let result := SQLiteClientImpl.connect Succeeds (FailsAtEvents e) c in
  result.2 = Thrown e
  ∧ SQLiteClientImpl.getCollection name result.1 = (result.1, Returned DatabaseHandle).
Proof. split; reflexivity. Qed.

(** ** Seeding once: the argument of C8, apart from the backend

    Steps that fill an empty collection with a fixed number of items and do
    not change the size of a collection otherwise: once a step for a
    collection has run, no step for it with the same number of items
    changes a size any more. *)

Section SeedOnce.
Context {S C : Type} (size : string → S → nat) (seedable : string → S → bool).
Context (target : C → string) (amount : C → nat) (step : C → S → S).
Context (step_other : ∀ c s n, n ≠ target c → size n (step c s) = size n s).
Context (step_nonempty : ∀ c s,
  size (target c) s ≠ 0 → size (target c) (step c s) = size (target c) s).
Context (step_unseedable : ∀ c s,
  seedable (target c) s = false → size (target c) (step c s) = size (target c) s).
Context (step_empty : ∀ c s,
  size (target c) s = 0 → seedable (target c) s = true →
  size (target c) (step c s) = amount c).
Context (step_seedable : ∀ c s n, seedable n (step c s) = seedable n s).

Local Abbreviation is_settled := (settled size seedable).
Local Abbreviation run_steps := (steps_of step).

Lemma settled_step c s : is_settled (target c) (amount c) (step c s).
Proof.
  unfold settled. destruct (decide (size (target c) s = 0)) as [Hz|Hnz].
  - destruct (seedable (target c) s) eqn:Hseed.
    + rewrite step_empty by done. destruct (amount c); [by right; left|by left].
    + right; right. by rewrite step_seedable.
  - left. by rewrite step_nonempty.
Qed.

Lemma step_settled c s n :
  is_settled (target c) (amount c) s → size n (step c s) = size n s.
Proof.
  intros Hs. destruct (decide (n = target c)) as [->|Hne]; [|by apply step_other].
  destruct Hs as [Hnz|[Hk|Hseed]].
  - by apply step_nonempty.
  - destruct (decide (size (target c) s = 0)) as [Hz|Hnz]; [|by apply step_nonempty].
    destruct (seedable (target c) s) eqn:Hseed; [|by apply step_unseedable].
    rewrite step_empty by done. congruence.
  - by apply step_unseedable.
Qed.

Lemma settled_preserved name k c s : is_settled name k s → is_settled name k (step c s).
Proof.
  intros [Hnz|[Hk|Hseed]].
  - left. destruct (decide (name = target c)) as [->|Hne].
    + by rewrite step_nonempty.
    + by rewrite step_other.
  - by right; left.
  - right; right. by rewrite step_seedable.
Qed.

Lemma settled_steps name k cs s : is_settled name k s → is_settled name k (run_steps cs s).
Proof.
  unfold steps_of. revert s. induction cs as [|c cs IH]; intros s Hs; [done|].
  cbn [foldl]. by apply IH, settled_preserved.
Qed.

Lemma settled_after_steps c cs s :
  c ∈ cs → is_settled (target c) (amount c) (run_steps cs s).
Proof.
  unfold steps_of. revert s. induction cs as [|c' cs IH]; intros s Hin.
  - by apply elem_of_nil in Hin.
  - cbn [foldl]. apply elem_of_cons in Hin as [->|Hin]; [|by apply IH].
    apply settled_steps, settled_step.
Qed.

(** Steps that are all settled change no size. *)
Lemma steps_settled cs s n :
  Forall (λ c, is_settled (target c) (amount c) s) cs →
  size n (run_steps cs s) = size n s.
Proof.
  unfold steps_of. revert s. induction cs as [|c cs IH]; intros s Hall; [done|].
  apply Forall_cons in Hall as [Hc Hall]. cbn [foldl]. rewrite IH.
  - by apply step_settled.
  - eapply Forall_impl; [exact Hall|]. intros c'. apply settled_preserved.
Qed.

(** Steps change the size of a settled collection only if one of them is
    for this collection with another number of items. *)
Lemma steps_settled_at name k cs s :
  is_settled name k s → Forall (λ c, target c = name → amount c = k) cs →
  size name (run_steps cs s) = size name s.
Proof.
  unfold steps_of. revert s. induction cs as [|c cs IH]; intros s Hs Hall; [done|].
  apply Forall_cons in Hall as [Hc Hall]. cbn [foldl].
  rewrite IH by auto using settled_preserved.
  destruct (decide (name = target c)) as [->|Hne]; [|by apply step_other].
  apply step_settled. by rewrite Hc.
Qed.

(** The same steps a second time change no size. *)
Lemma steps_twice cs s n :
  size n (run_steps cs (run_steps cs s)) = size n (run_steps cs s).
Proof.
  apply steps_settled, Forall_forall. intros c Hc. by apply settled_after_steps.
Qed.
End SeedOnce.

(** ** The size of a collection under the operations *)

Section Sizes.
Context {P : Type} `{Bson P} `{Json P}.
Implicit Types (s : Store P) (t : Sqlite.Table) (u : UserId) (sd : list (BaseItem P)).

Lemma length_update_first {D} q upd (s : Store D) :
  length (docs (update_first q upd s)) = length (docs s).
Proof.
  cbn [update_first docs]. rewrite <- (length_fmap _id (update_first_in _ _ _)).
  fold (ids (update_first_in q upd (docs s))). rewrite ids_update_first_in.
  apply length_fmap.
Qed.

Lemma length_update_where {D} q upd (s : Store D) :
  length (docs (update_where q upd s)) = length (docs s).
Proof. cbn [update_where docs]. apply length_fmap. Qed.

Lemma V1_getItem_length name u sd s :
  length (docs (V1.getItemFromCollection name u sd s).1)
  = size_after_seeding (length sd) s.
Proof.
  assert (∀ s', docs s' ≠ [] →
    length (docs (V1.getItemFromCollection name u sd s').1) = length (docs s')) as Hne.
  { intros s' Hs'. unfold V1.getItemFromCollection. run.
    rewrite decide_False by by rewrite length_zero_iff_nil_docs.
    destruct (head (matching (candidate u) s')); run.
    - cbn [fst]. apply length_update_first.
    - destruct (head (matching everything (update_where everything set_reset s'))); run.
      + cbn [fst]. by rewrite length_update_first, length_update_where.
      + cbn [fst]. by rewrite length_update_where. }
  unfold size_after_seeding. destruct (decide (docs s = [])) as [Hnil|Hs]; [|by apply Hne].
  destruct sd as [|b sd].
  - rewrite V1_getItem_empty_batch by done. cbn [fst]. by rewrite Hnil.
  - rewrite V1_getItem_seed by done. rewrite Hne by by apply docs_stored_ne.
    rewrite docs_insert_all_nil by done. by rewrite length_number, length_fmap.
Qed.

Lemma V2_getItem_mongodb_length name u sd r s :
  length (docs (V2.getItemFromCollection_mongodb name u sd r s).1)
  = size_after_seeding (length sd) s.
Proof.
  assert (∀ s', docs s' ≠ [] →
    length (docs (V2.getItemFromCollection_mongodb name u sd r s').1)
    = length (docs s')) as Hne.
  { intros s' Hs'. unfold V2.getItemFromCollection_mongodb. run.
    rewrite decide_False by by rewrite length_zero_iff_nil_docs.
    destruct (0 <? length (matching (candidate u) s'))%nat; run.
    - destruct (matching (candidate u) s' !! _); run; cbn [fst]; [|done].
      apply length_update_first.
    - destruct (0 <? length (matching everything
                                (update_where everything set_reset s')))%nat; run.
      + destruct (matching everything (update_where everything set_reset s') !! _);
          run; cbn [fst].
        * by rewrite length_update_first, length_update_where.
        * by rewrite length_update_where.
      + cbn [fst]. by rewrite length_update_where. }
  unfold size_after_seeding. destruct (decide (docs s = [])) as [Hnil|Hs]; [|by apply Hne].
  destruct sd as [|b sd].
  - rewrite V2_getItem_mongodb_empty_batch by done. cbn [fst]. by rewrite Hnil.
  - rewrite V2_getItem_mongodb_seed by done. rewrite Hne by by apply docs_stored_ne.
    rewrite docs_insert_all_nil by done. by rewrite length_number, length_fmap.
Qed.

Lemma V2_getItem_sqlite_length name u sd r now t :
  length (docs (V2.getItemFromCollection_sqlite name u sd r now t).1)
  = size_after_seeding (length sd) t.
Proof.
  rewrite V2_getItem_sqlite_rotate. cbv zeta. cbn [fst]. rewrite rotate_length.
  unfold seeded_table, size_after_seeding.
  destruct (decide (docs t = [])) as [Hnil|Hs]; [|done].
  rewrite docs_insert_each_nil by done. by rewrite length_number, length_fmap.
Qed.

(** The callback of [initializeCollections]: the collection is seeded if
    and only if it is empty. *)
Lemma initialize_callback_docs sd s :
  docs (V1.initializeCollections_callback sd s).1
  = if decide (docs s = []) then number (nextId s) (stored_document <$> sd) else docs s.
Proof.
  unfold V1.initializeCollections_callback. run.
  destruct (decide (docs s = [])) as [Hnil|Hs].
  - rewrite decide_True by by rewrite length_zero_iff_nil_docs.
    destruct sd as [|b sd]; cbn [fst]; [done|]. by rewrite docs_insert_all_nil.
  - by rewrite decide_False by by rewrite length_zero_iff_nil_docs.
Qed.

Lemma initialize_mongodb_docs sd s :
  docs (V2.initializeCollections_mongodb sd s).1
  = if decide (docs s = []) then number (nextId s) (stored_document <$> sd) else docs s.
Proof. apply initialize_callback_docs. Qed.

Lemma initialize_sqlite_docs sd now t :
  docs (V2.initializeCollections_sqlite sd now t).1
  = if decide (docs t = []) then number (nextId t) (seed_row now <$> sd) else docs t.
Proof.
  unfold V2.initializeCollections_sqlite.
  set (loop := for_each sd _).
  assert (∀ t', loop t' = (insert_each (seed_row now <$> sd) t', Returned tt)) as Hloop
    by (intros; apply for_each_seed).
  clearbody loop. run. destruct (decide (docs t = [])) as [Hnil|Hs].
  - rewrite decide_True by by rewrite length_zero_iff_nil_docs.
    rewrite Hloop. cbn [fst]. by rewrite docs_insert_each_nil.
  - by rewrite decide_False by by rewrite length_zero_iff_nil_docs.
Qed.

Lemma size_after_seeding_docs {D} (l new : list (Stored D)) (s : Store D) :
  l = (if decide (docs s = []) then new else docs s) →
  length l = size_after_seeding (length new) s.
Proof. intros ->. unfold size_after_seeding. by destruct (decide (docs s = [])). Qed.
End Sizes.

(** ** Running an operation inside a database and behind a client *)

Lemma promise_all_state {S} (ms : list (M S unit)) (s : S) :
  (promise_all ms s).1 = foldl (λ s m, (m s).1) s ms.
Proof.
  revert s. induction ms as [|m ms IH]; intros s; [done|].
  cbn [promise_all foldl]. rewrite <- IH.
  destruct (m s) as [s1 o1]. cbn [fst]. by destruct (promise_all ms s1).
Qed.

Lemma zoom_state {S T A} (view : S → T) (put : T → S → S) (m : M T A) s :
  (zoom view put m s).1 = put (m (view s)).1 s.
Proof. unfold zoom. by destruct (m (view s)). Qed.

Lemma collection_insert {P} n name (c : Store P) (d : Database P) :
  collection n (<[name := c]> d) = if decide (n = name) then c else collection n d.
Proof.
  unfold collection. destruct (decide (n = name)) as [->|Hne].
  - by rewrite lookup_insert_eq.
  - by rewrite lookup_insert_ne.
Qed.

Lemma database_insert {P} dbn (d : Database P) (client : MongoClient P) :
  database dbn (<[dbn := d]> client) = d.
Proof. unfold database. by rewrite lookup_insert_eq. Qed.

Lemma on_collection_state {P A} name (m : M (Store P) A) (d : Database P) :
  (on_collection name m d).1 = <[name := (m (collection name d)).1]> d.
Proof. apply zoom_state. Qed.

Lemma foldl_fmap_state {S B} (f : B → S → S) (l : list B) (s : S) (g : B → M S unit) :
  (∀ b s, (g b s).1 = f b s) →
  foldl (λ s m, (m s).1) s (g <$> l) = foldl (λ s b, f b s) s l.
Proof.
  intros Hg. revert s. induction l as [|b l IH]; intros s; [done|].
  rewrite fmap_cons. cbn [foldl]. by rewrite Hg, IH.
Qed.

Section V1Seeding.
Context {P : Type} `{Bson P}.
Implicit Types (d : Database P) (client : MongoClient P).

Lemma v1_step_size step d n :
  v1_size n (v1_step step d)
  = if decide (n = step_target step)
    then size_after_seeding (step_amount step) (collection n d)
    else v1_size n d.
Proof.
  unfold v1_size. destruct step as [[nm sd] now|nm u sd r now];
    cbn [v1_step step_target step_amount name sampleData];
    rewrite on_collection_state, collection_insert;
    destruct (decide (n = nm)) as [->|]; try done.
  - erewrite size_after_seeding_docs; [|apply initialize_callback_docs].
    by rewrite length_number, length_fmap.
  - apply V1_getItem_length.
Qed.

Lemma v1_initializeCollections_state dbName configs client :
  (V1.initializeCollections dbName configs client).1
  = <[dbName := steps_of v1_step ((λ c, InitializeStep c 0) <$> configs)
                  (database dbName client)]> client.
Proof.
  unfold V1.initializeCollections, on_db. rewrite zoom_state. f_equal.
  rewrite promise_all_state. unfold steps_of.
  rewrite (foldl_fmap_state (λ c, v1_step (InitializeStep c 0))).
  - generalize (database dbName client). induction configs as [|c cs IH]; intros d0; [done|].
    rewrite fmap_cons. cbn [foldl]. apply IH.
  - by intros [name sd] d0.
Qed.
End V1Seeding.

Section V1SeedOnce.
Context {P : Type} `{Bson P}.
Implicit Types (d : Database P) (client : MongoClient P) (step : SeedingStep P).

Lemma size_after_seeding_nonempty {D} k (s : Store D) :
  length (docs s) ≠ 0 → size_after_seeding k s = length (docs s).
Proof.
  intros Hne. unfold size_after_seeding. rewrite decide_False; [done|].
  by rewrite <- length_zero_iff_nil.
Qed.

Lemma size_after_seeding_empty {D} k (s : Store D) :
  length (docs s) = 0 → size_after_seeding k s = k.
Proof.
  intros He. unfold size_after_seeding. rewrite decide_True; [done|].
  by rewrite <- length_zero_iff_nil.
Qed.

Lemma v1_step_other step d n : n ≠ step_target step → v1_size n (v1_step step d) = v1_size n d.
Proof. intros Hne. rewrite v1_step_size. by rewrite decide_False. Qed.

Lemma v1_step_nonempty step d :
  v1_size (step_target step) d ≠ 0 →
  v1_size (step_target step) (v1_step step d) = v1_size (step_target step) d.
Proof.
  intros Hne. rewrite v1_step_size. rewrite decide_True by done.
  by apply size_after_seeding_nonempty.
Qed.

Lemma v1_step_empty step d :
  v1_size (step_target step) d = 0 →
  v1_size (step_target step) (v1_step step d) = step_amount step.
Proof.
  intros He. rewrite v1_step_size. rewrite decide_True by done.
  by apply size_after_seeding_empty.
Qed.

Lemma count_in_insert dbName n d client :
  count_in dbName n (<[dbName := d]> client) = v1_size n d.
Proof. unfold count_in, v1_size. by rewrite database_insert. Qed.

Lemma v1_initializeCollections_twice dbName configs client n :
  let once := (V1.initializeCollections dbName configs client).1 in
  count_in dbName n (V1.initializeCollections dbName configs once).1
  = count_in dbName n once.
Proof.
  cbv zeta. rewrite !v1_initializeCollections_state, !count_in_insert, database_insert.
  apply (steps_twice v1_size (λ _ _, true) step_target step_amount v1_step);
    auto using v1_step_other, v1_step_nonempty, v1_step_empty.
Qed.

Lemma v1_getItem_state dbName name u sd client :
  (v1_getItem dbName name u sd client).1
  = <[dbName := steps_of v1_step [GetItemStep name u sd (mkRandom 0 0) 0]
                  (database dbName client)]> client.
Proof. unfold v1_getItem, on_db. by rewrite zoom_state. Qed.

Lemma v1_initialize_then_getItem dbName configs name u sd client n :
  mkConfig name sd ∈ configs →
  let initialized := (V1.initializeCollections dbName configs client).1 in
  count_in dbName n (v1_getItem dbName name u sd initialized).1
  = count_in dbName n initialized.
Proof.
  intros Hin. cbv zeta.
  rewrite v1_getItem_state, v1_initializeCollections_state, !count_in_insert,
    database_insert.
  apply (steps_settled v1_size (λ _ _, true) step_target step_amount v1_step);
    auto using v1_step_other, v1_step_nonempty, v1_step_empty.
  apply Forall_singleton.
  apply (settled_after_steps v1_size (λ _ _, true) step_target step_amount v1_step
           v1_step_other v1_step_nonempty (λ c s Hz _, v1_step_empty c s Hz)
           (λ _ _ _, eq_refl) (InitializeStep (mkConfig name sd) 0)).
  apply list_elem_of_fmap. eauto.
Qed.

Lemma v1_getItem_then_initialize dbName configs nm u sd client :
  Forall (λ c, name c = nm → length (sampleData c) = length sd) configs →
  let acquired := (v1_getItem dbName nm u sd client).1 in
  count_in dbName nm (V1.initializeCollections dbName configs acquired).1
  = count_in dbName nm acquired.
Proof.
  intros Hall. cbv zeta.
  rewrite v1_initializeCollections_state, v1_getItem_state, !count_in_insert,
    database_insert.
  apply (steps_settled_at v1_size (λ _ _, true) step_target step_amount v1_step)
    with (k := length sd);
    auto using v1_step_other, v1_step_nonempty, v1_step_empty.
  - apply (settled_step v1_size (λ _ _, true) step_target step_amount v1_step
             v1_step_nonempty (λ c s Hz _, v1_step_empty c s Hz) (λ _ _ _, eq_refl)
             (GetItemStep nm u sd (mkRandom 0 0) 0)).
  - apply Forall_fmap. eapply Forall_impl; [exact Hall|]. done.
Qed.
End V1SeedOnce.

Section V2SeedOnce.
Context {P : Type} `{Bson P} `{Json P}.
Implicit Types (cl : DatabaseClient P) (step : SeedingStep P).

Lemma size_after_seeding_size {D} k (s : Store D) :
  size_after_seeding k s = seeded_size k (length (docs s)).
Proof.
  unfold size_after_seeding, seeded_size.
  destruct (decide (docs s = [])) as [Hn|Hn].
  - by rewrite decide_True by by rewrite length_zero_iff_nil.
  - by rewrite decide_False by by rewrite length_zero_iff_nil.
Qed.

Lemma on_store_count {A} name (mongo : M (Store P) A) (sqlite : M Sqlite.Table A) k cl n :
  (∀ s, length (docs (mongo s).1) = size_after_seeding k s) →
  (∀ t, length (docs (sqlite t).1) = size_after_seeding k t) →
  count_of n (on_store name mongo sqlite cl).1
  = if decide (n = name)
    then if reachable n cl then seeded_size k (count_of n cl) else count_of n cl
    else count_of n cl.
Proof.
  intros Hmongo Hsqlite. unfold on_store, getCollection, on_mongodb.
  destruct cl as [c|c].
  - unfold MongoDBClientImpl.getCollection, instanceof_Collection, on_db. run.
    cbn [reachable].
    destruct (zoom _ _ _ _) as [srv o] eqn:Hz. cbn [fst count_of client dbName].
    apply (f_equal fst) in Hz. rewrite zoom_state, on_collection_state in Hz.
    cbn [fst] in Hz. subst srv. rewrite count_in_insert. unfold v1_size, count_in.
    rewrite collection_insert. destruct (decide (n = name)) as [->|]; [|done].
    by rewrite Hmongo, size_after_seeding_size.
  - unfold SQLiteClientImpl.getCollection, instanceof_Collection, Sqlite.with_table. run.
    cbn [count_of reachable]. destruct (db_open c) eqn:Hopen; cbn [negb andb]; run.
    + destruct (tables c !! name) as [t|] eqn:Ht.
      * destruct (sqlite t) as [t' o] eqn:Hst. cbn [fst count_of tables].
        destruct (decide (n = name)) as [->|Hne].
        -- rewrite lookup_insert_eq, Ht. rewrite bool_decide_true by by eexists.
           apply (f_equal fst) in Hst. cbn [fst] in Hst. subst t'.
           by rewrite Hsqlite, size_after_seeding_size.
        -- by rewrite lookup_insert_ne.
      * cbn [fst count_of tables]. destruct (decide (n = name)) as [->|]; [|done].
        rewrite Ht. by rewrite bool_decide_false by by intros [??].
    + cbn [fst count_of]. by destruct (decide (n = name)).
Qed.

Lemma on_store_reachable {A} name (mongo : M (Store P) A) (sqlite : M Sqlite.Table A)
    cl n :
  reachable n (on_store name mongo sqlite cl).1 = reachable n cl.
Proof.
  unfold on_store, getCollection, on_mongodb. destruct cl as [c|c].
  - unfold MongoDBClientImpl.getCollection, instanceof_Collection. run.
    by destruct (on_db _ _ _).
  - unfold SQLiteClientImpl.getCollection, instanceof_Collection, Sqlite.with_table. run.
    destruct (db_open c) eqn:Hopen; cbn [negb]; run; [|done].
    destruct (tables c !! name) as [t|] eqn:Ht; [|by cbn; rewrite Hopen].
    destruct (sqlite t) as [t' o]. cbn. rewrite Hopen. cbn. f_equal.
    destruct (decide (n = name)) as [->|Hne].
    + rewrite lookup_insert_eq, Ht. by rewrite !bool_decide_true by by eexists.
    + by rewrite lookup_insert_ne.
Qed.
End V2SeedOnce.

Section V2Steps.
Context {P : Type} `{Bson P} `{Json P}.
Implicit Types (cl : DatabaseClient P) (step : SeedingStep P).

Lemma v2_step_on_store step cl :
  v2_step step cl
  = match step with
    | InitializeStep (mkConfig nm sd) now =>
        (on_store nm (V2.initializeCollections_mongodb sd)
           (V2.initializeCollections_sqlite sd now) cl).1
    | GetItemStep nm u sd r now =>
        (on_store nm (V2.getItemFromCollection_mongodb nm u sd r)
           (V2.getItemFromCollection_sqlite nm u sd r now) cl).1
    end.
Proof.
  destruct step as [[nm sd] now|nm u sd r now]; [|done].
  cbn [v2_step]. unfold V2.initializeCollections. rewrite promise_all_state. done.
Qed.

Lemma v2_step_count step cl n :
  count_of n (v2_step step cl)
  = if decide (n = step_target step)
    then if reachable n cl then seeded_size (step_amount step) (count_of n cl)
         else count_of n cl
    else count_of n cl.
Proof.
  rewrite v2_step_on_store. destruct step as [[nm sd] now|nm u sd r now];
    cbn [step_target step_amount name sampleData]; apply on_store_count.
  - intros s. erewrite size_after_seeding_docs; [|apply initialize_mongodb_docs].
    by rewrite length_number, length_fmap.
  - intros t. erewrite size_after_seeding_docs; [|apply initialize_sqlite_docs].
    by rewrite length_number, length_fmap.
  - intros s. apply V2_getItem_mongodb_length.
  - intros t. apply V2_getItem_sqlite_length.
Qed.

Lemma v2_step_reachable step cl n : reachable n (v2_step step cl) = reachable n cl.
Proof.
  rewrite v2_step_on_store.
  destruct step as [[nm sd] now|nm u sd r now]; apply on_store_reachable.
Qed.

Lemma v2_step_other step cl n :
  n ≠ step_target step → count_of n (v2_step step cl) = count_of n cl.
Proof. intros Hne. rewrite v2_step_count. by rewrite decide_False. Qed.

Lemma v2_step_nonempty step cl :
  count_of (step_target step) cl ≠ 0 →
  count_of (step_target step) (v2_step step cl) = count_of (step_target step) cl.
Proof.
  intros Hne. rewrite v2_step_count. rewrite decide_True by done.
  unfold seeded_size. rewrite decide_False by done. by destruct (reachable _ _).
Qed.

Lemma v2_step_unreachable step cl :
  reachable (step_target step) cl = false →
  count_of (step_target step) (v2_step step cl) = count_of (step_target step) cl.
Proof. intros Hr. rewrite v2_step_count. rewrite decide_True by done. by rewrite Hr. Qed.

Lemma v2_step_empty step cl :
  count_of (step_target step) cl = 0 → reachable (step_target step) cl = true →
  count_of (step_target step) (v2_step step cl) = step_amount step.
Proof.
  intros Hz Hr. rewrite v2_step_count. rewrite decide_True by done. rewrite Hr.
  unfold seeded_size. by rewrite decide_True.
Qed.

Lemma v2_initializeCollections_state configs now cl :
  (V2.initializeCollections configs now cl).1
  = steps_of v2_step ((λ c, InitializeStep c now) <$> configs) cl.
Proof.
  unfold V2.initializeCollections. rewrite promise_all_state. unfold steps_of.
  rewrite (foldl_fmap_state (λ c, v2_step (InitializeStep c now))).
  - revert cl. induction configs as [|c cs IH]; intros cl; [done|].
    rewrite fmap_cons. cbn [foldl]. apply IH.
  - intros [nm sd] cl'. cbn [v2_step]. unfold V2.initializeCollections.
    by rewrite promise_all_state.
Qed.

Lemma v2_initializeCollections_twice configs now now' cl n :
  let once := (V2.initializeCollections configs now cl).1 in
  count_of n (V2.initializeCollections configs now' once).1 = count_of n once.
Proof.
  cbv zeta. rewrite !v2_initializeCollections_state.
  apply (steps_settled count_of reachable step_target step_amount v2_step);
    auto using v2_step_other, v2_step_nonempty, v2_step_unreachable, v2_step_empty,
      v2_step_reachable.
  apply Forall_fmap, Forall_forall. intros c Hc. cbn.
  apply (settled_after_steps count_of reachable step_target step_amount v2_step
           v2_step_other v2_step_nonempty v2_step_empty v2_step_reachable
           (InitializeStep c now)).
  apply list_elem_of_fmap. eauto.
Qed.

Lemma v2_initialize_then_getItem configs nm u sd r now now' cl n :
  mkConfig nm sd ∈ configs →
  let initialized := (V2.initializeCollections configs now cl).1 in
  count_of n (V2.getItemFromCollection nm u sd r now' initialized).1
  = count_of n initialized.
Proof.
  intros Hin. cbv zeta. rewrite v2_initializeCollections_state.
  change (V2.getItemFromCollection nm u sd r now' ?c).1
    with (steps_of v2_step [GetItemStep nm u sd r now'] c).
  apply (steps_settled count_of reachable step_target step_amount v2_step);
    auto using v2_step_other, v2_step_nonempty, v2_step_unreachable, v2_step_empty,
      v2_step_reachable.
  apply Forall_singleton.
  apply (settled_after_steps count_of reachable step_target step_amount v2_step
           v2_step_other v2_step_nonempty v2_step_empty v2_step_reachable
           (InitializeStep (mkConfig nm sd) now)).
  apply list_elem_of_fmap. eauto.
Qed.

Lemma v2_getItem_then_initialize configs nm u sd r now now' cl :
  Forall (λ c, name c = nm → length (sampleData c) = length sd) configs →
  let acquired := (V2.getItemFromCollection nm u sd r now cl).1 in
  count_of nm (V2.initializeCollections configs now' acquired).1
  = count_of nm acquired.
Proof.
  intros Hall. cbv zeta. rewrite v2_initializeCollections_state.
  apply (steps_settled_at count_of reachable step_target step_amount v2_step)
    with (k := length sd);
    auto using v2_step_other, v2_step_nonempty, v2_step_unreachable, v2_step_empty,
      v2_step_reachable.
  - apply (settled_step count_of reachable step_target step_amount v2_step
             v2_step_nonempty v2_step_empty v2_step_reachable
             (GetItemStep nm u sd r now)).
  - apply Forall_fmap. eapply Forall_impl; [exact Hall|]. done.
Qed.
End V2Steps.

(** ** C8 *)

(** C8. [initializeCollections] seeds a collection with its sample data if
    and only if the collection is empty (first three parts: the callback of
    the first generation and the two branches of the second one; MongoDB
    holds the documents the driver writes for the samples, SQLite their
    rows).  Hence a
    second call changes the number of items of no collection (parts four
    and five), and neither does the lazy seeding of [getItemFromCollection]
    after it, for a collection declared with the same sample data, nor
    [initializeCollections] after [getItemFromCollection] for that
    collection (the last four parts). *)
Theorem C8_initializeCollections_seeds_only_empty_collections
    {P : Type} `{Bson P} `{Json P} :
  (∀ (sampleData : list (BaseItem P)) (s : Store P),
     docs (V1.initializeCollections_callback sampleData s).1
     = if decide (docs s = [])
       then number (nextId s) (stored_document <$> sampleData) else docs s)
  ∧ (∀ (sampleData : list (BaseItem P)) (s : Store P),
     docs (V2.initializeCollections_mongodb sampleData s).1
     = if decide (docs s = [])
       then number (nextId s) (stored_document <$> sampleData) else docs s)
  ∧ (∀ (sampleData : list (BaseItem P)) (now : Timestamp) (t : Sqlite.Table),
     docs (V2.initializeCollections_sqlite sampleData now t).1
     = if decide (docs t = [])
       then number (nextId t) (seed_row now <$> sampleData) else docs t)
  ∧ (∀ dbName configs (client : MongoClient P) collectionName,
     let once := (V1.initializeCollections dbName configs client).1 in
     count_in dbName collectionName (V1.initializeCollections dbName configs once).1
     = count_in dbName collectionName once)
  ∧ (∀ configs now now' (cl : DatabaseClient P) collectionName,
     let once := (V2.initializeCollections configs now cl).1 in
     count_of collectionName (V2.initializeCollections configs now' once).1
     = count_of collectionName once)
  ∧ (∀ dbName configs (client : MongoClient P) name userId sampleData collectionName,
     mkConfig name sampleData ∈ configs →
     let initialized := (V1.initializeCollections dbName configs client).1 in
     count_in dbName collectionName
       (v1_getItem dbName name userId sampleData initialized).1
     = count_in dbName collectionName initialized)
  ∧ (∀ dbName configs (client : MongoClient P) name userId sampleData,
     Forall (λ c, config_name c = name → length (config_sampleData c) = length sampleData)
            configs →
     let acquired := (v1_getItem dbName name userId sampleData client).1 in
     count_in dbName name (V1.initializeCollections dbName configs acquired).1
     = count_in dbName name acquired)
  ∧ (∀ configs (cl : DatabaseClient P) name userId sampleData r now now' collectionName,
     mkConfig name sampleData ∈ configs →
     let initialized := (V2.initializeCollections configs now cl).1 in
     count_of collectionName
       (V2.getItemFromCollection name userId sampleData r now' initialized).1
     = count_of collectionName initialized)
  ∧ (∀ configs (cl : DatabaseClient P) name userId sampleData r now now',
     Forall (λ c, config_name c = name → length (config_sampleData c) = length sampleData)
            configs →
     let acquired := (V2.getItemFromCollection name userId sampleData r now cl).1 in
     count_of name (V2.initializeCollections configs now' acquired).1
     = count_of name acquired).
Proof.
  split_and!.
  - apply initialize_callback_docs.
  - apply initialize_mongodb_docs.
  - apply initialize_sqlite_docs.
  - intros. apply v1_initializeCollections_twice.
  - intros. apply v2_initializeCollections_twice.
  - intros. by apply v1_initialize_then_getItem.
  - intros. by apply v1_getItem_then_initialize.
  - intros. by apply v2_initialize_then_getItem.
  - intros. by apply v2_getItem_then_initialize.
Qed.

(** The events of [COLLECTIONS] are seeded once: by [initializeCollections]
    and not again by [getItemFromCollection] on SQLite, by
    [getItemFromCollection] and not again by [initializeCollections] on
    MongoDB. *)
Lemma C8_events_are_seeded_once :
  (let initialized := (V2.initializeCollections COLLECTIONS 0 connected_sqlite).1 in
   count_of "events"
     (V2.getItemFromCollection "events" "alice" eventSampleData (mkRandom 0 0) 1
        initialized).1
   = count_of "events" initialized)
  ∧ (let acquired := (V2.getItemFromCollection "events" "alice" eventSampleData
                        (mkRandom 0 0) 0 new_mongodb).1 in
     count_of "events" (V2.initializeCollections COLLECTIONS 1 acquired).1
     = count_of "events" acquired).
Proof.
  destruct (C8_initializeCollections_seeds_only_empty_collections (P:=MessageData))
    as (_ & _ & _ & _ & _ & _ & _ & Hinit_get & Hget_init).
  split.
  - apply (Hinit_get COLLECTIONS connected_sqlite "events" "alice" eventSampleData
             (mkRandom 0 0) 0 1 "events").
    left.
  - apply (Hget_init COLLECTIONS new_mongodb "events" "alice" eventSampleData
             (mkRandom 0 0) 0 1).
    repeat constructor.
Defined.

(** ** The operations change a collection by mutations only *)

Section Mutations.
Context {D : Type}.
Implicit Types (s : Store D) (ok : BaseItem D → Prop) (marking : bool).

Lemma mutation_wf ok marking s s' : mutation ok marking s s' → wf s → wf s'.
Proof.
  intros Hm Hwf. destruct Hm;
    auto using wf_insert_all, wf_update_where, wf_delete_where.
Qed.

Lemma evolves_wf ok marking s s' : evolves ok marking s s' → wf s → wf s'.
Proof. induction 1; eauto using mutation_wf. Qed.

Lemma mutation_mono ok ok' marking marking' s s' :
  (∀ b, ok b → ok' b) → (marking = true → marking' = true) →
  mutation ok marking s s' → mutation ok' marking' s s'.
Proof.
  intros Hok Hmark Hm. destruct Hm; try by constructor.
  - constructor. eapply Forall_impl; eauto.
  - constructor. auto.
Qed.

Lemma evolves_mono ok ok' marking marking' s s' :
  (∀ b, ok b → ok' b) → (marking = true → marking' = true) →
  evolves ok marking s s' → evolves ok' marking' s s'.
Proof.
  intros Hok Hmark. induction 1 as [|s1 s2 s3 Hm _ IH]; [apply rtc_refl|].
  eapply rtc_l; [|exact IH]. eapply mutation_mono; eauto.
Qed.

Lemma mutates_ret {A} ok marking (a : A) : mutates ok marking (ret a).
Proof. intros s _. apply rtc_refl. Qed.

Lemma mutates_throw {A} ok marking e : mutates (A:=A) ok marking (throw e).
Proof. intros s _. apply rtc_refl. Qed.

Lemma mutates_bind {A B} ok marking (m : M (Store D) A) (f : A → M (Store D) B) :
  mutates ok marking m → (∀ a, mutates ok marking (f a)) →
  mutates ok marking (bind m f).
Proof.
  intros Hm Hf s Hwf. unfold bind. specialize (Hm s Hwf).
  destruct (m s) as [s1 [a|e]]; cbn [fst] in *; [|done].
  etrans; [exact Hm|]. apply Hf. eauto using evolves_wf.
Qed.

Lemma mutates_read {A} ok marking (f : Store D → A) :
  mutates ok marking (λ s, (s, Returned (f s))).
Proof. intros s _. apply rtc_refl. Qed.

Lemma mutates_insertMany `{Bson D} ok marking batch :
  Forall ok (stored_document <$> batch) → mutates ok marking (Mongo.insertMany batch).
Proof.
  intros Hok s _. unfold Mongo.insertMany. destruct batch; [apply rtc_refl|].
  cbn [fst]. apply rtc_once. by constructor.
Qed.

Lemma mutates_updateOne_assign ok marking i u :
  mutates ok marking (Mongo.updateOne (by_id i) (set_assign u)).
Proof.
  intros s Hwf. unfold Mongo.updateOne, modify. cbn [fst].
  rewrite update_first_by_id by done. apply rtc_once. constructor.
Qed.

Lemma mutates_updateMany_reset ok marking :
  mutates ok marking (Mongo.updateMany everything set_reset).
Proof. intros s _. apply rtc_once. constructor. Qed.

Lemma mutates_updateMany_mark ok :
  mutates ok true (Mongo.updateMany unused set_mark).
Proof. intros s _. apply rtc_once. by constructor. Qed.

Lemma mutates_deleteMany ok marking u :
  mutates ok marking (Mongo.deleteMany (created_by u)).
Proof. intros s _. apply rtc_once. constructor. Qed.

Lemma mutates_for_each {A} ok marking (l : list A) (f : A → M (Store D) unit) :
  (∀ x, x ∈ l → mutates ok marking (f x)) → mutates ok marking (for_each l f).
Proof.
  induction l as [|x l IH]; intros Hf; [apply mutates_ret|].
  cbn [for_each]. apply mutates_bind.
  - apply Hf. left.
  - intros _. apply IH. intros y Hy. apply Hf. by right.
Qed.

Lemma mutates_for_each_push {A B} ok marking (l : list A) (f : A → M (Store D) B) :
  (∀ x, x ∈ l → mutates ok marking (f x)) → mutates ok marking (for_each_push l f).
Proof.
  induction l as [|x l IH]; intros Hf; [apply mutates_ret|].
  cbn [for_each_push]. apply mutates_bind.
  - apply Hf. left.
  - intros y. apply mutates_bind; [|intros; apply mutates_ret].
    apply IH. intros z Hz. apply Hf. by right.
Qed.
End Mutations.

Section SqliteMutations.
Implicit Types (t : Sqlite.Table) (ok : BaseItem string → Prop) (marking : bool).

Lemma mutates_insert_data_used ok marking text used now :
  ok (mkItem text used None None (Some now)) →
  mutates ok marking (Sqlite.insert_data_used text used now).
Proof. intros Hok t _. apply rtc_once. constructor. by constructor. Qed.

Lemma mutates_insert_created ok marking text u now :
  ok (mkItem text false None (Some u) (Some now)) →
  mutates ok marking (Sqlite.insert_created text u now).
Proof. intros Hok t _. apply rtc_once. constructor. by constructor. Qed.

Lemma mutates_update_assign ok marking i u :
  mutates ok marking (Sqlite.update_set (by_id i) (set_assign u)).
Proof. intros t _. apply rtc_once. constructor. Qed.

Lemma mutates_update_reset ok marking :
  mutates ok marking (Sqlite.update_set everything set_reset).
Proof. intros t _. apply rtc_once. constructor. Qed.

Lemma mutates_update_mark ok : mutates ok true (Sqlite.update_set unused set_mark).
Proof. intros t _. apply rtc_once. by constructor. Qed.

Lemma mutates_delete_from ok marking u :
  mutates ok marking (Sqlite.delete_from (created_by u)).
Proof. intros t _. apply rtc_once. constructor. Qed.
End SqliteMutations.

Ltac mutates_step :=
  first
    [ apply mutates_ret
    | apply mutates_throw
    | apply mutates_updateOne_assign
    | apply mutates_updateMany_reset
    | apply mutates_updateMany_mark
    | apply mutates_deleteMany
    | apply mutates_update_assign
    | apply mutates_update_reset
    | apply mutates_update_mark
    | apply mutates_delete_from
    | apply (mutates_read _ _ (λ c, length (docs c)))
    | apply (mutates_read _ _ (λ c, head (matching _ c)))
    | apply (mutates_read _ _ (λ c, matching _ c))
    | apply (mutates_read _ _ (λ c, matching _ c !! _))
    | apply mutates_bind; [|intros ?]
    | match goal with
      | |- mutates _ _ (if ?b then _ else _) => destruct b
      | |- mutates _ _ (match ?x with _ => _ end) => destruct x
      end ].

Section CallsMutate.
Context {P : Type} `{Bson P} `{Json P}.

Lemma Forall_stored_samples (sd : list (BaseItem P)) :
  Forall (λ b, ∃ sample, sample ∈ sd ∧ b = stored_document sample)
         (stored_document <$> sd).
Proof. apply Forall_fmap, Forall_forall. intros sample Hs. by exists sample. Qed.

Lemma mongo_call_evolves (call : MongoCall P) (s : Store P) :
  wf s → evolves (mongo_inserts call) (is_mongo_mark call) s (mongo_call call s).
Proof.
  intros Hwf. destruct call as [name u sd|name u sd r|u items now|sd| |u];
    cbn [mongo_call mongo_inserts is_mongo_mark].
  - revert s Hwf.
    change (mutates (λ b, ∃ sample, sample ∈ sd ∧ b = stored_document sample) false
              (V1.getItemFromCollection name u sd)).
    unfold V1.getItemFromCollection. repeat mutates_step.
    apply mutates_insertMany, Forall_stored_samples.
  - revert s Hwf.
    change (mutates (λ b, ∃ sample, sample ∈ sd ∧ b = stored_document sample) false
              (V2.getItemFromCollection_mongodb name u sd r)).
    unfold V2.getItemFromCollection_mongodb. repeat mutates_step.
    apply mutates_insertMany, Forall_stored_samples.
  - revert s Hwf.
    change (mutates (λ b, ∃ payload, payload ∈ items
                          ∧ b = stored_document
                                  (mkItem payload false None (Some u) (Some now))) false
              (V2.createItems_mongodb u items now)).
    unfold V2.createItems_mongodb. repeat mutates_step.
    apply mutates_insertMany. rewrite <- list_fmap_compose.
    apply Forall_fmap, Forall_forall. intros p Hp. cbn. eauto.
  - revert s Hwf.
    change (mutates (λ b, ∃ sample, sample ∈ sd ∧ b = stored_document sample) false
              (V2.initializeCollections_mongodb sd)).
    unfold V2.initializeCollections_mongodb. repeat mutates_step.
    apply mutates_insertMany, Forall_stored_samples.
  - revert s Hwf. change (mutates (λ _ : BaseItem P, False) true
                            (V2.markAllItemsAsUsed_mongodb (P:=P))).
    unfold V2.markAllItemsAsUsed_mongodb. repeat mutates_step.
  - revert s Hwf. change (mutates (λ _ : BaseItem P, False) false
                            (V2.deleteItemsByUser_mongodb (P:=P) u)).
    unfold V2.deleteItemsByUser_mongodb. repeat mutates_step.
Qed.

Lemma sqlite_call_evolves (call : SqliteCall P) (t : Sqlite.Table) :
  wf t → evolves (sqlite_inserts call) (is_sqlite_mark call) t (sqlite_call_on call t).
Proof.
  intros Hwf. destruct call as [name u sd r now|u items now|sd now| |u];
    cbn [sqlite_call_on sqlite_inserts is_sqlite_mark].
  - revert t Hwf.
    change (mutates (λ b, ∃ sample, sample ∈ sd ∧ b = seed_row now sample) false
              (V2.getItemFromCollection_sqlite name u sd r now)).
    unfold V2.getItemFromCollection_sqlite. repeat mutates_step.
    apply mutates_for_each. intros sample Hs. repeat mutates_step.
    apply mutates_insert_data_used. by exists sample.
  - revert t Hwf.
    change (mutates (λ b, ∃ payload, payload ∈ items ∧ b = created_row u now payload)
              false (V2.createItems_sqlite u items now)).
    unfold V2.createItems_sqlite. repeat mutates_step.
    apply mutates_for_each_push. intros p Hp.
    apply mutates_insert_created. by exists p.
  - revert t Hwf.
    change (mutates (λ b, ∃ sample, sample ∈ sd ∧ b = seed_row now sample) false
              (V2.initializeCollections_sqlite sd now)).
    unfold V2.initializeCollections_sqlite. repeat mutates_step.
    apply mutates_for_each. intros sample Hs. repeat mutates_step.
    apply mutates_insert_data_used. by exists sample.
  - revert t Hwf. change (mutates (λ _ : BaseItem string, False) true
                            (V2.markAllItemsAsUsed_sqlite (P:=P))).
    unfold V2.markAllItemsAsUsed_sqlite. repeat mutates_step.
  - revert t Hwf. change (mutates (λ _ : BaseItem string, False) false
                            (V2.deleteItemsByUser_sqlite (P:=P) u)).
    unfold V2.deleteItemsByUser_sqlite. repeat mutates_step.
Qed.
End CallsMutate.

(** ** C5: the flags of the items along the life of a collection *)

Section Flags.
Context {D : Type}.
Implicit Types (s : Store D) (j : list Mutation) (i : Id).

Lemma last_assignee_snoc j entry i :
  last_assignee (j ++ [entry]) i
  = match assigns i entry with
    | Some u => Some u
    | None => last_assignee j i
    end.
Proof.
  induction j as [|e j IH]; cbn [app last_assignee].
  - by destruct (assigns i entry).
  - rewrite IH. by destruct (assigns i entry), (last_assignee j i).
Qed.

Lemma marked_snoc j entry i : marked j i → marked (j ++ [entry]) i.
Proof. intros (ids & Hin & Hi). exists ids. split; [|done]. apply elem_of_app. by left. Qed.

Lemma marked_last ids i : i ∈ ids → ∀ j, marked (j ++ [Updated ids set_mark]) i.
Proof.
  intros Hi j. exists ids. split; [|done]. apply elem_of_app. right. by left.
Qed.

Lemma elem_of_ids_matching q (l : list (Stored D)) (d : Stored D) :
  d ∈ l → q d = true → _id d ∈ ids (filter (λ d, q d = true) l).
Proof.
  intros Hd Hq. unfold ids. apply list_elem_of_fmap. exists d. split; [done|].
  by apply list_elem_of_filter.
Qed.

Lemma not_elem_of_ids_matching q (l : list (Stored D)) i :
  (∀ d, d ∈ l → q d = true → _id d ≠ i) → i ∉ ids (filter (λ d, q d = true) l).
Proof.
  intros Hq. unfold ids. rewrite list_elem_of_fmap. intros (d & -> & Hd).
  apply list_elem_of_filter in Hd as [Hqd Hd]. by eapply Hq.
Qed.

(** Entries that assign nothing to the item leave its last assignee. *)
Lemma held_snoc j entry (d : Stored D) :
  assigns (_id d) entry = None →
  (∃ u, assignedTo d = Some u ∧ last_assignee j (_id d) = Some u) →
  ∃ u, assignedTo d = Some u ∧ last_assignee (j ++ [entry]) (_id d) = Some u.
Proof.
  intros Hno (u & Ha & Hl). exists u. split; [done|]. by rewrite last_assignee_snoc, Hno.
Qed.

Lemma flags_invariant_mutation marking s s' :
  mutation free marking s s' → flags_invariant marking s → flags_invariant marking s'.
Proof.
  intros Hm (Hwf & Hunused & Hused).
  split; [by eapply mutation_wf|].
  destruct Hm as [s batch Hfree|s i u|s|s Hmark|s u].
  - (* insertion *)
    cbn [insert_all docs journal]. split.
    + intros d [Hd|Hd]%elem_of_app; [by apply Hunused|]. intros _.
      apply (Forall_number free (nextId s)) in Hfree. rewrite Forall_forall in Hfree.
      by apply Hfree.
    + intros d [Hd|Hd]%elem_of_app Hu.
      * destruct (Hused d Hd Hu) as [Hheld|(? & ? & ?)].
        -- left. by apply held_snoc.
        -- right. split_and!; [done..|]. by apply marked_snoc.
      * apply (Forall_number free (nextId s)) in Hfree. rewrite Forall_forall in Hfree.
        destruct (Hfree d Hd) as [Hf _]. congruence.
  - (* assignment of the item [i] *)
    cbn [update_where docs journal]. split.
    + intros d' (d & -> & Hd)%list_elem_of_fmap.
      destruct (by_id i d) eqn:Hi; [done|]. by apply Hunused.
    + intros d' (d & -> & Hd)%list_elem_of_fmap Hu.
      destruct (by_id i d) eqn:Hi.
      * left. exists u. split; [done|]. rewrite last_assignee_snoc. cbn [assigns set_assign].
        rewrite decide_True; [done|]. cbn [update _id]. by apply elem_of_ids_matching.
      * apply by_id_false in Hi.
        assert (assigns (_id d) (Updated (ids (matching (by_id i) s)) (set_assign u))
                = None) as Hno.
        { cbn [assigns set_assign]. rewrite decide_False; [done|].
          apply not_elem_of_ids_matching. intros e _ He%by_id_true. congruence. }
        destruct (Hused d Hd Hu) as [Hheld|(? & ? & ?)].
        -- left. by apply held_snoc.
        -- right. split_and!; [done..|]. by apply marked_snoc.
  - (* reset *)
    cbn [update_where docs journal]. split.
    + by intros d' (d & -> & Hd)%list_elem_of_fmap.
    + by intros d' (d & -> & Hd)%list_elem_of_fmap.
  - (* marking *)
    cbn [update_where docs journal]. split.
    + intros d' (d & -> & Hd)%list_elem_of_fmap.
      unfold unused. destruct (used d) eqn:Hu; cbn [negb]; [congruence|done].
    + intros d' (d & -> & Hd)%list_elem_of_fmap.
      unfold unused. destruct (used d) eqn:Hu; cbn [negb].
      * intros _. destruct (Hused d Hd Hu) as [Hheld|(? & ? & ?)].
        -- left. apply held_snoc; [reflexivity|done].
        -- right. split_and!; [done..|]. by apply marked_snoc.
      * intros _. right. split_and!; [done|by apply (Hunused d)|].
        apply marked_last. cbn [update _id]. apply elem_of_ids_matching; [done|].
        unfold unused. by rewrite Hu.
  - (* deletion *)
    cbn [delete_where docs journal]. split.
    + intros d [_ Hd]%list_elem_of_filter. by apply Hunused.
    + intros d [_ Hd]%list_elem_of_filter Hu.
      destruct (Hused d Hd Hu) as [Hheld|(? & ? & ?)].
      * left. by apply held_snoc.
      * right. split_and!; [done..|]. by apply marked_snoc.
Qed.

Lemma flags_invariant_evolves marking s s' :
  evolves free marking s s' → flags_invariant marking s → flags_invariant marking s'.
Proof. induction 1; eauto using flags_invariant_mutation. Qed.

Lemma flags_invariant_empty marking : flags_invariant marking (@empty_store D).
Proof.
  split_and!; [apply wf_empty|..]; intros d Hd; by apply elem_of_nil in Hd.
Qed.

Lemma flags_invariant_mono s : flags_invariant false s → flags_invariant true s.
Proof.
  intros (Hwf & Hunused & Hused). split_and!; [done..|].
  intros d Hd Hu. destruct (Hused d Hd Hu) as [Hheld|(? & _)]; [by left|done].
Qed.
End Flags.

Section FlagsOfCalls.
Context {P : Type} `{Bson P} `{Json P}.

Lemma mongo_inserts_free (call : MongoCall P) b :
  mongo_pristine call → mongo_inserts call b → free b.
Proof.
  destruct call as [name u sd|name u sd r|u items now|sd| |u];
    cbn [mongo_pristine mongo_inserts]; try done.
  - rewrite Forall_forall. intros Hfree (sample & Hs & ->).
    by apply free_stored_document, Hfree.
  - rewrite Forall_forall. intros Hfree (sample & Hs & ->).
    by apply free_stored_document, Hfree.
  - by intros _ (p & _ & ->).
  - rewrite Forall_forall. intros Hfree (sample & Hs & ->).
    by apply free_stored_document, Hfree.
Qed.

Lemma sqlite_inserts_free (call : SqliteCall P) b : sqlite_inserts call b → free b.
Proof.
  destruct call as [name u sd r now|u items now|sd now| |u];
    cbn [sqlite_inserts]; try done.
  - by intros (sample & _ & ->).
  - by intros (p & _ & ->).
  - by intros (sample & _ & ->).
Qed.

Lemma mongo_calls_flags marking (calls : list (MongoCall P)) (s : Store P) :
  flags_invariant marking s → Forall mongo_pristine calls →
  Forall (λ call, is_mongo_mark call = true → marking = true) calls →
  flags_invariant marking (mongo_calls calls s).
Proof.
  unfold mongo_calls. revert s.
  induction calls as [|call calls IH]; intros s Hinv Hpr Hmk; [done|].
  apply Forall_cons in Hpr as [Hp Hpr]. apply Forall_cons in Hmk as [Hm Hmk].
  cbn [foldl]. apply IH; [|done..].
  eapply flags_invariant_evolves; [|done].
  eapply evolves_mono; [| |apply mongo_call_evolves; by destruct Hinv].
  - intros b. by apply mongo_inserts_free.
  - done.
Qed.

Lemma sqlite_calls_flags marking (calls : list (SqliteCall P)) (t : Sqlite.Table) :
  flags_invariant marking t →
  Forall (λ call, is_sqlite_mark call = true → marking = true) calls →
  flags_invariant marking (sqlite_calls calls t).
Proof.
  unfold sqlite_calls. revert t.
  induction calls as [|call calls IH]; intros t Hinv Hmk; [done|].
  apply Forall_cons in Hmk as [Hm Hmk].
  cbn [foldl]. apply IH; [|done].
  eapply flags_invariant_evolves; [|done].
  eapply evolves_mono; [| |apply sqlite_call_evolves; by destruct Hinv].
  - intros b. by apply sqlite_inserts_free.
  - done.
Qed.

Lemma flags_invariant_held_or_marked {D} (s : Store D) :
  flags_invariant true s → used_items_are_held_or_marked s.
Proof.
  intros (_ & _ & Hused) d Hd Hu. destruct (Hused d Hd Hu) as [?|(_ & ? & ?)]; auto.
Qed.

Lemma flags_invariant_held {D} (s : Store D) :
  flags_invariant false s → used_items_are_held s.
Proof.
  intros (_ & _ & Hused) d Hd Hu. by destruct (Hused d Hd Hu) as [?|(? & _)].
Qed.
End FlagsOfCalls.

(** C5, as amended.  In every state of a collection that calls of
    [getItemFromCollection] (of either generation), [createItems],
    [initializeCollections], [markAllItemsAsUsed] and [deleteItemsByUser]
    produce from the empty collection, with sample data that are unused and
    unassigned on MongoDB, an item with [used = true] either is assigned to
    the user of its last assignment, or is unassigned and was set to used by
    [markAllItemsAsUsed].  Without calls of [markAllItemsAsUsed] every used
    item is assigned to the user of its last assignment. *)
Theorem C5_used_items_are_held_or_were_marked {P : Type} `{Bson P} `{Json P} :
  (∀ calls : list (MongoCall P),
     Forall mongo_pristine calls →
     used_items_are_held_or_marked (mongo_calls calls empty_store)
     ∧ (Forall (λ call, is_mongo_mark call = false) calls →
        used_items_are_held (mongo_calls calls empty_store)))
  ∧ (∀ calls : list (SqliteCall P),
     used_items_are_held_or_marked (sqlite_calls calls empty_store)
     ∧ (Forall (λ call, is_sqlite_mark call = false) calls →
        used_items_are_held (sqlite_calls calls empty_store))).
Proof.
  split.
  - intros calls Hpr. split.
    + apply flags_invariant_held_or_marked, mongo_calls_flags;
        [apply flags_invariant_empty|done|by apply Forall_forall].
    + intros Hno. apply flags_invariant_held, mongo_calls_flags;
        [apply flags_invariant_empty|done|].
      eapply Forall_impl; [exact Hno|]. intros c Hc. congruence.
  - intros calls. split.
    + apply flags_invariant_held_or_marked, sqlite_calls_flags;
        [apply flags_invariant_empty|by apply Forall_forall].
    + intros Hno. apply flags_invariant_held, sqlite_calls_flags;
        [apply flags_invariant_empty|].
      eapply Forall_impl; [exact Hno|]. intros c Hc. congruence.
Qed.

(** The events are seeded, alice and bob get an item each, and the rest is
    marked as used. *)
Lemma C5_events_assigned_then_marked :
  used_items_are_held_or_marked
    (mongo_calls [MongoInitialize eventSampleData;
                  MongoGetItemV1 "events" "alice" eventSampleData;
                  MongoGetItem "events" "bob" eventSampleData (mkRandom 1 1);
                  MongoMarkAll] empty_store).
Proof.
  destruct (C5_used_items_are_held_or_were_marked (P:=MessageData)) as [Hmongo _].
  apply Hmongo. repeat constructor.
Defined.

(** C5, as stated, fails: after the seeding, [markAllItemsAsUsed] leaves
    items that are used and assigned to nobody. *)
Lemma C5_marked_items_are_used_and_unassigned :
  ¬ used_items_are_held
      (mongo_calls [MongoInitialize eventSampleData; MongoMarkAll] empty_store)
  ∧ ¬ used_items_are_held
        (sqlite_calls (P:=MessageData)
           [SqliteInitialize eventSampleData 0; SqliteMarkAll] empty_store).
Proof.
  split.
  - intros Hheld.
    destruct (Hheld (mkStored 0 (mkItem (mkMessage "Event 1") true None None None)))
      as (u & Hu & _); [by left|done|done].
  - intros Hheld.
    destruct (Hheld (mkStored 0 (mkItem (JSON_stringify (mkMessage "Event 1"))
                                   true None None (Some 0))))
      as (u & Hu & _); [by left|done|done].
Qed.

(** ** C6: the payload of an item along the life of a collection *)

Section Data.
Context {D : Type}.
Implicit Types (s : Store D) (ok : BaseItem D → Prop) (d : Stored D).


Lemma mutation_data ok marking s s' :
  mutation ok marking s s' →
  (nextId s ≤ nextId s')%nat ∧ ∀ d', d' ∈ docs s' → kept_or_inserted ok s d'.
Proof.
  intros Hm. destruct Hm as [s batch Hok|s i u|s|s Hmark|s u].
  - cbn [insert_all docs nextId]. split; [lia|].
    intros d' [Hd|Hd]%elem_of_app; [left; eauto|]. right.
    assert (_id d' ∈ ids (number (nextId s) batch)) as Hid
      by (unfold ids; apply list_elem_of_fmap; eauto).
    rewrite ids_number in Hid. apply elem_of_seq in Hid. split; [lia|].
    exists d'. split; [|done].
    apply (Forall_number ok (nextId s)) in Hok. rewrite Forall_forall in Hok. auto.
  - split; [done|]. intros d' (d & -> & Hd)%list_elem_of_fmap. left. exists d.
    by destruct (by_id i d).
  - split; [done|]. intros d' (d & -> & Hd)%list_elem_of_fmap. left. by exists d.
  - split; [done|]. intros d' (d & -> & Hd)%list_elem_of_fmap. left. exists d.
    by destruct (unused d).
  - split; [done|]. intros d' [_ Hd]%list_elem_of_filter. left. by exists d'.
Qed.

Lemma evolves_data ok marking s s' :
  evolves ok marking s s' →
  (nextId s ≤ nextId s')%nat ∧ ∀ d', d' ∈ docs s' → kept_or_inserted ok s d'.
Proof.
  induction 1 as [s|s s1 s' Hm _ [Hle IH]].
  - split; [done|]. intros d' Hd. left. by exists d'.
  - destruct (mutation_data _ _ _ _ Hm) as [Hle1 H1]. split; [lia|].
    intros d' Hd'. destruct (IH d' Hd') as [(d1 & Hd1 & Hid & Hdata)|[Hnew Hb]].
    + destruct (H1 d1 Hd1) as [(d & Hd & Hid0 & Hdata0)|[Hnew (b & Hb & Hdb)]].
      * left. exists d. split_and!; [done|congruence..].
      * right. split; [lia|]. exists b. split; [done|congruence].
    + right. split; [lia|done].
Qed.



End Data.

Section DataOfCalls.
Context {P : Type} `{Bson P} `{Json P}.






Lemma mongo_calls_evolves (calls : list (MongoCall P)) (s : Store P) :
  wf s → evolves (λ _, True) true s (mongo_calls calls s).
Proof.
  unfold mongo_calls. revert s. induction calls as [|call calls IH]; intros s Hwf.
  - apply rtc_refl.
  - cbn [foldl].
    assert (evolves (λ _, True) true s (mongo_call call s)) as Hstep.
    { eapply evolves_mono; [| |by apply mongo_call_evolves]; [done|].
      by destruct (is_mongo_mark call). }
    etrans; [exact Hstep|]. apply IH. eauto using evolves_wf.
Qed.

Lemma sqlite_calls_evolves (calls : list (SqliteCall P)) (t : Sqlite.Table) :
  wf t → evolves (λ _, True) true t (sqlite_calls calls t).
Proof.
  unfold sqlite_calls. revert t. induction calls as [|call calls IH]; intros t Hwf.
  - apply rtc_refl.
  - cbn [foldl].
    assert (evolves (λ _, True) true t (sqlite_call_on call t)) as Hstep.
    { eapply evolves_mono; [| |by apply sqlite_call_evolves]; [done|].
      by destruct (is_sqlite_mark call). }
    etrans; [exact Hstep|]. apply IH. eauto using evolves_wf.
Qed.


Lemma sqlite_inserts_payload (call : SqliteCall P) b :
  sqlite_inserts call b → ∃ p, p ∈ sqlite_payloads call ∧ data b = JSON_stringify p.
Proof.
  destruct call as [name u sd r now|u items now|sd now| |u];
    cbn [sqlite_inserts sqlite_payloads]; try done.
  - intros (sample & Hs & ->). exists (data sample). split; [|done].
    apply list_elem_of_fmap. by exists sample.
  - intros (p & Hp & ->). by exists p.
  - intros (sample & Hs & ->). exists (data sample). split; [|done].
    apply list_elem_of_fmap. by exists sample.
Qed.

End DataOfCalls.


(** ** The JSON text of a message is read back as the message *)

Module MessageJsonFacts.
Import MessageJson.

Lemma append_assoc (a b c : string) : (a +:+ b) +:+ c = a +:+ (b +:+ c).
Proof.
  induction a as [|x a IH]; [done|].
  change (String x ((a +:+ b) +:+ c) = String x (a +:+ (b +:+ c))). by rewrite IH.
Qed.

Lemma unquote_quote_char (c : ascii) (tail : string) :
  unquote_chars (quote_char c +:+ tail) = cons_char c (unquote_chars tail).
Proof.
  destruct c as [[] [] [] [] [] [] [] []]; reflexivity.
Qed.

Lemma unquote_quote_chars (m rest : string) :
  unquote_chars (quote_chars m +:+ String dquote rest) = Some (m, rest).
Proof.
  induction m as [|c m IH]; [done|].
  cbn [quote_chars]. rewrite append_assoc, unquote_quote_char, IH. done.
Qed.

Lemma strip_prefix_append (p x : string) : strip_prefix p (p +:+ x) = Some x.
Proof.
  induction p as [|a p IH]; [by destruct x|].
  change (strip_prefix (String a p) (String a (p +:+ x)) = Some x).
  cbn [strip_prefix]. by rewrite decide_True.
Qed.

Lemma parse_stringify (d : MessageData) : parse (stringify d) = Some d.
Proof.
  destruct d as [m]. unfold parse, stringify, quote. cbn [message].
  set (opening := "{" +:+ _ +:+ ":" +:+ String dquote "").
  change (match strip_prefix opening
                  (opening +:+ ((quote_chars m +:+ String dquote "") +:+ "}")) with
          | Some body =>
              match unquote_chars body with
              | Some (m0, "}") => Some (mkMessage m0)
              | _ => None
              end
          | None => None
          end = Some (mkMessage m)).
  rewrite strip_prefix_append, append_assoc.
  change (String dquote "" +:+ "}") with (String dquote "}").
  by rewrite unquote_quote_chars.
Qed.
End MessageJsonFacts.

(** Every payload [{ message }] is represented faithfully. *)
Lemma MessageData_round_trips (d : MessageData) : round_trips d.
Proof. apply MessageJsonFacts.parse_stringify. Qed.



(** ** The states the operations reach satisfy what C1 and C3 assume *)

Section Reachable.
Context {P : Type} `{Bson P} `{Json P}.

Lemma mongo_calls_wf (calls : list (MongoCall P)) : wf (mongo_calls calls empty_store).
Proof. eapply evolves_wf; [apply mongo_calls_evolves|]; apply wf_empty. Qed.

Lemma sqlite_calls_wf (calls : list (SqliteCall P)) : wf (sqlite_calls calls empty_store).
Proof. eapply evolves_wf; [apply sqlite_calls_evolves|]; apply wf_empty. Qed.

Lemma evolves_readable ok marking (t t' : Sqlite.Table) :
  (∀ b, ok b → is_Some (JSON_parse (data b) : option P)) →
  evolves ok marking t t' → readable (P:=P) t → readable (P:=P) t'.
Proof.
  intros Hok Hev Hr. unfold readable in *. rewrite Forall_forall in *.
  intros d' Hd'. destruct (evolves_data _ _ _ _ Hev) as [_ Hdata].
  unfold payload_sqlite.
  destruct (Hdata d' Hd') as [(d & Hd & _ & <-)|[_ (b & Hb & <-)]].
  - by apply Hr.
  - by apply Hok.
Qed.

(** With payloads that JSON represents faithfully, every row of a table
    the operations have filled is read back. *)
Lemma sqlite_calls_readable (calls : list (SqliteCall P)) :
  (∀ p : P, round_trips p) → readable (P:=P) (sqlite_calls calls empty_store).
Proof.
  intros Hround. unfold sqlite_calls.
  assert (∀ t, wf t → readable (P:=P) t →
               readable (P:=P) (foldl (λ t call, sqlite_call_on call t) t calls)) as Hgen.
  { induction calls as [|call calls IH]; intros t Hwf Hr; [done|].
    cbn [foldl]. pose proof (sqlite_call_evolves call t Hwf) as Hev.
    apply IH; [eauto using evolves_wf|].
    eapply evolves_readable; [|exact Hev|done].
    intros b (p & _ & ->)%sqlite_inserts_payload. rewrite Hround. by eexists. }
  apply Hgen; [apply wf_empty|]. by apply Forall_nil.
Qed.
End Reachable.

(** ** The operations of the second generation, from their branches

    Every operation is [getCollection] followed by one of its branches on
    the collection or on the table: what the theorems above say of the
    branches holds of the operations on a client. *)

Section Dispatch.
Context {P : Type} `{Bson P} `{Json P}.

Lemma V2_operations_on_store name u sd r now items :
  V2.getItemFromCollection name u sd r now
    = on_store name (V2.getItemFromCollection_mongodb name u sd r)
        (V2.getItemFromCollection_sqlite name u sd r now)
  ∧ (items ≠ [] →
     V2.createItems name u items now
     = on_store name (V2.createItems_mongodb u items now)
         (V2.createItems_sqlite u items now))
  ∧ V2.markAllItemsAsUsed (P:=P) name
    = on_store name V2.markAllItemsAsUsed_mongodb V2.markAllItemsAsUsed_sqlite
  ∧ V2.deleteItemsByUser (P:=P) name u
    = on_store name (V2.deleteItemsByUser_mongodb u) (V2.deleteItemsByUser_sqlite u).
Proof. split_and!; try reflexivity. by destruct items. Qed.

Lemma on_store_mongodb {A} name (mongo : M (Store P) A) (sqlite : M Sqlite.Table A)
    (c : MongoDBClient P) :
  let d := database (dbName c) (client c) in
  on_store name mongo sqlite (OfMongoDB c)
  = (OfMongoDB (mkMongoDBClient
                  (<[dbName c := <[name := (mongo (collection name d)).1]> d]> (client c))
                  (dbName c) (isConnectedFlag c)),
     (mongo (collection name d)).2).
Proof.
  cbv zeta. unfold on_store, getCollection, on_mongodb, MongoDBClientImpl.getCollection,
    instanceof_Collection, on_db, on_collection, zoom. run.
  by destruct (mongo _).
Qed.

Lemma on_store_sqlite {A} name (mongo : M (Store P) A) (sqlite : M Sqlite.Table A)
    (c : SQLiteClient) (t : Sqlite.Table) :
  db_open c = true → tables c !! name = Some t →
  on_store name mongo sqlite (OfSQLite c)
  = (OfSQLite (mkSQLiteClient true (dbFile c) (<[name := (sqlite t).1]> (tables c))),
     (sqlite t).2).
Proof.
  intros Hopen Ht. unfold on_store, getCollection, on_mongodb,
    SQLiteClientImpl.getCollection, instanceof_Collection, Sqlite.with_table. run.
  rewrite Hopen. cbn [negb]. run. rewrite Ht, Hopen. by destruct (sqlite t).
Qed.

Lemma on_store_sqlite_not_connected {A} name (mongo : M (Store P) A)
    (sqlite : M Sqlite.Table A) (c : SQLiteClient) :
  db_open c = false →
  on_store name mongo sqlite (OfSQLite c)
  = (OfSQLite c, Thrown (Error "Database not connected")).
Proof.
  intros Hopen. unfold on_store, getCollection, on_mongodb,
    SQLiteClientImpl.getCollection. run. by rewrite Hopen.
Qed.

(** [createItems] for no item runs no statement on SQLite; it is the frame
    around its branches on every client but a connected [SQLiteClient]
    without the table. *)
Lemma createItems_on_store name u items now cl :
  (items = [] → ∀ c, cl = OfSQLite c → db_open c = true → is_Some (tables c !! name)) →
  V2.createItems name u items now cl
  = on_store name (V2.createItems_mongodb u items now)
      (V2.createItems_sqlite u items now) cl.
Proof.
  destruct items as [|item items]; [|reflexivity]. intros Htable.
  destruct cl as [c|c].
  - unfold V2.createItems, on_store, getCollection, on_mongodb,
      MongoDBClientImpl.getCollection, instanceof_Collection. by run.
  - unfold V2.createItems, on_store, getCollection, on_mongodb,
      SQLiteClientImpl.getCollection, instanceof_Collection, Sqlite.with_table,
      V2.createItems_sqlite_none. run.
    destruct (db_open c) eqn:Hopen; cbn [negb]; run; [|done].
    destruct (Htable eq_refl c eq_refl Hopen) as [t Ht]. rewrite Ht. cbn.
    by rewrite insert_id.
Qed.

Lemma createItems_none_sqlite name u now (c : SQLiteClient) :
  db_open c = true →
  V2.createItems (P:=P) name u [] now (OfSQLite c)
  = (OfSQLite c, Returned (mkResponse true (InsertedData 0 []))).
Proof.
  intros Hopen. unfold V2.createItems, getCollection, on_mongodb,
    SQLiteClientImpl.getCollection, instanceof_Collection, V2.createItems_sqlite_none.
  run. rewrite Hopen. cbn [negb]. run. by destruct c as [o f ts]; cbn in *; subst.
Qed.

Lemma createItems_cases name u items now cl :
  V2.createItems name u items now cl
  = on_store name (V2.createItems_mongodb u items now)
      (V2.createItems_sqlite u items now) cl
  ∨ (items = []
     ∧ V2.createItems name u items now cl
       = (cl, Returned (mkResponse true (InsertedData 0 [])))).
Proof.
  destruct items as [|item items]; [|by left].
  destruct cl as [c|c]; [left; by apply createItems_on_store|].
  destruct (db_open c) eqn:Hopen.
  - destruct (tables c !! name) as [t|] eqn:Ht.
    + left. apply createItems_on_store. intros _ c' [= <-] _. by rewrite Ht.
    + right. split; [done|]. by apply createItems_none_sqlite.
  - left. apply createItems_on_store. intros _ c' [= <-]. congruence.
Qed.

(** The first generation has the MongoDB branches of the second one. *)
Lemma V1_operations u items now sd :
  V1.createItems (P:=P) u items now = V2.createItems_mongodb u items now
  ∧ V1.initializeCollections_callback (P:=P) sd = V2.initializeCollections_mongodb sd.
Proof. split; reflexivity. Qed.
End Dispatch.

(* ===================================================================== *)
(** * Further properties of the operations *)
(* ===================================================================== *)

(** ** The second generation at [Math.random() = 0] *)

Lemma randomIndex_zero g len : randomIndex (mkRandom 0 g) len = 0.
Proof. unfold randomIndex. simpl. apply Nat.Div0.div_0_l. Qed.

Lemma select_zero {A B} (l : list A) (f : A → B) (z e : B) :
  (if (0 <? length l)%nat
   then match l !! 0 with Some x => f x | None => z end
   else e)
  = match head l with Some x => f x | None => e end.
Proof. by destruct l. Qed.

Lemma at_zero {P} name u g (s : Store P) :
  (if (0 <? length (matching (candidate u) s))%nat
   then match matching (candidate u) s
                !! randomIndex (mkRandom 0 g) (length (matching (candidate u) s)) with
        | Some item =>
            λ s0, (update_first (by_id (_id item)) (set_assign u) s0,
                   Returned (mkResponse true (ItemData (data item))))
        | None => λ s0, (s0, Thrown TypeError)
        end
   else
     λ s0,
       (if (0 <? length (matching everything (update_where everything set_reset s0)))%nat
        then match matching everything (update_where everything set_reset s0)
                     !! randomIndex (mkRandom 0 g)
                          (length (matching everything
                                     (update_where everything set_reset s0))) with
             | Some item =>
                 λ s1, (update_first (by_id (_id item)) (set_assign u) s1,
                        Returned (mkResponse true (ItemData (data item))))
             | None => λ s1, (s1, Thrown TypeError)
             end
        else λ s1, (s1, Returned (no_items_available name)))
         (update_where everything set_reset s0)) s
  = match head (matching (candidate u) s) with
    | Some item =>
        λ s0, (update_first (by_id (_id item)) (set_assign u) s0,
               Returned (mkResponse true (ItemData (data item))))
    | None =>
        λ s0,
          match head (matching everything (update_where everything set_reset s0)) with
          | Some resetItem =>
              λ s1, (update_first (by_id (_id resetItem)) (set_assign u) s1,
                     Returned (mkResponse true (ItemData (data resetItem))))
          | None => λ s1, (s1, Returned (no_items_available name))
          end (update_where everything set_reset s0)
    end s.
Proof.
  rewrite !randomIndex_zero, select_zero.
  destruct (head (matching (candidate u) s)); [done|].
  by rewrite !randomIndex_zero, select_zero.
Qed.

(** X1. When [Math.random()] gives 0, the MongoDB branch of the second
    generation of [getItemFromCollection] does what the first generation
    does, on every collection: the same documents, the same journal and
    the same answer. *)
Theorem V2_mongodb_at_random_zero_is_V1 {P : Type} `{Bson P} (collectionName : string)
    (userId : UserId) (sampleData : list (BaseItem P)) (gap : nat) (s : Store P) :
  V2.getItemFromCollection_mongodb collectionName userId sampleData (mkRandom 0 gap) s
  = V1.getItemFromCollection collectionName userId sampleData s.
Proof.
  unfold V2.getItemFromCollection_mongodb, V1.getItemFromCollection. run.
  destruct (decide (length (docs s) = 0)) as [Hz|Hz]; run.
  - destruct sampleData as [|b sd]; [done|].
    generalize (insert_all (b :: sd) s). intros s1. by apply at_zero.
  - by apply at_zero.
Qed.

(** ** The two backends hold and answer the same *)

Section Agreement.
Context {P : Type} `{Bson P} `{Json P}.
Implicit Types (s : Store P) (t : Sqlite.Table) (l : list (Stored P))
  (k : list (Stored string)) (u : UserId).

Lemma stored_as_update f (d : Stored P) (row : Stored string) :
  stored_as d row → stored_as (update f d) (update f row).
Proof.
  intros (Hd & Hu & Ha & Hc). unfold stored_as. cbn.
  destruct f as [[b|] [a|]]; cbn; split_and!; congruence.
Qed.

Lemma stored_as_candidate u (d : Stored P) (row : Stored string) :
  stored_as d row → candidate u d = candidate u row.
Proof. intros (_ & Hu & Ha & _). unfold candidate. by rewrite Hu, Ha. Qed.

Lemma stored_as_unused (d : Stored P) (row : Stored string) :
  stored_as d row → unused d = unused row.
Proof. intros (_ & Hu & _). unfold unused. by rewrite Hu. Qed.

Lemma stored_as_created_by u (d : Stored P) (row : Stored string) :
  stored_as d row → created_by u d = created_by u row.
Proof. intros (_ & _ & _ & Hc). unfold created_by. by rewrite Hc. Qed.

Lemma stored_as_filter (Q : Stored P → Prop) (Q' : Stored string → Prop)
    `{∀ d, Decision (Q d)} `{∀ row, Decision (Q' row)} l k :
  (∀ d row, stored_as d row → Q d ↔ Q' row) →
  Forall2 stored_as l k → Forall2 stored_as (filter Q l) (filter Q' k).
Proof.
  intros HQ Hlk. induction Hlk as [|d row l k Hd Hlk IH]; [constructor|].
  rewrite !filter_cons. destruct (decide (Q d)) as [Hq|Hq].
  - rewrite decide_True by by apply (HQ d row). by constructor.
  - rewrite decide_False by by rewrite <- (HQ d row). done.
Qed.

(** The [n]th matches of the two sides are at the same place. *)
Lemma stored_as_filter_lookup (Q : Stored P → Prop) (Q' : Stored string → Prop)
    `{∀ d, Decision (Q d)} `{∀ row, Decision (Q' row)} l k n d row :
  (∀ d row, stored_as d row → Q d ↔ Q' row) →
  Forall2 stored_as l k →
  filter Q l !! n = Some d → filter Q' k !! n = Some row →
  ∃ j, l !! j = Some d ∧ k !! j = Some row.
Proof.
  intros HQ Hlk. revert n. induction Hlk as [|d0 row0 l k Hd Hlk IH]; intros n.
  - by rewrite filter_nil, lookup_nil.
  - rewrite !filter_cons. destruct (decide (Q d0)) as [Hq|Hq].
    + rewrite decide_True by by apply (HQ d0 row0).
      destruct n as [|n]; cbn.
      * intros [= <-] [= <-]. by exists 0.
      * intros Hl Hk. destruct (IH n Hl Hk) as (j & ? & ?). by exists (S j).
    + rewrite decide_False by by rewrite <- (HQ d0 row0).
      intros Hl Hk. destruct (IH n Hl Hk) as (j & ? & ?). by exists (S j).
Qed.

Lemma by_id_lookup {D} (l : list (Stored D)) i j (x d : Stored D) :
  NoDup (ids l) → l !! i = Some x → l !! j = Some d →
  by_id (_id d) x = bool_decide (i = j).
Proof.
  intros Hnd Hi Hj. unfold by_id. apply bool_decide_ext. split.
  - intros Heq. eapply NoDup_lookup; [exact Hnd| |].
    + unfold ids. rewrite list_lookup_fmap, Hi. done.
    + unfold ids. rewrite list_lookup_fmap, Hj. cbn. by rewrite Heq.
  - intros ->. congruence.
Qed.

Lemma assign_same u l k j (d : Stored P) (row : Stored string) :
  Forall2 stored_as l k → NoDup (ids l) → NoDup (ids k) →
  l !! j = Some d → k !! j = Some row →
  Forall2 stored_as
    ((λ x, if by_id (_id d) x then update (set_assign u) x else x) <$> l)
    ((λ y, if by_id (_id row) y then update (set_assign u) y else y) <$> k).
Proof.
  intros Hlk Hl Hk Hd Hrow. apply Forall2_same_length_lookup. split.
  - rewrite !length_fmap. by eapply Forall2_length.
  - intros i x' y'. rewrite !list_lookup_fmap.
    destruct (l !! i) as [x|] eqn:Hx; [|done].
    destruct (k !! i) as [y|] eqn:Hy; [|done].
    cbn. intros [= <-] [= <-].
    rewrite (by_id_lookup l i j x d), (by_id_lookup k i j y row) by done.
    pose proof (Forall2_lookup_lr _ _ _ _ _ _ Hlk Hx Hy) as Hxy.
    destruct (bool_decide (i = j)); [by apply stored_as_update|done].
Qed.

Lemma rotate_same r u s t :
  wf s → wf t → same_items s t →
  same_items (rotate (pick_random r) u s).1 (rotate (pick_random r) u t).1
  ∧ option_Forall2 stored_as (rotate (pick_random r) u s).2
      (rotate (pick_random r) u t).2.
Proof.
  intros [Hs _] [Ht _] Hst. unfold same_items in *. unfold rotate, pick_random, matching.
  assert (∀ d row, stored_as d row → candidate u d = true ↔ candidate u row = true)
    as Hcand by (intros d row Hd; by rewrite (stored_as_candidate u d row)).
  pose proof (stored_as_filter _ _ _ _ Hcand Hst) as Hm.
  rewrite <- (Forall2_length _ _ _ Hm).
  set (n := randomIndex r _).
  destruct (filter _ (docs s) !! n) as [d|] eqn:Hd.
  - destruct (Forall2_lookup_l _ _ _ _ _ Hm Hd) as (row & Hrow & Hdr).
    rewrite Hrow. cbn [fst snd update_where docs]. split; [|by constructor].
    destruct (stored_as_filter_lookup _ _ _ _ n d row Hcand Hst Hd Hrow) as (j & ? & ?).
    by apply assign_same with (j := j).
  - assert (filter (λ row, candidate u row = true) (docs t) !! n = None) as ->.
    { destruct (filter _ (docs t) !! n) as [row|] eqn:Hrow; [|done].
      destruct (Forall2_lookup_r _ _ _ _ _ Hm Hrow) as (d & Hd' & _). congruence. }
    cbv zeta. rewrite !docs_reset.
    assert (Forall2 stored_as (update set_reset <$> docs s) (update set_reset <$> docs t))
      as Hreset.
    { apply Forall2_fmap. eapply Forall2_impl; [exact Hst|].
      intros d row. apply stored_as_update. }
    rewrite !length_fmap, <- (Forall2_length _ _ _ Hst).
    set (m := randomIndex r _).
    destruct ((update set_reset <$> docs s) !! m) as [d|] eqn:Hd'.
    + destruct (Forall2_lookup_l _ _ _ _ _ Hreset Hd') as (row & Hrow & Hdr).
      rewrite Hrow. cbn [fst snd]. split; [|by constructor].
      rewrite <- docs_reset in Hd', Hreset. rewrite <- docs_reset in Hrow, Hreset.
      apply (assign_same u _ _ m d row Hreset); try done.
      * cbn [update_where docs]. by rewrite ids_update_where.
      * cbn [update_where docs]. by rewrite ids_update_where.
    + assert ((update set_reset <$> docs t) !! m = None) as Hnone.
      { destruct ((update set_reset <$> docs t) !! m) as [row|] eqn:Hrow; [|done].
        destruct (Forall2_lookup_r _ _ _ _ _ Hreset Hrow) as (d & Hd'' & _). congruence. }
      rewrite Hnone. cbn [fst snd]. rewrite !docs_reset. split; [done|constructor].
Qed.
End Agreement.

Lemma filter_Forall_id {A} (Q : A → Prop) `{∀ x, Decision (Q x)} (l : list A) :
  Forall Q l → filter Q l = l.
Proof.
  induction 1 as [|x l Hx Hl IH]; [done|].
  rewrite filter_cons, decide_True by done. by rewrite IH.
Qed.

(** [updateMany({ used: false }, { $set: { used: true } })] modifies every
    document it matches. *)
Lemma marked_all_change {D} (s : Store D) :
  filter (λ d : Stored D, changes set_mark d = true) (matching unused s)
  = matching unused s.
Proof.
  apply filter_Forall_id, Forall_forall. intros d [Hd _]%list_elem_of_filter.
  unfold unused in Hd. apply negb_true_iff in Hd. unfold changes. cbn. by rewrite Hd.
Qed.

Section AgreementOfCalls.
Context {P : Type} `{Bson P} `{Json P}.
Implicit Types (s : Store P) (t : Sqlite.Table) (u : UserId).

Lemma for_each_push_created u now (items : list P) t :
  for_each_push items (λ item, Sqlite.insert_created (JSON_stringify item) u now) t
  = (insert_each (created_row u now <$> items) t,
     Returned (seq (nextId t) (length items))).
Proof.
  revert t. induction items as [|p items IH]; intros t; [done|].
  cbn [for_each_push]. run. rewrite IH. cbn [insert_all nextId length seq].
  by rewrite Nat.add_1_r.
Qed.

Lemma number_stored_as n m (batch : list (BaseItem P)) (rows : list (BaseItem string)) :
  Forall2 (λ b row, data row = JSON_stringify (data b) ∧ used row = used b
                    ∧ assignedTo row = assignedTo b ∧ createdBy row = createdBy b)
    batch rows →
  Forall2 stored_as (number n batch) (number m rows).
Proof.
  intros Hall. revert n m. induction Hall as [|b row batch rows Hb Hall IH]; intros n m.
  - constructor.
  - cbn [number]. constructor; [exact Hb|apply IH].
Qed.

Lemma seeds_stored_as n m now (sd : list (BaseItem P)) :
  Forall pristine sd → Forall (λ b, stored_as_given (data b)) sd →
  Forall2 stored_as (number n (stored_document <$> sd)) (number m (seed_row now <$> sd)).
Proof.
  intros Hpr Hgiven. apply number_stored_as. apply Forall2_fmap, Forall_Forall2_diag.
  rewrite Forall_forall in *. intros b Hb.
  destruct (Hpr b Hb) as (Hu & Ha & Hc). cbn. rewrite Hu, Ha, Hc. by rewrite (Hgiven b Hb).
Qed.

Lemma created_stored_as n m u now (items : list P) :
  Forall stored_as_given items →
  Forall2 stored_as
    (number n (stored_document
                 <$> ((λ item, mkItem item false None (Some u) (Some now)) <$> items)))
    (number m (created_row u now <$> items)).
Proof.
  intros Hgiven. apply number_stored_as. rewrite <- list_fmap_compose.
  apply Forall2_fmap, Forall_Forall2_diag.
  eapply Forall_impl; [exact Hgiven|]. intros p Hp. cbn. by rewrite Hp.
Qed.

Lemma respond_same name (i : option (Stored P)) (j : option (Stored string)) :
  from_option (λ d : Stored P, round_trips (data d)) True i →
  option_Forall2 stored_as i j →
  respond_with payload_mongodb name i = respond_with payload_sqlite name j.
Proof.
  intros Hround Hij. destruct Hij as [d row (Hd & _)|]; [|done]. cbn in Hround.
  unfold respond_with, payload_mongodb, payload_sqlite. by rewrite Hd, Hround.
Qed.

(** The item the rotation hands out has the payload of an item of the
    collection. *)
Lemma rotate_item_data (pick : list (Stored P) → option (Stored P)) `{!Picker pick}
    u s it :
  (rotate pick u s).2 = Some it → ∃ d : Stored P, d ∈ docs s ∧ data it = data d.
Proof.
  unfold rotate. destruct (pick (matching (candidate u) s)) as [c|] eqn:Hp.
  - cbn [snd]. intros [= <-]. apply pick_elem_of, list_elem_of_filter in Hp as [_ Hc].
    by exists c.
  - cbv zeta. destruct (pick (docs (update_where everything set_reset s))) as [c|] eqn:Hr;
      [|done].
    cbn [snd]. intros [= <-]. apply pick_elem_of in Hr. rewrite docs_reset in Hr.
    apply list_elem_of_fmap in Hr as (d & -> & Hd). by exists d.
Qed.

Lemma rotate_same_choice {D} r r' u (s : Store D) :
  same_choice r r' → rotate (pick_random r') u s = rotate (pick_random r) u s.
Proof. intros Hsame. unfold rotate, pick_random. by rewrite !Hsame. Qed.

Lemma same_items_nil s t : same_items s t → docs s = [] ↔ docs t = [].
Proof.
  unfold same_items. intros Hst. split; intros Hnil; rewrite Hnil in Hst.
  - by apply Forall2_nil_inv_l in Hst.
  - by apply Forall2_nil_inv_r in Hst.
Qed.

Lemma getItem_same name u sd r r' now s t :
  same_choice r r' → Forall (λ d : Stored P, round_trips (data d)) (docs s) →
  wf s → wf t → same_items s t → docs s ≠ [] →
  let m := V2.getItemFromCollection_mongodb name u sd r s in
  let q := V2.getItemFromCollection_sqlite name u sd r' now t in
  same_items m.1 q.1 ∧ m.2 = q.2.
Proof.
  intros Hchoice Hround Hs Ht Hst Hne. cbv zeta.
  rewrite V2_getItem_mongodb_rotate, V2_getItem_sqlite_rotate by done. cbv zeta.
  rewrite seeded_table_ne by by rewrite <- (same_items_nil s t).
  rewrite (rotate_same_choice r r') by done.
  cbn [fst snd]. destruct (rotate_same r u s t Hs Ht Hst) as [Hdocs Hitem].
  split; [done|]. apply respond_same; [|done].
  destruct (rotate (pick_random r) u s).2 as [it|] eqn:Hit; [|done]. cbn.
  destruct (rotate_item_data _ u s it Hit) as (d & Hd & ->).
  rewrite Forall_forall in Hround. by apply Hround.
Qed.

Lemma seeded_same sd now s t :
  Forall pristine sd → Forall (λ b, stored_as_given (data b)) sd →
  docs s = [] → docs t = [] →
  same_items (insert_all (stored_document <$> sd) s)
             (insert_each (seed_row now <$> sd) t).
Proof.
  intros Hpr Hgiven Hs Ht. unfold same_items.
  rewrite docs_insert_all_nil, docs_insert_each_nil by done. by apply seeds_stored_as.
Qed.
End AgreementOfCalls.

(** X2. The MongoDB branch and the SQLite branch of an operation do the
    same, as far as their stores represent the payloads faithfully.  On a
    collection and a table that hold the same items in the same order (the
    [data] cell being the JSON text of the payload), for stored payloads
    that JSON reads back as they are, for new payloads and sample data that
    BSON stores as they are given and JSON reads back as they are, and for
    sample data that are unused, unassigned and without a creator: the two
    branches of [createItems], of [markAllItemsAsUsed], of
    [deleteItemsByUser] and of the callback of [initializeCollections]
    leave a collection and a table that hold the same items again and
    answer the same (the same counts); and so do the two branches of
    [getItemFromCollection] (the same payload) whenever [Math.random()] on
    one side and [RANDOM()] on the other point at the same place among the
    candidates, which nothing in the code ensures.  The cases in which the
    MongoDB driver rejects an empty batch are left out. *)
Theorem the_backends_agree {P : Type} `{Bson P} `{Json P} (s : Store P) (t : Sqlite.Table) :
  wf s → wf t → same_items s t →
  Forall (λ d : Stored P, round_trips (data d)) (docs s) →
  (∀ name u sd r r' now,
     same_choice r r' →
     Forall pristine sd →
     Forall (λ b, stored_as_given (data b) ∧ round_trips (data b)) sd →
     (docs s = [] → sd ≠ []) →
     let m := V2.getItemFromCollection_mongodb name u sd r s in
     let q := V2.getItemFromCollection_sqlite name u sd r' now t in
     same_items m.1 q.1 ∧ m.2 = q.2)
  ∧ (∀ u items now, items ≠ [] → Forall stored_as_given items →
     let m := V2.createItems_mongodb u items now s in
     let q := V2.createItems_sqlite u items now t in
     same_items m.1 q.1 ∧ same_response m.2 q.2)
  ∧ (let m := V2.markAllItemsAsUsed_mongodb (P:=P) s in
     let q := V2.markAllItemsAsUsed_sqlite (P:=P) t in
     same_items m.1 q.1 ∧ m.2 = q.2)
  ∧ (∀ u,
     let m := V2.deleteItemsByUser_mongodb (P:=P) u s in
     let q := V2.deleteItemsByUser_sqlite (P:=P) u t in
     same_items m.1 q.1 ∧ m.2 = q.2)
  ∧ (∀ sd now, Forall pristine sd → Forall (λ b, stored_as_given (data b)) sd →
     (docs s = [] → sd ≠ []) →
     let m := V2.initializeCollections_mongodb sd s in
     let q := V2.initializeCollections_sqlite sd now t in
     same_items m.1 q.1 ∧ m.2 = q.2).
Proof.
  intros Hs Ht Hst Hround. split_and!.
  - intros name u sd r r' now Hchoice Hpr Hfaithful Hsd.
    assert (Forall (λ b : BaseItem P, stored_as_given (data b)) sd) as Hgiven
      by (eapply Forall_impl; [exact Hfaithful|]; by intros b [? _]).
    destruct (decide (docs s = [])) as [Hnil|Hne].
    + assert (docs t = []) as Hnil' by by apply (same_items_nil s t).
      cbv zeta. rewrite V2_getItem_mongodb_seed by auto.
      pose proof (seeded_same sd now s t Hpr Hgiven Hnil Hnil') as Hseeded.
      assert (V2.getItemFromCollection_sqlite name u sd r' now t
              = V2.getItemFromCollection_sqlite name u sd r' now
                  (insert_each (seed_row now <$> sd) t)) as ->.
      { rewrite !V2_getItem_sqlite_rotate. cbv zeta. f_equal.
        - unfold seeded_table at 1. rewrite decide_True by done.
          rewrite seeded_table_ne; [done|].
          rewrite <- (same_items_nil _ _ Hseeded). by apply docs_stored_ne, Hsd.
        - unfold seeded_table at 1. rewrite decide_True by done.
          rewrite seeded_table_ne; [done|].
          rewrite <- (same_items_nil _ _ Hseeded). by apply docs_stored_ne, Hsd. }
      apply getItem_same;
        [done| |by apply wf_insert_all|by apply wf_insert_each|done|
         by apply docs_stored_ne, Hsd].
      rewrite docs_insert_all_nil by done. apply Forall_forall.
      intros d Hd.
      assert (item d ∈ stored_document <$> sd) as Hitem.
      { rewrite <- (item_number (nextId s) (stored_document <$> sd)).
        apply list_elem_of_fmap. by exists d. }
      apply list_elem_of_fmap in Hitem as (b & Hb & Hin).
      rewrite Forall_forall in Hfaithful. destruct (Hfaithful b Hin) as [Hg Hr].
      change (round_trips (data (item d))). rewrite Hb. cbn. by rewrite Hg.
    + by apply getItem_same.
  - intros u items now Hitems Hgiven. cbv zeta.
    unfold V2.createItems_mongodb, V2.createItems_sqlite.
    set (loop := for_each_push items _).
    assert (loop t = (insert_each (created_row u now <$> items) t,
                      Returned (seq (nextId t) (length items)))) as Hloop
      by apply for_each_push_created.
    clearbody loop. run. rewrite Hloop.
    destruct items as [|p items]; [done|]. cbn [fmap list_fmap].
    cbn [fst snd same_response]. split.
    + unfold same_items. cbn [insert_all docs].
      destruct (docs_insert_each
                  (created_row u now p :: (created_row u now <$> items)) t) as [-> _].
      apply Forall2_app; [done|].
      apply (created_stored_as (nextId s) (nextId t) u now (p :: items) Hgiven).
    + split; [done|]. rewrite !length_seq. cbn [length]. by rewrite length_fmap.
  - cbv zeta. unfold V2.markAllItemsAsUsed_mongodb, V2.markAllItemsAsUsed_sqlite. run.
    cbn [fst snd]. split.
    + unfold same_items. cbn [update_where docs]. apply Forall2_fmap.
      eapply Forall2_impl; [exact Hst|]. intros d row Hd.
      rewrite <- (stored_as_unused d row Hd).
      destruct (unused d); [by apply stored_as_update|done].
    + do 3 f_equal. rewrite marked_all_change. unfold matching.
      eapply Forall2_length, stored_as_filter; [|exact Hst].
      intros d row Hd. by rewrite (stored_as_unused d row Hd).
  - intros u. cbv zeta. unfold V2.deleteItemsByUser_mongodb, V2.deleteItemsByUser_sqlite.
    run. cbn [fst snd]. split.
    + unfold same_items. cbn [delete_where docs].
      eapply stored_as_filter; [|exact Hst].
      intros d row Hd. by rewrite (stored_as_created_by u d row Hd).
    + do 3 f_equal. unfold matching. eapply Forall2_length, stored_as_filter; [|exact Hst].
      intros d row Hd. by rewrite (stored_as_created_by u d row Hd).
  - intros sd now Hpr Hgiven Hsd. cbv zeta.
    unfold V2.initializeCollections_mongodb, V2.initializeCollections_sqlite.
    set (loop := for_each sd _).
    assert (∀ t', loop t' = (insert_each (seed_row now <$> sd) t', Returned tt)) as Hloop
      by (intros; apply for_each_seed).
    clearbody loop. run.
    destruct (decide (docs s = [])) as [Hnil|Hne].
    + assert (docs t = []) as Hnil' by by apply (same_items_nil s t).
      rewrite !decide_True by by rewrite length_zero_iff_nil_docs.
      rewrite Hloop. destruct sd as [|b sd]; [by destruct Hsd|].
      cbn [fst snd]. split; [|done]. by apply seeded_same.
    + assert (docs t ≠ []) as Hne' by by rewrite <- (same_items_nil s t).
      by rewrite !decide_False by by rewrite length_zero_iff_nil_docs.
Qed.

(** The events after their seeding, in MongoDB and in SQLite, when the two
    random sources both point at the second candidate. *)
Lemma the_backends_agree_on_the_events :
  let m := V2.getItemFromCollection_mongodb "events" "bob" eventSampleData
             (mkRandom 1 1) three_fresh in
  let q := V2.getItemFromCollection_sqlite "events" "bob" eventSampleData
             (mkRandom 1 1) 7 three_fresh_rows in
  same_items m.1 q.1 ∧ m.2 = q.2
  ∧ m.2 = Returned (mkResponse true (ItemData (mkMessage "Event 2"))).
Proof.
  assert (wf three_fresh) as Hs by compute_done.
  assert (wf three_fresh_rows) as Ht by compute_done.
  assert (same_items three_fresh three_fresh_rows) as Hst by (repeat constructor).
  assert (Forall (λ d : Stored MessageData, round_trips (data d)) (docs three_fresh))
    as Hround by (apply Forall_forall; intros d _; apply MessageData_round_trips).
  destruct (the_backends_agree three_fresh three_fresh_rows Hs Ht Hst Hround)
    as (Hget & _).
  cbv zeta. split_and!; [| |reflexivity];
    apply (Hget "events" "bob" eventSampleData (mkRandom 1 1) (mkRandom 1 1) 7);
    try done; repeat constructor; apply MessageData_round_trips.
Defined.

(** ** [createItems] *)

Section Creating.
Context {D : Type}.
Implicit Types (s : Store D) (batch : list (BaseItem D)).

Lemma number_zip n batch :
  number n batch = zip_with mkStored (seq n (length batch)) batch.
Proof.
  revert n. induction batch as [|b batch IH]; intros n; [done|].
  cbn [number length seq zip_with]. by rewrite IH.
Qed.

Lemma fresh_keys s n : wf s → NoDup (ids (docs s) ++ seq (nextId s) n).
Proof.
  intros [Hnd Hlt]. apply NoDup_app. split_and!; [done| |apply NoDup_seq].
  intros i Hi Hi'. rewrite Forall_forall in Hlt. apply Hlt in Hi.
  apply elem_of_seq in Hi'. lia.
Qed.

Lemma insert_all_appended {P} batch s :
  appended (P:=P) batch s
    (insert_all batch s,
     Returned (mkResponse true
                 (InsertedData (length (seq (nextId s) (length batch)))
                    (seq (nextId s) (length batch))))).
Proof.
  exists (seq (nextId s) (length batch)). cbn [fst snd insert_all docs].
  split_and!; [by rewrite length_seq|by rewrite number_zip|by rewrite length_seq|].
  by apply fresh_keys.
Qed.

Lemma insert_each_appended {P} batch s :
  appended (P:=P) batch s
    (insert_each batch s,
     Returned (mkResponse true
                 (InsertedData (length (seq (nextId s) (length batch)))
                    (seq (nextId s) (length batch))))).
Proof.
  exists (seq (nextId s) (length batch)). cbn [fst snd].
  destruct (docs_insert_each batch s) as [-> _].
  split_and!; [by rewrite length_seq|by rewrite number_zip|by rewrite length_seq|].
  by apply fresh_keys.
Qed.
End Creating.

Section CreateItems.
Context {P : Type} `{Bson P} `{Json P}.
Implicit Types (s : Store P) (t : Sqlite.Table) (u : UserId) (items : list P).

Lemma createItems_mongodb_run u items now s :
  items ≠ [] →
  V2.createItems_mongodb u items now s
  = (insert_all (created_document u now <$> items) s,
     Returned (mkResponse true
                 (InsertedData (length (seq (nextId s) (length (created_document u now <$> items))))
                    (seq (nextId s) (length (created_document u now <$> items)))))).
Proof.
  intros Hne. unfold V2.createItems_mongodb. run.
  destruct items as [|p items]; [done|]. cbn [fmap list_fmap length].
  rewrite <- list_fmap_compose, !length_fmap. reflexivity.
Qed.

Lemma createItems_sqlite_run u items now t :
  V2.createItems_sqlite u items now t
  = (insert_each (created_row u now <$> items) t,
     Returned (mkResponse true
                 (InsertedData (length (seq (nextId t) (length (created_row u now <$> items))))
                    (seq (nextId t) (length (created_row u now <$> items)))))).
Proof.
  unfold V2.createItems_sqlite.
  set (loop := for_each_push items _).
  assert (loop t = (insert_each (created_row u now <$> items) t,
                    Returned (seq (nextId t) (length items)))) as Hloop
    by apply for_each_push_created.
  clearbody loop. run. rewrite Hloop. by rewrite !length_fmap.
Qed.
End CreateItems.

(** X3. [createItems] adds one item for each payload it is given, in the
    order of the payloads and under keys that are new in the collection:
    each of these items is unused, unassigned, created by the user and
    dated with the time of the call; the items that were there stay as
    they were.  It answers [success = true] with the number of the items
    and their keys.  This holds for the first generation and for the
    MongoDB branch when there is at least one payload, and for the SQLite
    branch, whose [data] cell is the JSON text of the payload. *)
Theorem createItems_appends_the_items_of_the_user {P : Type} `{Bson P} `{Json P}
    (userId : UserId) (items : list P) (now : Timestamp) :
  (∀ s : Store P, items ≠ [] →
     appended (created_document userId now <$> items) s
       (V1.createItems userId items now s))
  ∧ (∀ s : Store P, items ≠ [] →
     appended (created_document userId now <$> items) s
       (V2.createItems_mongodb userId items now s))
  ∧ (∀ t : Sqlite.Table,
     appended (P:=P) (created_row userId now <$> items) t
       (V2.createItems_sqlite userId items now t)).
Proof.
  split_and!.
  - intros s Hne. change (V1.createItems userId items now)
      with (V2.createItems_mongodb userId items now).
    rewrite createItems_mongodb_run by done. apply insert_all_appended.
  - intros s Hne. rewrite createItems_mongodb_run by done. apply insert_all_appended.
  - intros t. rewrite createItems_sqlite_run. apply insert_each_appended.
Qed.

(** X4. With no payload at all the two backends differ: the SQLite branch
    of [createItems] answers [success = true] with [insertedCount = 0],
    while on MongoDB (both generations) the driver rejects the empty batch
    and the call throws.  The collection stays as it is in both cases. *)
Theorem createItems_without_items {P : Type} `{Bson P} `{Json P}
    (userId : UserId) (now : Timestamp) (s : Store P) (t : Sqlite.Table) :
  let rejected := Thrown (MongoInvalidArgumentError
                            "Invalid BulkOperation, Batch cannot be empty") in
  V1.createItems userId [] now s = (s, rejected)
  ∧ V2.createItems_mongodb userId [] now s = (s, rejected)
  ∧ V2.createItems_sqlite (P:=P) userId [] now t
    = (t, Returned (mkResponse true (InsertedData 0 []))).
Proof. split_and!; reflexivity. Qed.

(** ** [createItems] and [deleteItemsByUser] together *)

Section CreateAndDelete.
Context {D : Type}.
Implicit Types (s : Store D) (batch : list (BaseItem D)) (u : UserId).

Lemma filter_created_number (Q : Stored D → Prop) `{∀ d, Decision (Q d)} n batch :
  (∀ d : Stored D, d ∈ number n batch → Q d) →
  filter Q (number n batch) = number n batch.
Proof. intros HQ. apply filter_Forall_id, Forall_forall, HQ. Qed.

Lemma filter_none {A} (Q : A → Prop) `{∀ x, Decision (Q x)} (l : list A) :
  (∀ x, x ∈ l → ¬ Q x) → filter Q l = [].
Proof.
  induction l as [|x l IH]; [done|]. intros HQ.
  rewrite filter_cons, decide_False by (apply HQ; left). apply IH.
  intros y Hy. apply HQ. by right.
Qed.

Lemma number_createdBy n batch u (d : Stored D) :
  Forall (λ b, createdBy b = Some u) batch → d ∈ number n batch → createdBy d = Some u.
Proof.
  intros Hall Hd. apply (Forall_number (λ b, createdBy b = Some u) n) in Hall.
  rewrite Forall_forall in Hall. by apply Hall.
Qed.

(** Deleting the items of [u] after adding items of [u]. *)
Lemma delete_after_insert u n batch (l : list (Stored D)) :
  Forall (λ b, createdBy b = Some u) batch →
  filter (λ d : Stored D, created_by u d = false) (l ++ number n batch)
  = filter (λ d : Stored D, createdBy d ≠ Some u) l
  ∧ length (filter (λ d : Stored D, created_by u d = true) (l ++ number n batch))
    = length (filter (λ d : Stored D, createdBy d = Some u) l) + length batch.
Proof.
  intros Hall. destruct (filter_created_by u (l ++ number n batch)) as [-> ->].
  rewrite !filter_app. split.
  - rewrite (filter_none (λ d : Stored D, createdBy d ≠ Some u) (number n batch)).
    + by rewrite app_nil_r.
    + intros d Hd Hne. apply Hne. by eapply number_createdBy.
  - rewrite (filter_created_number (λ d : Stored D, createdBy d = Some u)).
    + by rewrite length_app, length_number.
    + intros d Hd. by eapply number_createdBy.
Qed.

(** Adding items of [u] after deleting the items of [u]. *)
Lemma insert_after_delete u n batch (l : list (Stored D)) :
  Forall (λ b, createdBy b = Some u) batch →
  filter (λ d : Stored D, createdBy d = Some u)
    (filter (λ d : Stored D, created_by u d = false) l ++ number n batch)
  = number n batch
  ∧ filter (λ d : Stored D, createdBy d ≠ Some u)
      (filter (λ d : Stored D, created_by u d = false) l ++ number n batch)
    = filter (λ d : Stored D, createdBy d ≠ Some u) l.
Proof.
  intros Hall. destruct (filter_created_by u l) as [_ ->]. rewrite !filter_app. split.
  - rewrite (filter_none (λ d : Stored D, createdBy d = Some u)
               (filter (λ d : Stored D, createdBy d ≠ Some u) l)).
    + cbn [app]. apply filter_created_number. intros d Hd. by eapply number_createdBy.
    + by intros d [Hd _]%list_elem_of_filter.
  - rewrite (filter_none (λ d : Stored D, createdBy d ≠ Some u) (number n batch)).
    + rewrite app_nil_r. apply filter_Forall_id, Forall_forall.
      by intros d [Hd _]%list_elem_of_filter.
    + intros d Hd Hne. apply Hne. by eapply number_createdBy.
Qed.
End CreateAndDelete.

Lemma created_documents_createdBy {P} `{Bson P} u now (items : list P) :
  Forall (λ b, createdBy b = Some u) (created_document u now <$> items).
Proof. apply Forall_fmap, Forall_forall. by intros p _. Qed.

Lemma created_rows_createdBy {P} `{Json P} u now (items : list P) :
  Forall (λ b, createdBy b = Some u) (created_row u now <$> items).
Proof. apply Forall_fmap, Forall_forall. by intros p _. Qed.

(** X5. [deleteItemsByUser] undoes [createItems]: after [createItems] for a
    user, [deleteItemsByUser] for this user leaves the items of the
    collection that the user has not created, as they were before the two
    calls and in their order, and it returns the number of the items the
    user had created before plus the number of the new ones.  This holds
    on MongoDB (for at least one payload) and on SQLite. *)
Theorem deleteItemsByUser_undoes_createItems {P : Type} `{Bson P} `{Json P}
    (userId : UserId) (items : list P) (now : Timestamp) :
  (∀ s : Store P, items ≠ [] →
     let created := (V2.createItems_mongodb userId items now s).1 in
     let result := V2.deleteItemsByUser_mongodb (P:=P) userId created in
     docs result.1 = filter (λ d : Stored P, createdBy d ≠ Some userId) (docs s)
     ∧ result.2 = Returned (mkResponse true
         (DeletedData (length (filter (λ d : Stored P, createdBy d = Some userId) (docs s))
                       + length items))))
  ∧ (∀ t : Sqlite.Table,
     let created := (V2.createItems_sqlite userId items now t).1 in
     let result := V2.deleteItemsByUser_sqlite (P:=P) userId created in
     docs result.1 = filter (λ d : Stored string, createdBy d ≠ Some userId) (docs t)
     ∧ result.2 = Returned (mkResponse true
         (DeletedData (length (filter (λ d : Stored string, createdBy d = Some userId)
                                 (docs t))
                       + length items)))).
Proof.
  split.
  - intros s Hne. cbv zeta. rewrite createItems_mongodb_run by done. cbn [fst].
    unfold V2.deleteItemsByUser_mongodb. run. unfold delete_where, matching.
    cbn [fst snd insert_all docs nextId journal].
    destruct (delete_after_insert userId (nextId s) (created_document userId now <$> items)
                (docs s) (created_documents_createdBy userId now items)) as [-> ->].
    by rewrite length_fmap.
  - intros t. cbv zeta. rewrite createItems_sqlite_run. cbn [fst].
    unfold V2.deleteItemsByUser_sqlite. run. unfold delete_where, matching.
    cbn [fst snd docs].
    destruct (docs_insert_each (created_row userId now <$> items) t) as [-> _].
    destruct (delete_after_insert userId (nextId t) (created_row userId now <$> items)
                (docs t) (created_rows_createdBy userId now items)) as [-> ->].
    by rewrite length_fmap.
Qed.

(** X6. [deleteItemsByUser] followed by [createItems] for the same user
    (what the route [/updateEvents] does) replaces the items of the user:
    afterwards the items created by the user are the new ones, one for each
    payload and in the order of the payloads, and the items of the others
    are those of before, in their order. *)
Theorem createItems_after_deleteItemsByUser_replaces {P : Type} `{Bson P} `{Json P}
    (userId : UserId) (items : list P) (now : Timestamp) :
  (∀ s : Store P, items ≠ [] →
     let deleted := (V2.deleteItemsByUser_mongodb (P:=P) userId s).1 in
     let result := V2.createItems_mongodb userId items now deleted in
     item <$> filter (λ d : Stored P, createdBy d = Some userId) (docs result.1)
     = created_document userId now <$> items
     ∧ filter (λ d : Stored P, createdBy d ≠ Some userId) (docs result.1)
       = filter (λ d : Stored P, createdBy d ≠ Some userId) (docs s))
  ∧ (∀ t : Sqlite.Table,
     let deleted := (V2.deleteItemsByUser_sqlite (P:=P) userId t).1 in
     let result := V2.createItems_sqlite userId items now deleted in
     item <$> filter (λ d : Stored string, createdBy d = Some userId) (docs result.1)
     = created_row userId now <$> items
     ∧ filter (λ d : Stored string, createdBy d ≠ Some userId) (docs result.1)
       = filter (λ d : Stored string, createdBy d ≠ Some userId) (docs t)).
Proof.
  split.
  - intros s Hne. cbv zeta. rewrite createItems_mongodb_run by done. cbn [fst].
    unfold V2.deleteItemsByUser_mongodb. run.
    cbn [fst insert_all delete_where docs nextId].
    destruct (insert_after_delete userId (nextId s) (created_document userId now <$> items)
                (docs s) (created_documents_createdBy userId now items)) as [-> ->].
    by rewrite item_number.
  - intros t. cbv zeta. rewrite createItems_sqlite_run. cbn [fst].
    unfold V2.deleteItemsByUser_sqlite. run. cbn [fst].
    destruct (docs_insert_each (created_row userId now <$> items)
                (delete_where (created_by userId) t)) as [-> _].
    cbn [delete_where docs nextId].
    destruct (insert_after_delete userId (nextId t) (created_row userId now <$> items)
                (docs t) (created_rows_createdBy userId now items)) as [-> ->].
    by rewrite item_number.
Qed.

(** ** [markAllItemsAsUsed] *)

Section Marking.
Context {D : Type}.
Implicit Types (s : Store D) (d : Stored D).

Lemma mark_as_used d : (if unused d then update set_mark d else d) = as_used d.
Proof.
  destruct d as [i [x us a c ti]]. unfold unused, as_used, update, apply_set. cbn.
  by destruct us.
Qed.

Lemma docs_marked s : docs (update_where unused set_mark s) = as_used <$> docs s.
Proof. cbn [update_where docs]. apply list_fmap_ext. intros _ d _. apply mark_as_used. Qed.

Lemma matching_unused s :
  matching unused s = filter (λ d : Stored D, used d = false) (docs s).
Proof.
  unfold matching. apply list_filter_iff. intros d. unfold unused.
  by rewrite negb_true_iff.
Qed.

Lemma marked_none_unused (l : list (Stored D)) :
  filter (λ d : Stored D, used d = false) (as_used <$> l) = [].
Proof. apply filter_fmap_none. by intros d _. Qed.

Lemma as_used_idemp (l : list (Stored D)) : as_used <$> (as_used <$> l) = as_used <$> l.
Proof. rewrite <- list_fmap_compose. by apply list_fmap_ext. Qed.

Lemma update_where_marks {P} s (count : nat) :
  count = length (matching unused s) →
  marks_all (P:=P) s (update_where unused set_mark s,
                      Returned (mkResponse true (ModifiedData count))).
Proof.
  intros ->. split; cbn [fst snd]; [apply docs_marked|by rewrite matching_unused].
Qed.
End Marking.

(** X7. [markAllItemsAsUsed] sets [used] on every item and changes nothing
    else: keys, payloads, assignments, creators and dates stay, and no item
    is added or removed.  It answers [success = true] with the number of
    items that were not used as [modifiedCount] (on MongoDB the documents
    modified, on SQLite the rows matched: the same number).  A second call
    changes no item and answers 0. *)
Theorem markAllItemsAsUsed_marks_every_item {P : Type} `{Json P} :
  (∀ s : Store P,
     let result := V2.markAllItemsAsUsed_mongodb (P:=P) s in
     marks_all s result
     ∧ docs (V2.markAllItemsAsUsed_mongodb (P:=P) result.1).1 = docs result.1
     ∧ (V2.markAllItemsAsUsed_mongodb (P:=P) result.1).2
       = Returned (mkResponse true (ModifiedData 0)))
  ∧ (∀ t : Sqlite.Table,
     let result := V2.markAllItemsAsUsed_sqlite (P:=P) t in
     marks_all t result
     ∧ docs (V2.markAllItemsAsUsed_sqlite (P:=P) result.1).1 = docs result.1
     ∧ (V2.markAllItemsAsUsed_sqlite (P:=P) result.1).2
       = Returned (mkResponse true (ModifiedData 0))).
Proof.
  split.
  - intros s. cbv zeta. unfold V2.markAllItemsAsUsed_mongodb. run. cbn [fst snd].
    rewrite !marked_all_change. split_and!.
    + by apply update_where_marks.
    + by rewrite !docs_marked, as_used_idemp.
    + by rewrite matching_unused, docs_marked, marked_none_unused.
  - intros t. cbv zeta. unfold V2.markAllItemsAsUsed_sqlite. run. cbn [fst snd].
    split_and!.
    + by apply update_where_marks.
    + by rewrite !docs_marked, as_used_idemp.
    + by rewrite matching_unused, docs_marked, marked_none_unused.
Qed.

Lemma exhausted_marked {D} u (s : Store D) :
  docs s ≠ [] → exhausted u (update_where unused set_mark s).
Proof.
  intros Hne. split.
  - rewrite docs_marked. by destruct (docs s).
  - rewrite docs_marked. apply Forall_fmap, Forall_forall. intros d _. by left.
Qed.

Lemma readable_marked {P} `{Json P} (t : Sqlite.Table) :
  readable (P:=P) t → readable (P:=P) (update_where unused set_mark t).
Proof.
  unfold readable. rewrite docs_marked. intros Hr. apply Forall_fmap.
  eapply Forall_impl; [exact Hr|]. by intros d.
Qed.

(** X8. [markAllItemsAsUsed] does not retire a collection: on a collection
    that is not empty, the call of [getItemFromCollection] that follows it
    finds no candidate, resets every item and assigns one of them to the
    user, whose payload it returns; one item is then held by the user and
    all the others are free again. *)
Theorem getItemFromCollection_after_markAllItemsAsUsed {P : Type} `{Bson P} `{Json P}
    (collectionName : string) (userId : UserId) (sampleData : list (BaseItem P))
    (r : Random) (now : Timestamp) :
  (∀ s : Store P, wf s → docs s ≠ [] →
     let marked := (V2.markAllItemsAsUsed_mongodb (P:=P) s).1 in
     resets_and_assigns_one payload_mongodb userId marked
       (V2.getItemFromCollection_mongodb collectionName userId sampleData r marked))
  ∧ (∀ t : Sqlite.Table, wf t → docs t ≠ [] → readable (P:=P) t →
     let marked := (V2.markAllItemsAsUsed_sqlite (P:=P) t).1 in
     resets_and_assigns_one (payload_sqlite (P:=P)) userId marked
       (V2.getItemFromCollection_sqlite collectionName userId sampleData r now marked)).
Proof.
  split.
  - intros s Hwf Hne. cbv zeta. unfold V2.markAllItemsAsUsed_mongodb. run. cbn [fst].
    pose proof (exhausted_marked userId s Hne) as Hex.
    rewrite V2_getItem_mongodb_rotate; [|by apply wf_update_where|by destruct Hex].
    apply rotate_resets_and_assigns_one;
      [apply _|done|by apply wf_update_where|done|apply Forall_payload_mongodb].
  - intros t Hwf Hne Hr. cbv zeta. unfold V2.markAllItemsAsUsed_sqlite. run. cbn [fst].
    pose proof (exhausted_marked userId t Hne) as Hex.
    rewrite V2_getItem_sqlite_rotate. cbv zeta.
    rewrite seeded_table_ne by by destruct Hex.
    apply rotate_resets_and_assigns_one;
      [apply _|done|by apply wf_update_where|done|by apply readable_marked].
Qed.

(** ** The filter of the candidates *)

Lemma filter_ext_elem {A} (Q Q' : A → Prop) `{∀ x, Decision (Q x)}
    `{∀ x, Decision (Q' x)} (l : list A) :
  (∀ x, x ∈ l → Q x ↔ Q' x) → filter Q l = filter Q' l.
Proof.
  induction l as [|x l IH]; [done|]. intros HQ. rewrite !filter_cons.
  rewrite IH by (intros y Hy; apply HQ; by right).
  destruct (decide (Q x)) as [Hq|Hq].
  - rewrite decide_True; [done|]. apply HQ; [left|done].
  - rewrite decide_False; [done|]. rewrite <- HQ; [done|left].
Qed.

Lemma candidates_unused {D} u (s : Store D) :
  unassigned_when_unused s → matching (candidate u) s = matching unused s.
Proof.
  intros Hclean. unfold matching. apply filter_ext_elem. intros d Hd.
  rewrite candidate_true. unfold unused. rewrite negb_true_iff. split; [by intros [? _]|].
  intros Hu. split; [done|]. by rewrite (Hclean d Hd Hu).
Qed.

Lemma flags_invariant_unassigned {D} marking (s : Store D) :
  flags_invariant marking s → unassigned_when_unused s.
Proof. by intros (_ & Hun & _). Qed.

(** X9. In every state of a collection that calls of the operations
    produce from the empty collection (on MongoDB with sample data that are
    unused and unassigned), no item is assigned without being used.  So
    the second half of the filter of [getItemFromCollection]
    ([assignedTo: { $ne: userId }], [assignedTo IS NULL OR assignedTo != ?])
    excludes nothing: for every user the candidates are the unused items,
    and which item a call selects does not depend on the user. *)
Theorem the_candidates_are_the_unused_items {P : Type} `{Bson P} `{Json P} (userId : UserId) :
  (∀ calls : list (MongoCall P), Forall mongo_pristine calls →
     let s := mongo_calls calls empty_store in
     unassigned_when_unused s ∧ matching (candidate userId) s = matching unused s)
  ∧ (∀ calls : list (SqliteCall P),
     let t := sqlite_calls calls empty_store in
     unassigned_when_unused t ∧ matching (candidate userId) t = matching unused t).
Proof.
  split.
  - intros calls Hpr s.
    assert (unassigned_when_unused s) as Hclean.
    { apply (flags_invariant_unassigned true), mongo_calls_flags;
        [apply flags_invariant_empty|done|by apply Forall_forall]. }
    split; [done|by apply candidates_unused].
  - intros calls t.
    assert (unassigned_when_unused t) as Hclean.
    { apply (flags_invariant_unassigned true), sqlite_calls_flags;
        [apply flags_invariant_empty|by apply Forall_forall]. }
    split; [done|by apply candidates_unused].
Qed.

(** ** What [getItemFromCollection] never writes *)

Section Frame.
Context {D : Type}.
Implicit Types (s : Store D) (l : list (Stored D)).

Lemma identity_update_where (q : Stored D → bool) f l :
  identity_of <$> ((λ d, if q d then update f d else d) <$> l) = identity_of <$> l.
Proof.
  rewrite <- list_fmap_compose. apply list_fmap_ext. intros _ d _. cbn.
  by destruct (q d).
Qed.

Lemma rotate_identity (pick : list (Stored D) → option (Stored D)) u s :
  identity_of <$> docs (rotate pick u s).1 = identity_of <$> docs s.
Proof.
  unfold rotate. repeat case_match; cbn [fst update_where docs];
    by rewrite ?identity_update_where.
Qed.
End Frame.

(** X10. On a collection that is not empty, [getItemFromCollection] adds
    no item, removes none and writes nothing but [used] and [assignedTo]:
    the keys, the payloads, the creators and the dates of creation are,
    item by item and in the same order, those of before.  The same holds
    for [markAllItemsAsUsed] on every collection. *)
Theorem getItemFromCollection_writes_the_flags_only {P : Type} `{Bson P} `{Json P}
    (collectionName : string) (userId : UserId) (sampleData : list (BaseItem P))
    (r : Random) (now : Timestamp) :
  (∀ s : Store P, wf s → docs s ≠ [] →
     identity_of <$> docs (V1.getItemFromCollection collectionName userId sampleData s).1
     = identity_of <$> docs s
     ∧ identity_of <$> docs (V2.getItemFromCollection_mongodb collectionName userId
                               sampleData r s).1
       = identity_of <$> docs s
     ∧ identity_of <$> docs (V2.markAllItemsAsUsed_mongodb (P:=P) s).1
       = identity_of <$> docs s)
  ∧ (∀ t : Sqlite.Table, docs t ≠ [] →
     identity_of <$> docs (V2.getItemFromCollection_sqlite collectionName userId
                             sampleData r now t).1
     = identity_of <$> docs t
     ∧ identity_of <$> docs (V2.markAllItemsAsUsed_sqlite (P:=P) t).1
       = identity_of <$> docs t).
Proof.
  split.
  - intros s Hwf Hne. split_and!.
    + rewrite V1_getItem_rotate by done. apply rotate_identity.
    + rewrite V2_getItem_mongodb_rotate by done. apply rotate_identity.
    + apply identity_update_where.
  - intros t Hne. split.
    + rewrite V2_getItem_sqlite_rotate. cbv zeta. rewrite seeded_table_ne by done.
      apply rotate_identity.
    + apply identity_update_where.
Qed.

(** ** A cycle of the rotation *)

Section Cycle.
Context {D P A : Type} (pick : A → list (Stored D) → option (Stored D)).
Context `{!∀ a, Picker (pick a)}.
Context (user : A → UserId) (payload : Stored D → option P).
Context (payload_update : ∀ f d, payload (update f d) = payload d).
Context (name : string) (call : A → M (Store D) (Response P)).
Context (call_rotate : ∀ a s, wf s → docs s ≠ [] →
  call a s = ((rotate (pick a) (user a) s).1,
              respond_with payload name (rotate (pick a) (user a) s).2)).
Implicit Types (s : Store D) (c d : Stored D).

Lemma unused_after_assign u c s :
  matching unused (update_where (by_id (_id c)) (set_assign u) s)
  = filter (λ d, _id d ≠ _id c) (matching unused s).
Proof.
  unfold matching. cbn [update_where docs].
  induction (docs s) as [|d l IH]; [done|]. rewrite fmap_cons, !filter_cons.
  destruct (by_id (_id c) d) eqn:Hid.
  - rewrite decide_False by done. apply by_id_true in Hid.
    destruct (decide (unused d = true)); [|exact IH].
    rewrite filter_cons, decide_False by (intros Hne; by apply Hne). exact IH.
  - apply by_id_false in Hid.
    destruct (decide (unused d = true)); [|exact IH].
    rewrite filter_cons, decide_True by done. by rewrite IH.
Qed.

Lemma unused_count_after_assign u c s :
  wf s → c ∈ docs s → used c = false →
  length (matching unused (update_where (by_id (_id c)) (set_assign u) s))
  = length (matching unused s) - 1.
Proof.
  intros [Hnd _] Hc Hu. rewrite unused_after_assign.
  rewrite <- (list_fmap_id (matching unused s)) at 1.
  apply (count_others (λ d, _id d ≠ _id c) id (matching unused s) (_id c)).
  - by apply NoDup_ids_filter.
  - unfold ids. apply list_elem_of_fmap. exists c. split; [done|].
    apply list_elem_of_filter. split; [|done]. unfold unused. by rewrite Hu.
  - done.
Qed.

Lemma still_unused u c s d :
  d ∈ docs (update_where (by_id (_id c)) (set_assign u) s) → used d = false →
  d ∈ docs s ∧ _id d ≠ _id c.
Proof.
  cbn [update_where docs]. intros (d0 & -> & Hd0)%list_elem_of_fmap.
  destruct (by_id (_id c) d0) eqn:Hid; [done|]. intros _. split; [done|].
  by apply by_id_false in Hid.
Qed.

(** One call while an item is unused: it is handed out. *)
Lemma call_hands_out a s :
  wf s → unassigned_when_unused s → Forall (λ d, is_Some (payload d)) (docs s) →
  matching unused s ≠ [] →
  ∃ c p, c ∈ docs s ∧ used c = false ∧ payload c = Some p ∧
    call a s = (update_where (by_id (_id c)) (set_assign (user a)) s,
                Returned (mkResponse true (ItemData p))).
Proof.
  intros Hwf Hclean Hpay Hne.
  assert (∃ d, d ∈ docs s ∧ candidate (user a) d = true) as Hcand.
  { destruct (matching unused s) as [|d l] eqn:Hm; [done|].
    assert (d ∈ matching unused s) as Hd by (rewrite Hm; left).
    rewrite <- (candidates_unused (user a)) in Hd by done.
    apply list_elem_of_filter in Hd as [? ?]. eauto. }
  assert (docs s ≠ []) as Hdocs.
  { destruct Hcand as (d & Hd & _). intros Hnil. rewrite Hnil in Hd.
    by apply elem_of_nil in Hd. }
  destruct (rotate_candidate (pick a) (user a) s Hcand) as (c & Hc & Hcc & Hrot).
  rewrite Forall_forall in Hpay. destruct (Hpay c Hc) as [p Hp].
  apply candidate_true in Hcc as [Hu _].
  exists c, p. rewrite call_rotate, Hrot by done. cbn [fst snd respond_with].
  by rewrite Hp.
Qed.

Lemma calls_hand_out (calls : list A) s :
  wf s → unassigned_when_unused s → Forall (λ d, is_Some (payload d)) (docs s) →
  (length calls ≤ length (matching unused s))%nat →
  handed_out payload (user <$> calls) s (for_each_push calls call s).
Proof.
  revert s. induction calls as [|a calls IH]; intros s Hwf Hclean Hpay Hlen.
  - exists []. cbn. split_and!; try done.
    + constructor.
    + exists []. split; [done|constructor].
    + by rewrite app_nil_r.
    + lia.
  - cbn [length] in Hlen.
    destruct (call_hands_out a s Hwf Hclean Hpay) as (c & p & Hc & Hu & Hp & Hcall).
    { intros Hnil. rewrite Hnil in Hlen. simpl in Hlen. lia. }
    set (s1 := update_where (by_id (_id c)) (set_assign (user a)) s) in *.
    assert (wf s1) as Hwf1 by by apply wf_update_where.
    assert (unassigned_when_unused s1) as Hclean1.
    { intros d Hd Hdu. destruct (still_unused _ _ _ _ Hd Hdu) as [Hd0 _]. by apply Hclean. }
    assert (Forall (λ d, is_Some (payload d)) (docs s1)) as Hpay1.
    { unfold s1. cbn [update_where docs]. apply Forall_fmap.
      eapply Forall_impl; [exact Hpay|]. intros d Hd. cbn.
      destruct (by_id (_id c) d); [by rewrite payload_update|done]. }
    pose proof (unused_count_after_assign (user a) c s Hwf Hc Hu) as Hcount.
    fold s1 in Hcount.
    destruct (IH s1 Hwf1 Hclean1 Hpay1) as
      (chosen & Hl & Hin & Hnd & (responses & Hres & Hall) & Hj & Hn); [lia|].
    cbn [for_each_push]. unfold bind at 1. rewrite Hcall.
    unfold bind at 1. rewrite (surjective_pairing (for_each_push calls call s1)).
    rewrite Hres. unfold ret.
    exists (c :: chosen). cbn [fst snd fmap list_fmap length zip_with].
    split_and!.
    + by rewrite Hl.
    + constructor; [done|]. eapply Forall_impl; [exact Hin|].
      intros d [Hd Hdu]. split; [|done]. by destruct (still_unused _ _ _ _ Hd Hdu).
    + unfold ids. rewrite fmap_cons. apply NoDup_cons. split; [|exact Hnd].
      intros (d & Heq & Hd)%list_elem_of_fmap. rewrite Forall_forall in Hin.
      destruct (Hin d Hd) as [Hd1 Hdu].
      destruct (still_unused _ _ _ _ Hd1 Hdu) as [_ Hne]. congruence.
    + exists (mkResponse true (ItemData p) :: responses). split; [done|].
      constructor; [by exists p|done].
    + rewrite Hj. unfold s1. cbn [update_where journal]. rewrite <- app_assoc.
      cbn [app]. do 3 f_equal. destruct Hwf as [Hnodup _].
      apply ids_matching_by_id; [done|]. unfold ids. apply list_elem_of_fmap. eauto.
    + rewrite Hn, Hcount. lia.
Qed.
End Cycle.

(** X11. No item is handed out twice within a cycle: on a collection in
    which no item is assigned without being used (every collection the
    operations produce), as many calls of [getItemFromCollection] as there
    are unused items, or fewer, whoever the users are and whatever the
    random numbers, each select an item that was unused before the calls,
    no two calls the same item; each call answers [success = true] with the
    payload of its item and assigns it to its user, and nothing is reset.
    After the calls there are that many unused items fewer.  This holds
    for the first generation, for the MongoDB branch and for the SQLite
    branch (on rows whose [data] cell parses). *)
Theorem no_item_is_handed_out_twice_in_a_cycle {P : Type} `{Bson P} `{Json P}
    (collectionName : string) (sampleData : list (BaseItem P)) (now : Timestamp) :
  (∀ (s : Store P) (users : list UserId),
     wf s → unassigned_when_unused s →
     (length users ≤ length (matching unused s))%nat →
     handed_out payload_mongodb users s
       (for_each_push users
          (λ userId, V1.getItemFromCollection collectionName userId sampleData) s))
  ∧ (∀ (s : Store P) (calls : list (UserId * Random)),
     wf s → unassigned_when_unused s →
     (length calls ≤ length (matching unused s))%nat →
     handed_out payload_mongodb (fst <$> calls) s
       (for_each_push calls
          (λ c, V2.getItemFromCollection_mongodb collectionName c.1 sampleData c.2) s))
  ∧ (∀ (t : Sqlite.Table) (calls : list (UserId * Random)),
     wf t → unassigned_when_unused t → readable (P:=P) t →
     (length calls ≤ length (matching unused t))%nat →
     handed_out (payload_sqlite (P:=P)) (fst <$> calls) t
       (for_each_push calls
          (λ c, V2.getItemFromCollection_sqlite collectionName c.1 sampleData c.2 now) t)).
Proof.
  split_and!.
  - intros s users Hwf Hclean Hlen.
    rewrite <- (list_fmap_id users) at 1.
    apply (calls_hand_out (λ _ : UserId, pick_first) id payload_mongodb)
      with (name := collectionName); try done.
    + intros a s' Hwf' Hne. by apply V1_getItem_rotate.
    + apply Forall_payload_mongodb.
  - intros s calls Hwf Hclean Hlen.
    apply (calls_hand_out (λ c : UserId * Random, pick_random c.2) fst payload_mongodb)
      with (name := collectionName); try done.
    + intros a s' Hwf' Hne. by apply V2_getItem_mongodb_rotate.
    + apply Forall_payload_mongodb.
  - intros t calls Hwf Hclean Hr Hlen.
    apply (calls_hand_out (λ c : UserId * Random, pick_random c.2) fst
             (payload_sqlite (P:=P)))
      with (name := collectionName); try done.
    intros a t' Hwf' Hne. rewrite V2_getItem_sqlite_rotate. cbv zeta.
    by rewrite seeded_table_ne.
Qed.

(** The three events after their seeding, handed out to alice, to bob and
    to alice again. *)
Lemma the_three_events_are_handed_out_once :
  handed_out payload_mongodb ["alice"; "bob"; "alice"] three_fresh
    (for_each_push [("alice", mkRandom 2 0); ("bob", mkRandom 0 0); ("alice", mkRandom 5 1)]
       (λ c, V2.getItemFromCollection_mongodb "events" c.1 eventSampleData c.2)
       three_fresh).
Proof.
  destruct (no_item_is_handed_out_twice_in_a_cycle (P:=MessageData)
              "events" eventSampleData 0) as (_ & Hmongo & _).
  apply (Hmongo three_fresh
           [("alice", mkRandom 2 0); ("bob", mkRandom 0 0); ("alice", mkRandom 5 1)]).
  - compute_done.
  - intros d Hd _. revert d Hd. apply Forall_forall. by repeat constructor.
  - vm_compute. lia.
Defined.

(** ** A row that does not parse *)

Section Unreadable.
Context {D : Type}.

Lemma rotate_holds (pick : list (Stored D) → option (Stored D)) `{!Picker pick}
    u (s : Store D) chosen :
  wf s → (rotate pick u s).2 = Some chosen →
  ∃ d' : Stored D, d' ∈ docs (rotate pick u s).1 ∧ data d' = data chosen ∧ held_by u d'
        ∧ last (journal (rotate pick u s).1) = Some (Updated [_id d'] (set_assign u)).
Proof.
  intros Hwf. unfold rotate.
  destruct (pick (matching (candidate u) s)) as [c|] eqn:Hp.
  - cbn [fst snd]. intros [= <-].
    apply pick_elem_of, list_elem_of_filter in Hp as [_ Hc].
    exists (update (set_assign u) c). split_and!; [|done|done|].
    + cbn [update_where docs]. apply list_elem_of_fmap. exists c. split; [|done].
      by rewrite (proj2 (by_id_true _ _)).
    + destruct (only_assigned_intro u s c Hwf Hc) as (_ & -> & _).
      by rewrite last_snoc.
  - cbv zeta. destruct (pick (docs (update_where everything set_reset s))) as [c|] eqn:Hr;
      [|done].
    cbn [fst snd]. intros [= <-].
    apply pick_elem_of in Hr.
    exists (update (set_assign u) c). split_and!; [|done|done|].
    + cbn [update_where docs]. apply list_elem_of_fmap. exists c. split; [|done].
      by rewrite (proj2 (by_id_true _ _)).
    + destruct (only_assigned_intro u (update_where everything set_reset s) c)
        as (_ & -> & _); [by apply wf_update_where|done|].
      by rewrite last_snoc.
Qed.
End Unreadable.

(** X12. The SQLite branch of [getItemFromCollection] assigns the row it
    has selected before it parses the [data] cell of the row: when the call
    throws on a table that is not empty, the exception is the
    [SyntaxError] of [JSON.parse], and the last statement of the call has
    assigned to the user a row whose [data] cell does not parse; this row
    is now used and assigned to the user, although the user got nothing. *)
Theorem an_unreadable_row_is_assigned_before_the_call_throws {P : Type} `{Json P}
    (collectionName : string) (userId : UserId) (sampleData : list (BaseItem P))
    (r : Random) (now : Timestamp) (t : Sqlite.Table) (e : Exception) :
  wf t → docs t ≠ [] →
  let result := V2.getItemFromCollection_sqlite collectionName userId sampleData r now t in
  result.2 = Thrown e →
  e = SyntaxError
  ∧ ∃ row : Stored string,
      row ∈ docs result.1 ∧ payload_sqlite (P:=P) row = None ∧ held_by userId row
      ∧ last (journal result.1) = Some (Updated [_id row] (set_assign userId)).
Proof.
  intros Hwf Hne. cbv zeta. rewrite V2_getItem_sqlite_rotate. cbv zeta.
  rewrite seeded_table_ne by done. cbn [fst snd].
  destruct (rotate (pick_random r) userId t).2 as [chosen|] eqn:Hc; [|done].
  cbn [respond_with]. destruct (payload_sqlite chosen) as [p|] eqn:Hp; [done|].
  intros [= <-]. split; [done|].
  destruct (rotate_holds (pick_random r) userId t chosen Hwf Hc)
    as (row & Hrow & Hdata & Hheld & Hlast).
  exists row. split_and!; try done. unfold payload_sqlite in *. by rewrite Hdata.
Qed.

(** A table whose only row holds the text [oops]. *)
Lemma the_row_oops_is_assigned_to_alice :
  let result := V2.getItemFromCollection_sqlite "events" "alice" eventSampleData
                  (mkRandom 0 0) 0 one_unreadable_row in
  SyntaxError = SyntaxError
  ∧ ∃ row : Stored string,
      row ∈ docs result.1 ∧ payload_sqlite (P:=MessageData) row = None
      ∧ held_by "alice" row
      ∧ last (journal result.1) = Some (Updated [_id row] (set_assign "alice")).
Proof.
  apply (an_unreadable_row_is_assigned_before_the_call_throws (P:=MessageData)
           "events" "alice" eventSampleData (mkRandom 0 0) 0 one_unreadable_row
           SyntaxError).
  - compute_done.
  - done.
  - reflexivity.
Defined.

(** ** The operations on a client that cannot serve them *)

Section Failing.
Context {P : Type} `{Bson P} `{Json P}.

Lemma on_store_sqlite_no_table {A} name (mongo : M (Store P) A)
    (sqlite : M Sqlite.Table A) (c : SQLiteClient) :
  db_open c = true → tables c !! name = None →
  on_store name mongo sqlite (OfSQLite c)
  = (OfSQLite c, Thrown (SqliteError ("SQLITE_ERROR: no such table: " +:+ name))).
Proof.
  intros Hopen Ht. unfold on_store, getCollection, on_mongodb,
    SQLiteClientImpl.getCollection, instanceof_Collection, Sqlite.with_table. run.
  rewrite Hopen. cbn [negb]. run. rewrite Ht. by destruct c; simplify_eq/=.
Qed.

Lemma promise_all_failing {S} (ms : list (M S unit)) (s : S) e :
  ms ≠ [] → Forall (λ m, m s = (s, Thrown e)) ms →
  promise_all ms s = (s, Thrown e).
Proof.
  intros Hne Hall. induction Hall as [|m ms Hm Hall IH]; [done|].
  cbn [promise_all]. rewrite Hm.
  destruct ms as [|m' ms']; [done|]. by rewrite IH.
Qed.

Lemma initializeCollections_failing (configs : list (CollectionConfig P)) now
    (cl : DatabaseClient P) e :
  configs ≠ [] →
  (∀ name {A} (mongo : M (Store P) A) (sqlite : M Sqlite.Table A),
     on_store name mongo sqlite cl = (cl, Thrown e)) →
  V2.initializeCollections configs now cl = (cl, Thrown e).
Proof.
  intros Hne Hfail. unfold V2.initializeCollections. apply promise_all_failing.
  - by destruct configs.
  - apply Forall_fmap, Forall_forall. intros [name sd] _. cbn. apply Hfail.
Qed.
End Failing.

(** X13. On a [SQLiteClient] that is not connected every operation of the
    second generation fails with the error "Database not connected" of
    [getCollection] and leaves the client and its tables as they are:
    [getItemFromCollection], [createItems], [markAllItemsAsUsed],
    [deleteItemsByUser] and, when at least one collection is declared,
    [initializeCollections]. *)
Theorem the_operations_need_a_connected_SQLiteClient {P : Type} `{Bson P} `{Json P}
    (c : SQLiteClient) (collectionName : string) (userId : UserId)
    (sampleData : list (BaseItem P)) (r : Random) (now : Timestamp) (items : list P)
    (collections : list (CollectionConfig P)) :
  db_open c = false →
  V2.getItemFromCollection collectionName userId sampleData r now (OfSQLite c)
    = (OfSQLite c, Thrown (Error "Database not connected"))
  ∧ V2.createItems collectionName userId items now (OfSQLite c)
    = (OfSQLite c, Thrown (Error "Database not connected"))
  ∧ V2.markAllItemsAsUsed (P:=P) collectionName (OfSQLite c)
    = (OfSQLite c, Thrown (Error "Database not connected"))
  ∧ V2.deleteItemsByUser (P:=P) collectionName userId (OfSQLite c)
    = (OfSQLite c, Thrown (Error "Database not connected"))
  ∧ (collections ≠ [] →
     V2.initializeCollections collections now (OfSQLite c)
     = (OfSQLite c, Thrown (Error "Database not connected"))).
Proof.
  intros Hclosed.
  destruct (V2_operations_on_store collectionName userId sampleData r now items)
    as (-> & _ & -> & ->).
  rewrite createItems_on_store by (intros _ c' [= <-]; congruence).
  split_and!; try by apply on_store_sqlite_not_connected.
  intros Hne. apply initializeCollections_failing; [done|].
  intros name A mongo sqlite. by apply on_store_sqlite_not_connected.
Qed.

(** Before the first [connect()]. *)
Lemma getEvent_before_connect :
  V2.getItemFromCollection "events" "alice" eventSampleData (mkRandom 0 0) 0
    (OfSQLite new_sqlite)
  = (OfSQLite new_sqlite, Thrown (Error "Database not connected")).
Proof.
  exact (proj1 (the_operations_need_a_connected_SQLiteClient (P:=MessageData)
                  new_sqlite "events" "alice" eventSampleData (mkRandom 0 0) 0
                  [] COLLECTIONS eq_refl)).
Defined.

(** X14. On a connected [SQLiteClient] the statements of the second
    generation run on the table that has the name of the collection,
    whatever the case of its letters.  For a collection name made of
    letters, digits and underscores, when the database has no table of this
    name, [getItemFromCollection], [markAllItemsAsUsed], [deleteItemsByUser]
    and [createItems] with at least one item fail with an error and leave
    the client and its tables as they are: nothing creates the table.
    [createItems] with no item runs no statement: it answers
    [insertedCount = 0] all the same. *)
Theorem the_operations_need_the_table_on_SQLite {P : Type} `{Bson P} `{Json P}
    (collectionName : string) (userId : UserId) (sampleData : list (BaseItem P))
    (r : Random) (now : Timestamp) (items : list P) (c : SQLiteClient) :
  db_open c = true →
  plain_name collectionName = true →
  (∀ name, same_table_name name collectionName → tables c !! name = None) →
  (∃ e, V2.getItemFromCollection collectionName userId sampleData r now (OfSQLite c)
        = (OfSQLite c, Thrown e))
  ∧ (items ≠ [] →
     ∃ e, V2.createItems collectionName userId items now (OfSQLite c)
          = (OfSQLite c, Thrown e))
  ∧ V2.createItems (P:=P) collectionName userId [] now (OfSQLite c)
    = (OfSQLite c, Returned (mkResponse true (InsertedData 0 [])))
  ∧ (∃ e, V2.markAllItemsAsUsed (P:=P) collectionName (OfSQLite c)
          = (OfSQLite c, Thrown e))
  ∧ (∃ e, V2.deleteItemsByUser (P:=P) collectionName userId (OfSQLite c)
          = (OfSQLite c, Thrown e)).
Proof.
  intros Hopen _ Hnone.
  assert (tables c !! collectionName = None) as Hexact by by apply Hnone.
  destruct (V2_operations_on_store collectionName userId sampleData r now items)
    as (-> & Hcreate & -> & ->).
  split_and!; try (eexists; by apply on_store_sqlite_no_table).
  - intros Hne. rewrite Hcreate by done. eexists. by apply on_store_sqlite_no_table.
  - by apply createItems_none_sqlite.
Qed.

(** ** [database.ts] *)

(** X15. [createDatabaseClient] gives a client of the kind the
    configuration asks for, which is not connected: a [MongoDBClient] for
    the type [mongodb] with a connection string that is there and that the
    driver accepts, on the database [MONGODB_DB] or [events_db], never on a
    database without a name; a [SQLiteClient] for the type [sqlite] with a
    file name that is there, on this file.  In every other case it throws:
    the error of the missing connection string, the error of the driver,
    the error of the missing file name or the error of the unsupported
    type.  The error of the constructor of [SQLiteClient] ("filename
    cannot be null") is never raised through it. *)
Theorem createDatabaseClient_gives_a_client_that_is_not_connected {P : Type}
    (config : DatabaseConfig) (MONGODB_DB : option string) (accepted : DriverResult)
    (server : MongoClient P) (file : Sqlite.Tables) :
  match createDatabaseClient config MONGODB_DB accepted server file with
  | Returned cl =>
      isConnected cl = false
      ∧ match cl with
        | OfMongoDB c =>
            type config = "mongodb" ∧ is_missing (mongoUri config) = false
            ∧ accepted = Succeeds ∧ client c = server
            ∧ dbName c ≠ "" ∧ (is_missing MONGODB_DB = true → dbName c = "events_db")
            ∧ (is_missing MONGODB_DB = false → MONGODB_DB = Some (dbName c))
        | OfSQLite c =>
            type config = "sqlite" ∧ sqliteFile config = Some (dbFile c)
            ∧ dbFile c ≠ "" ∧ tables c = file
        end
  | Thrown e =>
      (type config = "mongodb" ∧ is_missing (mongoUri config) = true
       ∧ e = Error "MongoDB URI is required for MongoDB client")
      ∨ (type config = "mongodb" ∧ is_missing (mongoUri config) = false
         ∧ accepted = Fails e)
      ∨ (type config = "sqlite" ∧ is_missing (sqliteFile config) = true
         ∧ e = Error "SQLite file path is required for SQLite client")
      ∨ (type config ≠ "mongodb" ∧ type config ≠ "sqlite"
         ∧ e = Error ("Unsupported database type: " +:+ type config))
  end.
Proof.
  unfold createDatabaseClient.
  destruct (decide (type config = "mongodb")) as [Hm|Hm].
  - destruct (is_missing (mongoUri config)) eqn:Huri; [by left|].
    destruct accepted as [|e]; [|right; by left].
    split; [done|]. cbn. split_and!; try done.
    + destruct MONGODB_DB as [v|]; cbn; [|done]. by destruct (decide (v = "")).
    + destruct MONGODB_DB as [v|]; cbn; [|done].
      rewrite bool_decide_eq_true. intros ->. done.
    + destruct MONGODB_DB as [v|]; cbn; [|done].
      rewrite bool_decide_eq_false. intros Hv. by rewrite decide_False.
  - destruct (decide (type config = "sqlite")) as [Hs|Hs].
    + destruct (sqliteFile config) as [f|] eqn:Hf; cbn; [|right; right; by left].
      destruct (bool_decide (f = "")) eqn:Hempty; [right; right; by left|].
      apply bool_decide_eq_false in Hempty. unfold SQLiteClientImpl.new.
      rewrite decide_False by done. by cbn.
    + right; right; right. done.
Qed.

Section Connecting.


End Connecting.



Section Histories.

Lemma last_decision_snoc {C} (decides : C → option bool) calls call before :
  last_decision decides (calls ++ [call]) before
  = default (last_decision decides calls before) (decides call).
Proof.
  unfold last_decision. rewrite omap_app. cbn [omap list_omap].
  destruct (decides call) as [b|]; cbn.
  - by rewrite last_snoc.
  - by rewrite app_nil_r.
Qed.

Lemma mongodb_call_decides {P} call (c : MongoDBClient P) :
  isConnectedFlag (mongodb_call call c)
  = default (isConnectedFlag c) (mongodb_decides call).
Proof. by destruct call as [[|e]|[|e]|name]. Qed.

Lemma sqlite_call_decides call (c : SQLiteClient) :
  db_open (sqlite_call call c) = default (db_open c) (sqlite_decides call).
Proof.
  destruct call as [[|e] [|e'|e']|[|e]|name]; cbn; try done.
  - by destruct (db_open c) eqn:Hopen.
  - by destruct (db_open c) eqn:Hopen.
  - by destruct (db_open c) eqn:Hopen.
Qed.
End Histories.

(** X18. [isConnected()] tells what the last call that the driver has
    completed was: after any sequence of [connect()], [disconnect()] and
    [getCollection()] on a client, it answers [true] when the last
    [connect()] that went through (for SQLite: during which the file
    opened) came after the last [disconnect()] that went through, [false]
    in the opposite case, and what it answered before when no call went
    through.  A call that fails and [getCollection] change nothing. *)
Theorem isConnected_tells_the_last_completed_call {P : Type} :
  (∀ (calls : list MongoDBCall) (c : MongoDBClient P),
     MongoDBClientImpl.isConnected (mongodb_history calls c)
     = last_decision mongodb_decides calls (MongoDBClientImpl.isConnected c))
  ∧ (∀ (calls : list SQLiteCall) (c : SQLiteClient),
     SQLiteClientImpl.isConnected (sqlite_history calls c)
     = last_decision sqlite_decides calls (SQLiteClientImpl.isConnected c)).
Proof.
  split.
  - intros calls c. unfold MongoDBClientImpl.isConnected, mongodb_history.
    induction calls as [|call calls IH] using rev_ind; [done|].
    by rewrite foldl_snoc, last_decision_snoc, mongodb_call_decides, IH.
  - intros calls c. unfold SQLiteClientImpl.isConnected, sqlite_history.
    induction calls as [|call calls IH] using rev_ind; [done|].
    by rewrite foldl_snoc, last_decision_snoc, sqlite_call_decides, IH.
Qed.

(** ** The properties above on the collections of the scenarios *)

(** carol creates two events after the seeding. *)
Lemma carol_creates_two_events :
  appended (created_document "carol" 9 <$> [mkMessage "Go to jail"; mkMessage "Free parking"])
    three_fresh
    (V2.createItems_mongodb "carol" [mkMessage "Go to jail"; mkMessage "Free parking"] 9
       three_fresh).
Proof.
  destruct (createItems_appends_the_items_of_the_user (P:=MessageData) "carol"
              [mkMessage "Go to jail"; mkMessage "Free parking"] 9) as (_ & Hmongo & _).
  by apply Hmongo.
Defined.

(** carol creates two events and deletes her events. *)
Lemma carol_deletes_her_two_events :
  let created := (V2.createItems_mongodb "carol"
                    [mkMessage "Go to jail"; mkMessage "Free parking"] 9 three_fresh).1 in
  let result := V2.deleteItemsByUser_mongodb (P:=MessageData) "carol" created in
  docs result.1 = filter (λ d : Stored MessageData, createdBy d ≠ Some "carol")
                    (docs three_fresh)
  ∧ result.2 = Returned (mkResponse true
      (DeletedData (length (filter (λ d : Stored MessageData, createdBy d = Some "carol")
                              (docs three_fresh))
                    + length [mkMessage "Go to jail"; mkMessage "Free parking"]))).
Proof.
  destruct (deleteItemsByUser_undoes_createItems (P:=MessageData) "carol"
              [mkMessage "Go to jail"; mkMessage "Free parking"] 9) as (Hmongo & _).
  by apply Hmongo.
Defined.

(** carol replaces her events by one. *)
Lemma carol_replaces_her_events :
  let deleted := (V2.deleteItemsByUser_sqlite (P:=MessageData) "carol"
                    three_fresh_rows).1 in
  let result := V2.createItems_sqlite "carol" [mkMessage "Go to jail"] 9 deleted in
  item <$> filter (λ d : Stored string, createdBy d = Some "carol") (docs result.1)
  = created_row "carol" 9 <$> [mkMessage "Go to jail"]
  ∧ filter (λ d : Stored string, createdBy d ≠ Some "carol") (docs result.1)
    = filter (λ d : Stored string, createdBy d ≠ Some "carol") (docs three_fresh_rows).
Proof.
  destruct (createItems_after_deleteItemsByUser_replaces (P:=MessageData) "carol"
              [mkMessage "Go to jail"] 9) as (_ & Hsqlite).
  apply Hsqlite.
Defined.

(** The three events are marked, and bob asks for an event. *)
Lemma bob_gets_an_event_after_the_marking :
  let marked := (V2.markAllItemsAsUsed_mongodb (P:=MessageData) three_fresh).1 in
  resets_and_assigns_one payload_mongodb "bob" marked
    (V2.getItemFromCollection_mongodb "events" "bob" eventSampleData (mkRandom 1 1)
       marked).
Proof.
  destruct (getItemFromCollection_after_markAllItemsAsUsed (P:=MessageData)
              "events" "bob" eventSampleData (mkRandom 1 1) 0) as (Hmongo & _).
  apply Hmongo; [compute_done|done].
Defined.

(** After the seeding, a call of alice and a marking. *)
Lemma the_candidates_after_three_calls :
  let s := mongo_calls [MongoInitialize eventSampleData;
                        MongoGetItem "events" "alice" eventSampleData (mkRandom 1 1);
                        MongoMarkAll] empty_store in
  unassigned_when_unused s ∧ matching (candidate "alice") s = matching unused s.
Proof.
  destruct (the_candidates_are_the_unused_items (P:=MessageData) "alice") as (Hmongo & _).
  apply Hmongo. repeat constructor.
Defined.

(** bob asks for one of the three events. *)
Lemma the_events_keep_their_payloads :
  identity_of <$> docs (V2.getItemFromCollection_mongodb "events" "bob" eventSampleData
                          (mkRandom 1 1) three_fresh).1
  = identity_of <$> docs three_fresh.
Proof.
  destruct (getItemFromCollection_writes_the_flags_only (P:=MessageData)
              "events" "bob" eventSampleData (mkRandom 1 1) 0) as (Hmongo & _).
  destruct (Hmongo three_fresh) as (_ & Hv2 & _); [compute_done|done|exact Hv2].
Defined.

(** A collection [cards], which no [connect()] creates. *)
Lemma cards_on_a_connected_client :
  ∃ e,
    V2.getItemFromCollection "cards" "alice" eventSampleData (mkRandom 0 0) 0
      connected_sqlite = (connected_sqlite, Thrown e).
Proof.
  destruct (the_operations_need_the_table_on_SQLite (P:=MessageData)
              "cards" "alice" eventSampleData (mkRandom 0 0) 0 []
              (SQLiteClientImpl.connect Succeeds Executed
                 (mkSQLiteClient false "data.db" ∅)).1)
    as ((e & He) & _).
  - reflexivity.
  - reflexivity.
  - intros name Hname.
    change (tables (SQLiteClientImpl.connect Succeeds Executed
                      (mkSQLiteClient false "data.db" ∅)).1)
      with (<["questions" := empty_store]>
              (<["events" := empty_store]> (∅ : Sqlite.Tables))).
    destruct (decide (name = "questions")) as [->|Hq]; [discriminate Hname|].
    destruct (decide (name = "events")) as [->|He]; [discriminate Hname|].
    by rewrite !lookup_insert_ne.
  - by exists e.
Defined.

(* ===================================================================== *)
(** * The chat bot, the start of the server and the routes *)
(* ===================================================================== *)

(** ** [MonopolyChatBot] *)

Section ChatBot.

Lemma initialize_complete config bot :
  complete config → Services.initialize config bot = (bot_of config, Returned tt).
Proof.
  intros (Hk & Hu & Hm). unfold Services.initialize.
  by rewrite !decide_False by done.
Qed.

Lemma initialize_incomplete config bot :
  ¬ complete config →
  ∃ message, Services.initialize config bot = (bot, Thrown (Error message)).
Proof.
  intros Hno. unfold Services.initialize.
  destruct (decide (Services.apiKey config = "")); [by eexists|].
  destruct (decide (Services.baseURL config = "")); [by eexists|].
  destruct (decide (Services.model config = "")); [by eexists|].
  destruct Hno. by split_and!.
Qed.

Lemma initialized_with_snoc configs config bot :
  initialized_with (configs ++ [config]) bot
  = if decide (complete config) then bot_of config
    else initialized_with configs bot.
Proof.
  unfold initialized_with. rewrite foldl_snoc.
  destruct (decide (complete config)) as [Hc|Hc].
  - by rewrite initialize_complete.
  - by destruct (initialize_incomplete config (foldl
        (λ bot config, (Services.initialize config bot).1) bot configs) Hc) as [m ->].
Qed.
End ChatBot.

(** X19. The chat bot is initialized exactly when a call of [initialize]
    has been given complete settings (an API key, a base URL and a model,
    none of them empty): a call with a setting missing throws and leaves
    the bot as it was, also when the bot was initialized before, and after
    any sequence of calls the bot has the settings of the last complete
    call.  [createGameEvent] on a bot that is not initialized throws
    "MonopolyChatBot not initialized" whatever the chat model would answer,
    and changes nothing. *)
Theorem the_chat_bot_is_initialized_by_complete_settings `{Json JsonValue}
    (configs : list Services.OpenAIConfig) (completion : Outcome (option string))
    (message : string) :
  let bot := initialized_with configs Services.new in
  (Services.isInitialized bot = true ↔ Exists complete configs)
  ∧ (∀ config, last (filter complete configs) = Some config → bot = bot_of config)
  ∧ (¬ Exists complete configs →
     Services.createGameEvent completion message bot
     = (bot, Thrown (Error "MonopolyChatBot not initialized. Call initialize() first."))).
Proof.
  cbv zeta.
  assert (initialized_with configs Services.new
          = match last (filter complete configs) with
            | Some config => bot_of config
            | None => Services.new
            end) as Hbot.
  { induction configs as [|config configs IH] using rev_ind; [done|].
    rewrite initialized_with_snoc, filter_app, filter_cons, filter_nil.
    destruct (decide (complete config)).
    - by rewrite last_snoc.
    - by rewrite app_nil_r. }
  assert (Exists complete configs ↔ is_Some (last (filter complete configs))) as Hex.
  { rewrite Exists_exists. split.
    - intros (config & Hin & Hc).
      destruct (filter complete configs) as [|c l] eqn:Hf using rev_ind.
      + assert (config ∈ filter complete configs) as Hin'
          by (apply list_elem_of_filter; done).
        rewrite Hf in Hin'. by apply elem_of_nil in Hin'.
      + rewrite last_snoc. by eexists.
    - intros [config Hlast]. exists config.
      apply last_Some_elem_of, list_elem_of_filter in Hlast as [? ?]. done. }
  rewrite Hbot. split_and!.
  - rewrite Hex. destruct (last (filter complete configs)) as [config|]; cbn.
    + split; [by eexists|done].
    + split; [done|]. by intros [? ?].
  - by intros config ->.
  - rewrite Hex. destruct (last (filter complete configs)) as [config|].
    + intros Hno. destruct Hno. by eexists.
    + done.
Qed.

(** ** The start of the server *)

(** X20. The loading of [index.ts] ends in one of three ways, which the
    environment and the driver decide.  With the type [mongodb] (which it
    is when [DB_TYPE] is missing or empty): it exits with the code 1 when
    [MONGODB_URI] is missing or empty, it ends with the exception of the
    driver, which nobody catches, when the driver rejects the connection
    string, and it has a [MongoDBClient] on the database [MONGODB_DB] or
    [events_db] otherwise.  With the type [sqlite] it has a [SQLiteClient]
    on the resolved path of [SQLITE_FILE] or of [./data.db].  With any
    other type it ends with the error "Unsupported database type" of
    [createDatabaseClient], which nobody catches.  The client is not
    connected.  As [path.resolve] gives no empty path, the exit for a
    missing file name and the errors of [createDatabaseClient] and of the
    constructor for a missing connection string or file name never
    happen. *)
Theorem index_loads_with_a_client_or_exits (resolve : string → string)
    (env : Index.Env) (accepted : DriverResult)
    (server : MongoClient Index.ItemData) (file : Sqlite.Tables) :
  (∀ path, resolve path ≠ "") →
  let type := Index.dbType env in
  (is_missing (Index.DB_TYPE env) = true → type = "mongodb")
  ∧ Index.load resolve env accepted server file
    = (if decide (type = "mongodb")
       then if is_missing (Index.MONGODB_URI env)
            then Index.ExitedWith 1
            else match accepted with
                 | Succeeds =>
                     Index.Created
                       (OfMongoDB
                          (mkMongoDBClient server
                             (or_else (Index.MONGODB_DB env) "events_db") false))
                 | Fails error => Index.Uncaught error
                 end
       else if decide (type = "sqlite")
       then Index.Created
              (OfSQLite
                 (mkSQLiteClient false
                    (resolve (or_else (Index.SQLITE_FILE env) "./data.db")) file))
       else Index.Uncaught (Error ("Unsupported database type: " +:+ type))).
Proof.
  intros Hresolve. cbv zeta. split.
  - unfold Index.dbType. destruct (Index.DB_TYPE env) as [v|]; cbn; [|done].
    rewrite bool_decide_eq_true. intros ->. done.
  - unfold Index.load, createDatabaseClient, Index.dbConfig. cbn [type mongoUri sqliteFile].
    destruct (decide (Index.dbType env = "mongodb")) as [Hm|Hm].
    + rewrite (bool_decide_true _ Hm). cbn [andb].
      destruct (is_missing (Index.MONGODB_URI env)) eqn:Huri; [done|].
      rewrite bool_decide_false by (rewrite Hm; done). cbn [andb].
      by destruct accepted as [|e].
    + rewrite (bool_decide_false _ Hm). cbn [andb].
      destruct (decide (Index.dbType env = "sqlite")) as [Hs|Hs].
      * rewrite (bool_decide_true _ Hs). cbn [andb is_missing].
        rewrite bool_decide_false by apply Hresolve. cbn [default].
        unfold SQLiteClientImpl.new. rewrite decide_False by apply Hresolve. done.
      * by rewrite (bool_decide_false _ Hs).
Qed.

(** With [path.resolve] putting the working directory in front, and an
    environment that sets [MONGODB_URI] only. *)
Lemma index_loads_without_DB_TYPE :
  Index.load (λ path, "/srv/" +:+ path) env_without_openai Succeeds ∅ ∅
  = Index.Created (OfMongoDB (mkMongoDBClient ∅ "events_db" false)).
Proof.
  destruct (index_loads_with_a_client_or_exits (λ path, "/srv/" +:+ path)
              env_without_openai Succeeds ∅ ∅) as [_ ->]; [done|reflexivity].
Defined.

Section Starting.

Lemma getInstance_initialize config (instance : Services.Instance) :
  Services.getInstance (Services.initialize config) instance
  = (Some (if decide (complete config) then bot_of config
           else default Services.new instance),
     (Services.initialize config (default Services.new instance)).2).
Proof.
  unfold Services.getInstance. destruct (decide (complete config)) as [Hc|Hc].
  - by rewrite initialize_complete.
  - by destruct (initialize_incomplete config (default Services.new instance) Hc)
      as [m ->].
Qed.

Lemma connect_outcome opened executed (cl : DatabaseClient Index.ItemData) :
  let result := Index.connect opened executed cl in
  if connects cl opened executed
  then result.2 = Returned tt ∧ isConnected result.1 = true
  else ∃ error, result.2 = Thrown error.
Proof.
  cbv zeta. unfold Index.connect, on_mongodb.
  destruct cl as [c|c], opened as [|e], executed as [|e'|e']; cbn;
    unfold MongoDBClientImpl.connect, SQLiteClientImpl.connect,
      SQLiteClientImpl.exec_create_tables, driver, zoom; run; cbn;
    try (split; reflexivity); by eexists.
Qed.
End Starting.

Lemma initializeServices_run
    (env : Index.Env) (opened : DriverResult) (executed : ExecResult) (s : Index.Server) :
  Index.initializeServices env opened executed s
  = let connection := Index.connect opened executed (Index.dbClient s) in
    match connection.2 with
    | Returned _ =>
        (Index.mkServer connection.1
           (Some (if decide (complete (settings_of env)) then bot_of (settings_of env)
                  else default Services.new (Index.chatBot s))),
         Returned Index.Listening)
    | Thrown _ => (Index.mkServer connection.1 (Index.chatBot s),
                   Returned (Index.Exited 1))
    end.
Proof.
  cbv zeta. unfold Index.initializeServices, try_catch, Index.on_dbClient,
    Index.on_chatBot, zoom. run.
  destruct (Index.connect opened executed (Index.dbClient s)) as [cl [[]|error]];
    cbn [fst snd]; [|done].
  cbn [Index.chatBot Index.dbClient].
  fold (settings_of env). rewrite getInstance_initialize.
  destruct (Services.initialize (settings_of env) _) as [b [[]|e]]; cbn; done.
Qed.

(** X21. [initializeServices] never throws.  The server listens exactly
    when [dbClient.connect()] goes through, and the client is then
    connected; in every other case the process exits with the code 1.  The
    chat bot never prevents the start: with settings of the environment
    that are complete it is initialized with them, and with a setting
    missing the error of [initialize] is caught and the bot stays as it
    was. *)
Theorem initializeServices_listens_when_the_database_connects
    (env : Index.Env) (opened : DriverResult) (executed : ExecResult) (s : Index.Server) :
  let result := Index.initializeServices env opened executed s in
  (if connects (Index.dbClient s) opened executed
   then result.2 = Returned Index.Listening
        ∧ isConnected (Index.dbClient result.1) = true
        ∧ Index.chatBot result.1
          = Some (if decide (complete (settings_of env)) then bot_of (settings_of env)
                  else default Services.new (Index.chatBot s))
   else result.2 = Returned (Index.Exited 1)
        ∧ Index.chatBot result.1 = Index.chatBot s).
Proof.
  cbv zeta. rewrite initializeServices_run. cbv zeta.
  pose proof (connect_outcome opened executed (Index.dbClient s)) as Hconnect.
  cbv zeta in Hconnect.
  destruct (connects (Index.dbClient s) opened executed).
  - destruct Hconnect as [-> Hconnected]. done.
  - destruct Hconnect as [error ->]. done.
Qed.

(** ** The routes, step by step *)

Section RoutesRun.
Context `{Json Index.ItemData} `{Json JsonValue}.
Context (events questions : CollectionConfig Index.ItemData).
Implicit Types (s : Index.Server).

Lemma createGameEvent_state completion message bot :
  (Services.createGameEvent completion message bot).1 = bot.
Proof.
  unfold Services.createGameEvent. run. destruct (Services.openaiClient bot); [|done].
  destruct completion as [content|e]; [|done].
  destruct (JSON_parse _) as [[| | | | |]|]; done.
Qed.

Lemma getEvent_run userId r now s :
  is_missing userId = false →
  Index.getEvent events userId r now s
  = let result := V2.getItemFromCollection (config_name events) (default "" userId)
                    (config_sampleData events) r now (Index.dbClient s) in
    (Index.mkServer result.1 (Index.chatBot s),
     Returned match result.2 with
              | Returned found => Index.mkHttpResponse 200 (Index.ResultBody found)
              | Thrown error => Index.unknown_error error
              end).
Proof.
  intros Hu. unfold Index.getEvent, try_catch, Index.on_dbClient, zoom. rewrite Hu. run.
  cbv zeta. by destruct (V2.getItemFromCollection _ _ _ _ _ _) as [cl [found|error]].
Qed.

Lemma getQuestion_run userId r now s :
  is_missing userId = false →
  Index.getQuestion questions userId r now s
  = let result := V2.getItemFromCollection (config_name questions) (default "" userId)
                    (config_sampleData questions) r now (Index.dbClient s) in
    (Index.mkServer result.1 (Index.chatBot s),
     Returned match result.2 with
              | Returned found => Index.mkHttpResponse 200 (Index.ResultBody found)
              | Thrown error => Index.unknown_error error
              end).
Proof.
  intros Hu. unfold Index.getQuestion, try_catch, Index.on_dbClient, zoom. rewrite Hu. run.
  cbv zeta. by destruct (V2.getItemFromCollection _ _ _ _ _ _) as [cl [found|error]].
Qed.

Lemma createEvents_run userId message completion now s :
  is_missing userId = false → is_missing message = false →
  Index.createEvents events userId message completion now s
  = let result := generate_and_create events userId message completion now
                    Index.ResultBody (Index.dbClient s) (Index.chatBot s) in
    (result.1, Returned result.2).
Proof.
  intros Hu Hm. unfold Index.createEvents, generate_and_create, try_catch,
    Index.on_dbClient, Index.on_chatBot, zoom, Services.getInstance, lift, failed.
  rewrite Hu, Hm. cbn [orb]. run. cbn [Index.chatBot Index.dbClient].
  pose proof (createGameEvent_state completion (default "" message)
                (default Services.new (Index.chatBot s))) as Hstate.
  destruct (Services.createGameEvent _ _ _) as [bot [response|error]];
    cbn [fst snd] in *; subst bot.
  - destruct (Services.generated response); cbn [negb]; [|done].
    destruct (map_outcome _ _) as [items|error]; cbn.
    + destruct (V2.createItems _ _ _ _ _) as [cl [created|error]]; cbn; [done|].
      by destruct (Index.not_initialized error).
    + by destruct (Index.not_initialized error).
  - by destruct (Index.not_initialized error).
Qed.

Lemma updateEvents_run userId message completion now s :
  is_missing userId = false → is_missing message = false →
  Index.updateEvents events userId message completion now s
  = let deleted := V2.deleteItemsByUser (config_name events) (default "" userId)
                     (Index.dbClient s) in
    match deleted.2 with
    | Thrown error => (Index.mkServer deleted.1 (Index.chatBot s), Returned (failed error))
    | Returned deleteResult =>
        let result := generate_and_create events userId message completion now
                        (λ created, Index.UpdatedBody (rdata deleteResult) (rdata created))
                        deleted.1 (Index.chatBot s) in
        (result.1, Returned result.2)
    end.
Proof.
  intros Hu Hm. unfold Index.updateEvents, generate_and_create, try_catch,
    Index.on_dbClient, Index.on_chatBot, zoom, Services.getInstance, lift, failed.
  rewrite Hu, Hm. cbn [orb]. run. cbn [Index.chatBot Index.dbClient].
  destruct (V2.deleteItemsByUser _ _ _) as [cl0 [deleteResult|error0]];
    cbn [fst snd Index.chatBot Index.dbClient].
  - pose proof (createGameEvent_state completion (default "" message)
                  (default Services.new (Index.chatBot s))) as Hstate.
    destruct (Services.createGameEvent _ _ _) as [bot [response|error]];
      cbn [fst snd] in *; subst bot.
    + destruct (Services.generated response); cbn [negb]; [|done].
      destruct (map_outcome _ _) as [items|error]; cbn.
      * destruct (V2.createItems _ _ _ _ _) as [cl [created|error]]; cbn; [done|].
        by destruct (Index.not_initialized error).
      * by destruct (Index.not_initialized error).
    + by destruct (Index.not_initialized error).
  - by destruct (Index.not_initialized error0).
Qed.

Lemma missing_fields userId message completion r now s :
  (is_missing userId = true →
   Index.getEvent events userId r now s
   = (s, Returned (Index.mkHttpResponse 400
                     (Index.ErrorBody (Index.Literal "userId is required"))))
   ∧ Index.getQuestion questions userId r now s
     = (s, Returned (Index.mkHttpResponse 400
                       (Index.ErrorBody (Index.Literal "userId is required")))))
  ∧ (is_missing userId || is_missing message = true →
     Index.createEvents events userId message completion now s
     = (s, Returned (Index.mkHttpResponse 400
                       (Index.ErrorBody (Index.Literal "userId and message are required"))))
     ∧ Index.updateEvents events userId message completion now s
       = (s, Returned (Index.mkHttpResponse 400
                         (Index.ErrorBody
                            (Index.Literal "userId and message are required"))))).
Proof.
  split.
  - intros Hu. unfold Index.getEvent, Index.getQuestion, try_catch. by rewrite Hu.
  - intros Hum. unfold Index.createEvents, Index.updateEvents, try_catch. by rewrite Hum.
Qed.
End RoutesRun.

(** ** What an operation does behind a client *)

Section ClientView.
Context {P : Type} `{Bson P} `{Json P}.
Implicit Types (cl : DatabaseClient P).


Lemma on_store_serves {A} name (mongo : M (Store P) A) (sqlite : M Sqlite.Table A)
    cl n :
  (∀ s, wf s → wf (mongo s).1) →
  (∀ t, wf t → readable (P:=P) t → wf (sqlite t).1 ∧ readable (P:=P) (sqlite t).1) →
  serves n cl → serves n (on_store name mongo sqlite cl).1.
Proof.
  intros Hmongo Hsqlite. destruct cl as [c|c].
  - rewrite on_store_mongodb. cbv zeta. cbn [fst serves client dbName].
    rewrite database_insert, collection_insert.
    destruct (decide (n = name)) as [->|]; [apply Hmongo|done].
  - intros (Hopen & t & Ht & Hwf & Hr).
    destruct (tables c !! name) as [t0|] eqn:Ht0.
    + rewrite (on_store_sqlite name mongo sqlite c t0) by done.
      cbn [fst serves db_open tables]. split; [done|].
      destruct (decide (n = name)) as [->|Hne].
      * rewrite lookup_insert_eq. simplify_eq.
        destruct (Hsqlite t Hwf Hr) as [Hwf' Hr']. eauto.
      * rewrite lookup_insert_ne by done. eauto.
    + rewrite on_store_sqlite_no_table by done. cbn [fst serves]. eauto.
Qed.

Lemma on_store_rows {A} name (mongo : M (Store P) A) (sqlite : M Sqlite.Table A) cl
    (R : list Row → Outcome A → list Row → Prop) :
  (∀ s, R (row_of <$> docs s) (mongo s).2 (row_of <$> docs (mongo s).1)) →
  (∀ t, R (row_of <$> docs t) (sqlite t).2 (row_of <$> docs (sqlite t).1)) →
  let result := on_store name mongo sqlite cl in
  (∀ n, n ≠ name → rows_of n result.1 = rows_of n cl)
  ∧ (if reachable name cl
     then R (rows_of name cl) result.2 (rows_of name result.1)
     else result.1 = cl ∧ ∃ error, result.2 = Thrown error).
Proof.
  intros Hmongo Hsqlite. cbv zeta. destruct cl as [c|c].
  - rewrite on_store_mongodb. cbv zeta. cbn [fst snd rows_of reachable client dbName].
    rewrite database_insert. split.
    + intros n Hne. by rewrite collection_insert, decide_False.
    + rewrite collection_insert, decide_True by done. apply Hmongo.
  - cbn [reachable]. destruct (db_open c) eqn:Hopen; cbn [andb].
    + destruct (tables c !! name) as [t|] eqn:Ht.
      * rewrite (on_store_sqlite name mongo sqlite c t) by done.
        cbn [fst snd rows_of tables]. rewrite bool_decide_true by by eexists.
        split.
        -- intros n Hne. by rewrite lookup_insert_ne.
        -- rewrite lookup_insert_eq, Ht. apply Hsqlite.
      * rewrite on_store_sqlite_no_table by done.
        rewrite bool_decide_false by by intros [? ?].
        split; [done|]. split; [done|by eexists].
    + rewrite on_store_sqlite_not_connected by done.
      split; [done|]. split; [done|by eexists].
Qed.

Lemma row_of_number {D} n (batch : list (BaseItem D)) u :
  Forall (λ b, used b = false ∧ assignedTo b = None ∧ createdBy b = Some u) batch →
  row_of <$> number n batch = created_rows u (seq n (length batch)).
Proof.
  intros Hall. revert n. induction Hall as [|b batch (Hu & Ha & Hc) Hall IH]; intros n.
  - done.
  - cbn [number length seq]. unfold created_rows in *. rewrite !fmap_cons, IH.
    unfold row_of at 1. cbn. by rewrite Hu, Ha, Hc.
Qed.

Lemma createItems_mongodb_rows u items now (s : Store P) :
  let result := V2.createItems_mongodb u items now s in
  creates_rows u (length items) (row_of <$> docs s) result.2 (row_of <$> docs result.1).
Proof.
  cbv zeta. destruct (decide (items = [])) as [->|Hne].
  - right. by eexists.
  - left. rewrite createItems_mongodb_run by done. cbn [fst snd insert_all docs].
    exists (seq (nextId s) (length items)). rewrite !length_seq, !length_fmap.
    split_and!; [done|done|]. rewrite fmap_app. f_equal.
    rewrite (row_of_number _ _ u).
    + by rewrite length_fmap.
    + apply Forall_fmap, Forall_forall. by intros p _.
Qed.

Lemma createItems_sqlite_rows u (items : list P) now (t : Sqlite.Table) :
  let result := V2.createItems_sqlite u items now t in
  creates_rows (P:=P) u (length items) (row_of <$> docs t) result.2
    (row_of <$> docs result.1).
Proof.
  cbv zeta. left. rewrite createItems_sqlite_run. cbn [fst snd].
  destruct (docs_insert_each (created_row u now <$> items) t) as [-> _].
  exists (seq (nextId t) (length items)). rewrite !length_seq, !length_fmap.
  split_and!; [done|done|]. rewrite fmap_app. f_equal.
  rewrite (row_of_number _ _ u).
  - by rewrite length_fmap.
  - apply Forall_fmap, Forall_forall. by intros p _.
Qed.

Lemma filter_row_of {D} (Q : Stored D → Prop) (Q' : Row → Prop)
    `{∀ d, Decision (Q d)} `{∀ row, Decision (Q' row)} (l : list (Stored D)) :
  (∀ d, Q d ↔ Q' (row_of d)) →
  row_of <$> filter Q l = filter Q' (row_of <$> l).
Proof.
  intros HQ. induction l as [|d l IH]; [done|]. rewrite fmap_cons, !filter_cons.
  destruct (decide (Q d)) as [Hq|Hq].
  - rewrite decide_True by by apply HQ. by rewrite fmap_cons, IH.
  - rewrite decide_False by by rewrite <- HQ. done.
Qed.

Lemma delete_where_rows {D} u (s : Store D) :
  deletes_rows (P:=P) u (row_of <$> docs s)
    (Returned (mkResponse true (DeletedData (length (matching (created_by u) s)))))
    (row_of <$> docs (delete_where (created_by u) s)).
Proof.
  destruct (filter_created_by u (docs s)) as [Ht Hf].
  unfold deletes_rows, matching. cbn [delete_where docs]. rewrite Ht, Hf. split.
  - do 3 f_equal. rewrite <- (length_fmap row_of). f_equal. by apply filter_row_of.
  - by apply filter_row_of.
Qed.

Lemma createItems_rows name u items now cl :
  let result := V2.createItems name u items now cl in
  (∀ n, n ≠ name → rows_of n result.1 = rows_of n cl)
  ∧ creates_rows u (length items) (rows_of name cl) result.2 (rows_of name result.1).
Proof.
  cbv zeta. destruct (createItems_cases name u items now cl) as [->|[-> ->]].
  - destruct (on_store_rows name (V2.createItems_mongodb u items now)
                (V2.createItems_sqlite u items now) cl (creates_rows u (length items)))
      as [Hother Hrows].
    + apply createItems_mongodb_rows.
    + apply createItems_sqlite_rows.
    + split; [exact Hother|]. destruct (reachable name cl); [exact Hrows|].
      destruct Hrows as [Heq [error Herror]]. right. exists error.
      by rewrite Heq.
  - cbn [fst snd]. split; [done|]. left. exists []. by rewrite app_nil_r.
Qed.

Lemma deleteItemsByUser_rows name u cl :
  let result := V2.deleteItemsByUser (P:=P) name u cl in
  (∀ n, n ≠ name → rows_of n result.1 = rows_of n cl)
  ∧ (if reachable name cl
     then deletes_rows u (rows_of name cl) result.2 (rows_of name result.1)
     else result.1 = cl ∧ ∃ error, result.2 = Thrown error).
Proof.
  apply (on_store_rows name (V2.deleteItemsByUser_mongodb u)
           (V2.deleteItemsByUser_sqlite u) cl (deletes_rows u)).
  - intros s. apply delete_where_rows.
  - intros t. apply delete_where_rows.
Qed.
End ClientView.

(** ** [/createEvents] and [/updateEvents] *)

Section Generating.
Context `{Json Index.ItemData} `{Json JsonValue}.
Implicit Types (s : Index.Server) (cl : DatabaseClient Index.ItemData).

Lemma failed_status error :
  Index.status (failed error) = 500 ∨ Index.status (failed error) = 503.
Proof. unfold failed. destruct (Index.not_initialized error); [by right|by left]. Qed.

Lemma createGameEvent_not_initialized completion message bot :
  Services.isInitialized bot = false →
  (Services.createGameEvent completion message bot).2
  = Thrown (Error "MonopolyChatBot not initialized. Call initialize() first.").
Proof.
  unfold Services.isInitialized, Services.createGameEvent. run.
  destruct (Services.openaiClient bot); [|done].
  by rewrite bool_decide_true.
Qed.

Lemma filter_created_rows u keys :
  filter (λ row, creator row = Some u) (created_rows u keys) = created_rows u keys
  ∧ filter (λ row, creator row ≠ Some u) (created_rows u keys) = [].
Proof.
  unfold created_rows. split.
  - apply filter_Forall_id, Forall_fmap, Forall_forall. by intros k _.
  - apply filter_none. intros row (k & -> & _)%list_elem_of_fmap Hne. by apply Hne.
Qed.

Lemma filter_filter_others u (rows : list Row) :
  filter (λ row, creator row = Some u) (filter (λ row, creator row ≠ Some u) rows) = []
  ∧ filter (λ row, creator row ≠ Some u) (filter (λ row, creator row ≠ Some u) rows)
    = filter (λ row, creator row ≠ Some u) rows.
Proof.
  split.
  - apply filter_none. by intros row [Hne _]%list_elem_of_filter.
  - apply filter_Forall_id, Forall_forall. by intros row [Hne _]%list_elem_of_filter.
Qed.

(** What [generate_and_create] does to the rows of the collections. *)
Lemma generate_and_create_rows userId message completion now respond cl instance :
  let result := generate_and_create Index.events userId message completion now respond
                  cl instance in
  let rows := rows_of "events" cl in
  let rows' := rows_of "events" (Index.dbClient result.1) in
  (∀ n, n ≠ "events" → rows_of n (Index.dbClient result.1) = rows_of n cl)
  ∧ (if decide (Index.status result.2 = 200)
     then ∃ keys, rows' = rows ++ created_rows (default "" userId) keys
                  ∧ Index.body result.2
                    = respond (mkResponse true (InsertedData (length keys) keys))
     else rows' = rows
          ∧ (Index.status result.2 = 400 ∨ Index.status result.2 = 500
             ∨ Index.status result.2 = 503))
  ∧ (Services.isInitialized (default Services.new instance) = false →
     result.2 = Index.unavailable ∧ Index.dbClient result.1 = cl).
Proof.
  cbv zeta. unfold generate_and_create.
  destruct (Services.createGameEvent _ _ _).2 as [response|error] eqn:Hgen.
  - assert (Services.isInitialized (default Services.new instance) = false → False)
      as Hinit.
    { intros Hno. rewrite createGameEvent_not_initialized in Hgen by done. done. }
    destruct (Services.generated response); cbn [negb].
    + destruct (map_outcome _ _) as [items|error].
      * cbv zeta. cbn [fst snd Index.dbClient].
        destruct (createItems_rows "events" (default "" userId) items now cl)
          as [Hother Hrows].
        change (config_name Index.events) with "events".
        split_and!; [exact Hother| |by intros ?%Hinit].
        destruct Hrows as [(keys & Hlen & -> & ->)|(error & -> & ->)].
        -- cbn [Index.status]. rewrite decide_True by done.
           exists keys. by rewrite Hlen.
        -- destruct (failed_status error) as [Hs|Hs]; rewrite Hs;
             rewrite decide_False by done; auto.
      * cbn [fst snd Index.dbClient]. split_and!; [done| |by intros ?%Hinit].
        destruct (failed_status error) as [Hs|Hs]; rewrite Hs;
          rewrite decide_False by done; auto.
    + cbn [fst snd Index.dbClient Index.status].
      split_and!; [done| |by intros ?%Hinit]. rewrite decide_False by done. auto.
  - cbn [fst snd Index.dbClient]. split_and!; [done| |].
    + destruct (failed_status error) as [Hs|Hs]; rewrite Hs;
        rewrite decide_False by done; auto.
    + intros Hno. rewrite createGameEvent_not_initialized in Hgen by done.
      by simplify_eq.
Qed.
End Generating.

(** X22. [/createEvents] stores events exactly when it answers 200.  A
    request without [userId] or without [message] is answered 400 and
    changes nothing.  Otherwise the route leaves every other collection as
    it is, and either it answers 200 with the answer of [createItems],
    [success = true] and the number and the keys of the new items, and the
    collection [events] has these items more, unused, unassigned and created
    by the user; or it answers 400, 500 or 503 and the collection [events]
    holds the items of before.  When the chat bot is not initialized it
    answers 503 with "MonopolyChatBot service is not available" and does
    not touch the database. *)
Theorem createEvents_stores_only_when_it_answers_200
    `{Json Index.ItemData} `{Json JsonValue} (userId message : option string)
    (completion : Outcome (option string)) (now : Timestamp) (s : Index.Server) :
  let result := Index.createEvents Index.events userId message completion now s in
  let rows := rows_of "events" (Index.dbClient s) in
  let rows' := rows_of "events" (Index.dbClient result.1) in
  ∃ response, result.2 = Returned response ∧
  if is_missing userId || is_missing message
  then result.1 = s
       ∧ response = Index.mkHttpResponse 400
           (Index.ErrorBody (Index.Literal "userId and message are required"))
  else
    (∀ n, n ≠ "events" →
       rows_of n (Index.dbClient result.1) = rows_of n (Index.dbClient s))
    ∧ (if decide (Index.status response = 200)
       then ∃ keys, rows' = rows ++ created_rows (default "" userId) keys
                    ∧ Index.body response
                      = Index.ResultBody
                          (mkResponse true (InsertedData (length keys) keys))
       else rows' = rows
            ∧ (Index.status response = 400 ∨ Index.status response = 500
               ∨ Index.status response = 503))
    ∧ (Services.isInitialized (default Services.new (Index.chatBot s)) = false →
       response = Index.unavailable ∧ Index.dbClient result.1 = Index.dbClient s).
Proof.
  cbv zeta. destruct (is_missing userId || is_missing message) eqn:Hmissing.
  - destruct (missing_fields Index.events Index.questions userId message completion
                (mkRandom 0 0) now s) as [_ Hcreate].
    destruct (Hcreate Hmissing) as [-> _]. by eexists.
  - apply orb_false_iff in Hmissing as [Hu Hm].
    rewrite createEvents_run by done. cbv zeta. cbn [fst snd].
    eexists. split; [reflexivity|].
    apply generate_and_create_rows.
Qed.

(** X23. [/updateEvents] deletes before it generates.  For a request whose
    [userId] and [message] are strings or are missing (the route tests
    [!userId] only: a [userId] that is an object reaches [deleteMany] as a
    query, which this statement does not cover): a request without
    [userId] or without [message] is answered 400 and changes nothing.
    Otherwise the items of the other users and the other collections stay
    as they are, and either the route answers 200 with the number of the
    deleted items and the number and the keys of the new ones, and the
    items of the user are the new ones; or it answers 400, 500 or 503 and
    the user has no item left or the collection is as it was.  On a
    connected client that reaches the collection [events], with a driver
    that carries out the calls, every answer other than 200 (the chat bot
    is not initialized, the chat model fails or answers no array, an event
    is [null], the driver rejects an empty batch) leaves the user without
    items: the deletion is not undone.  On a [SQLiteClient] that is not
    connected the route answers 500 or 503 and the client is as it was. *)
Theorem updateEvents_deletes_before_it_generates
    `{Json Index.ItemData} `{Json JsonValue} (userId message : option string)
    (completion : Outcome (option string)) (now : Timestamp) (s : Index.Server) :
  let result := Index.updateEvents Index.events userId message completion now s in
  let user := default "" userId in
  let rows := rows_of "events" (Index.dbClient s) in
  let rows' := rows_of "events" (Index.dbClient result.1) in
  ∃ response, result.2 = Returned response ∧
  if is_missing userId || is_missing message
  then result.1 = s
       ∧ response = Index.mkHttpResponse 400
           (Index.ErrorBody (Index.Literal "userId and message are required"))
  else
    (∀ n, n ≠ "events" →
       rows_of n (Index.dbClient result.1) = rows_of n (Index.dbClient s))
    ∧ filter (λ row, creator row ≠ Some user) rows'
      = filter (λ row, creator row ≠ Some user) rows
    ∧ (if decide (Index.status response = 200)
       then ∃ keys,
              filter (λ row, creator row = Some user) rows' = created_rows user keys
              ∧ Index.body response
                = Index.UpdatedBody
                    (DeletedData (length (filter (λ row, creator row = Some user) rows)))
                    (InsertedData (length keys) keys)
       else (Index.status response = 400 ∨ Index.status response = 500
             ∨ Index.status response = 503)
            ∧ (filter (λ row, creator row = Some user) rows' = [] ∨ rows' = rows))
    ∧ (reachable "events" (Index.dbClient s) = true →
       isConnected (Index.dbClient s) = true →
       Index.status response ≠ 200 →
       filter (λ row, creator row = Some user) rows' = [])
    ∧ (∀ c, Index.dbClient s = OfSQLite c → db_open c = false →
       Index.dbClient result.1 = Index.dbClient s
       ∧ (Index.status response = 500 ∨ Index.status response = 503)).
Proof.
  cbv zeta. destruct (is_missing userId || is_missing message) eqn:Hmissing.
  - destruct (missing_fields Index.events Index.questions userId message completion
                (mkRandom 0 0) now s) as [_ Hcreate].
    destruct (Hcreate Hmissing) as [_ ->]. by eexists.
  - apply orb_false_iff in Hmissing as [Hu Hm].
    rewrite updateEvents_run by done. cbv zeta.
    change (config_name Index.events) with "events".
    destruct (deleteItemsByUser_rows "events" (default "" userId) (Index.dbClient s))
      as [Hother Hrows].
    pose proof (on_store_reachable "events"
                  (V2.deleteItemsByUser_mongodb (default "" userId))
                  (V2.deleteItemsByUser_sqlite (default "" userId))
                  (Index.dbClient s) "events") as Hreach.
    change (on_store "events" _ _) with
      (V2.deleteItemsByUser (P:=Index.ItemData) "events" (default "" userId)) in Hreach.
    destruct (V2.deleteItemsByUser "events" (default "" userId) (Index.dbClient s))
      as [deleted o] eqn:Hdel. cbn [fst snd] in *.
    destruct (reachable "events" (Index.dbClient s)) eqn:Hr.
    + destruct Hrows as [-> Hrows]. cbn [fst snd].
      eexists. split; [reflexivity|].
      destruct (generate_and_create_rows userId message completion now
                  (λ created, Index.UpdatedBody
                     (DeletedData (length (filter (λ row, creator row = Some (default "" userId))
                                             (rows_of "events" (Index.dbClient s)))))
                     (rdata created))
                  deleted (Index.chatBot s)) as (Hother' & Hcases & _).
      cbn [rdata] in *.
      set (result := generate_and_create _ _ _ _ _ _ _ _) in *.
      destruct (filter_filter_others (default "" userId)
                  (rows_of "events" (Index.dbClient s))) as [Hnone Hsame].
      assert (∀ c, Index.dbClient s = OfSQLite c → db_open c = false → False) as Hopen.
      { intros c Hc Hclosed. rewrite Hc in Hr. cbn in Hr. by rewrite Hclosed in Hr. }
      split; [intros n Hne; by rewrite Hother', Hother|].
      destruct (decide (Index.status result.2 = 200)) as [H200|H200].
      * destruct Hcases as (keys & Hrows' & Hbody).
        destruct (filter_created_rows (default "" userId) keys) as [Hc1 Hc2].
        unfold UserId in *. split_and!.
        -- by rewrite Hrows', Hrows, filter_app, Hc2, Hsame, app_nil_r.
        -- exists keys. split; [|done].
           by rewrite Hrows', Hrows, filter_app, Hc1, Hnone.
        -- done.
        -- intros c Hc Hclosed. by destruct (Hopen c).
      * destruct Hcases as [Hsame' Hstatus]. unfold UserId in *.
        rewrite Hsame', Hrows, Hnone, Hsame. split_and!; auto.
        intros c Hc Hclosed. by destruct (Hopen c).
    + destruct Hrows as [-> [error ->]]. cbn [fst snd Index.dbClient].
      eexists. split; [reflexivity|].
      assert (Index.status (failed error) ≠ 200) as H200
        by (destruct (failed_status error) as [Hs|Hs]; by rewrite Hs).
      rewrite decide_False by done.
      pose proof (failed_status error) as Hstatus.
      split_and!; try done.
      * tauto.
      * by right.
Qed.

(** ** A client that serves a collection goes on serving it *)

Section Serving.
Context {P : Type} `{Bson P} `{Json P}.
Implicit Types (s : Store P) (t : Sqlite.Table) (cl : DatabaseClient P).

Lemma mongo_call_wf (call : MongoCall P) s : wf s → wf (mongo_call call s).
Proof. intros Hwf. eapply evolves_wf; [by apply mongo_call_evolves|done]. Qed.

Lemma sqlite_call_readable (call : SqliteCall P) t :
  Forall (λ p : P, round_trips p) (sqlite_payloads call) →
  wf t → readable (P:=P) t →
  wf (sqlite_call_on call t) ∧ readable (P:=P) (sqlite_call_on call t).
Proof.
  intros Hround Hwf Hr. pose proof (sqlite_call_evolves call t Hwf) as Hev. split.
  - by eapply evolves_wf.
  - eapply evolves_readable; [|exact Hev|done].
    intros b (p & Hp & ->)%sqlite_inserts_payload.
    rewrite Forall_forall in Hround. rewrite (Hround p Hp). by eexists.
Qed.

Lemma getItemFromCollection_serves name u sd r now cl n :
  Forall (λ b : BaseItem P, round_trips (data b)) sd →
  serves n cl → serves n (V2.getItemFromCollection name u sd r now cl).1.
Proof.
  intros Hround. apply on_store_serves.
  - intros s. apply (mongo_call_wf (MongoGetItem name u sd r)).
  - intros t. apply (sqlite_call_readable (SqliteGetItem name u sd r now)).
    cbn [sqlite_payloads]. by apply Forall_fmap.
Qed.



(** A call that returns has found an item, whatever the collection was:
    with sample data there is no "No ... available". *)
Lemma getItem_mongodb_returns_item name u sd r s resp :
  sd ≠ [] →
  (V2.getItemFromCollection_mongodb name u sd r s).2 = Returned resp →
  ∃ payload, resp = mkResponse true (ItemData payload).
Proof.
  intros Hsd.
  assert (∀ s', docs s' ≠ [] →
            (V2.getItemFromCollection_mongodb name u sd r s').2 = Returned resp →
            ∃ payload, resp = mkResponse true (ItemData payload)) as Hfull.
  { intros s' Hne. unfold V2.getItemFromCollection_mongodb. run.
    rewrite decide_False by by rewrite length_zero_iff_nil_docs.
    destruct (matching (candidate u) s') as [|d l] eqn:Hm.
    - cbn [length Nat.ltb Nat.leb]. run. rewrite matching_everything.
      destruct (docs (update_where everything set_reset s')) as [|e k] eqn:Hd.
      + cbn [docs update_where] in Hd. apply fmap_nil_inv in Hd. done.
      + cbn [Nat.ltb Nat.leb length].
        destruct ((e :: k) !! randomIndex r (S (length k))) as [item|]; run; [|done].
        cbn [snd]. intros [= <-]. by eexists.
    - cbn [length Nat.ltb Nat.leb].
      destruct ((d :: l) !! randomIndex r (S (length l))) as [item|]; run; [|done].
      cbn [snd]. intros [= <-]. by eexists. }
  destruct (decide (docs s = [])) as [Hnil|Hne]; [|by apply Hfull].
  rewrite V2_getItem_mongodb_seed by done. apply Hfull. by apply docs_stored_ne.
Qed.

Lemma getItem_sqlite_returns_item name u sd r now t resp :
  sd ≠ [] →
  (V2.getItemFromCollection_sqlite name u sd r now t).2 = Returned resp →
  ∃ payload, resp = mkResponse true (ItemData payload).
Proof.
  intros Hsd. rewrite V2_getItem_sqlite_rotate. cbv zeta. cbn [snd].
  assert (docs (seeded_table sd now t) ≠ []) as Hne.
  { unfold seeded_table. destruct (decide (docs t = [])) as [Hnil|]; [|done].
    rewrite docs_insert_each_nil by done. destruct sd as [|b sd]; [done|]. done. }
  destruct (rotate (pick_random r) u (seeded_table sd now t)).2 as [it|] eqn:Hit.
  - cbn [respond_with]. destruct (payload_sqlite it) as [p|]; [|done].
    intros [= <-]. by eexists.
  - apply rotate_None in Hit; [done|apply _].
Qed.

Lemma on_store_returned {A} name (mongo : M (Store P) A) (sqlite : M Sqlite.Table A)
    cl (a : A) :
  (on_store name mongo sqlite cl).2 = Returned a →
  (∃ s, (mongo s).2 = Returned a) ∨ (∃ t, (sqlite t).2 = Returned a).
Proof.
  destruct cl as [c|c].
  - rewrite on_store_mongodb. cbv zeta. cbn [snd]. eauto.
  - destruct (db_open c) eqn:Hopen.
    + destruct (tables c !! name) as [t|] eqn:Ht.
      * rewrite (on_store_sqlite name _ _ c t) by done. cbn [snd]. eauto.
      * by rewrite on_store_sqlite_no_table.
    + by rewrite on_store_sqlite_not_connected.
Qed.

Lemma getItemFromCollection_returns_item name u sd r now cl resp :
  sd ≠ [] →
  (V2.getItemFromCollection name u sd r now cl).2 = Returned resp →
  ∃ payload, resp = mkResponse true (ItemData payload).
Proof.
  intros Hsd.
  change (V2.getItemFromCollection name u sd r now)
    with (on_store name (V2.getItemFromCollection_mongodb name u sd r)
            (V2.getItemFromCollection_sqlite name u sd r now)).
  intros [[s Hs]|[t Ht]]%on_store_returned.
  - by eapply getItem_mongodb_returns_item.
  - by eapply getItem_sqlite_returns_item.
Qed.
End Serving.

(** X24. [/getEvent] and [/getQuestion] never answer "No ... available".
    For a request whose [userId] is a string or is missing: without
    [userId] the answer is 400 and nothing changes; with a [userId] the
    answer is 200 or 500, whatever the client holds, and an answer 200
    always carries [success = true] and the payload of an item, as the
    collection is seeded with the sample data when it is empty; the answer
    500 carries the message of the error.  A client that serves the
    collection (unique keys; on SQLite a connected client, the table and
    rows that parse) serves it afterwards as well, for sample data that
    JSON represents faithfully. *)
Theorem getEvent_and_getQuestion_answer_with_an_item
    `{Json Index.ItemData} `{Json JsonValue} (userId : option string) (r : Random)
    (now : Timestamp) (s : Index.Server) :
  let event := Index.getEvent Index.events userId r now s in
  let question := Index.getQuestion Index.questions userId r now s in
  let rejected := Returned (Index.mkHttpResponse 400
                     (Index.ErrorBody (Index.Literal "userId is required"))) in
  let item_or_error (answer : Outcome Index.HttpResponse) :=
    (∃ payload, answer = Returned (Index.mkHttpResponse 200
                           (Index.ResultBody (mkResponse true (ItemData payload)))))
    ∨ (∃ error, answer = Returned (Index.mkHttpResponse 500
                           (Index.ErrorBody (Index.MessageOf error)))) in
  if is_missing userId
  then event = (s, rejected) ∧ question = (s, rejected)
  else
    item_or_error event.2 ∧ item_or_error question.2
    ∧ (serves "events" (Index.dbClient s) →
       Forall (λ b : BaseItem Index.ItemData, round_trips (data b)) Index.eventSampleData →
       serves "events" (Index.dbClient event.1))
    ∧ (serves "questions" (Index.dbClient s) →
       Forall (λ b : BaseItem Index.ItemData, round_trips (data b))
         Index.questionSampleData →
       serves "questions" (Index.dbClient question.1)).
Proof.
  cbv zeta. destruct (is_missing userId) eqn:Hu.
  - destruct (missing_fields Index.events Index.questions userId None (Returned None)
                r now s) as [Hget _]. by apply Hget.
  - rewrite getEvent_run, getQuestion_run by done. cbv zeta. cbn [fst snd Index.dbClient].
    change (config_name Index.events) with "events".
    change (config_name Index.questions) with "questions".
    change (config_sampleData Index.events) with Index.eventSampleData.
    change (config_sampleData Index.questions) with Index.questionSampleData.
    split_and!.
    + destruct (V2.getItemFromCollection "events" _ _ _ _ _).2 as [resp|error] eqn:Hresp.
      * apply getItemFromCollection_returns_item in Hresp as [payload ->]; [|done].
        left. by eexists.
      * right. by eexists.
    + destruct (V2.getItemFromCollection "questions" _ _ _ _ _).2 as [resp|error] eqn:Hresp.
      * apply getItemFromCollection_returns_item in Hresp as [payload ->]; [|done].
        left. by eexists.
      * right. by eexists.
    + intros Hserves Hround. by apply getItemFromCollection_serves.
    + intros Hserves Hround. by apply getItemFromCollection_serves.
Qed.

(** ** The server, request after request *)

Section Requests.
Context `{Json Index.ItemData} `{Json JsonValue}.
Implicit Types (s : Index.Server) (cl : DatabaseClient Index.ItemData).




End Requests.


(** * The first generations of [index.ts] *)

Section FirstRoutes.
Implicit Types (s : Store MessageData) (client : MongoClient MessageData)
  (u : UserId) (sd : list (BaseItem MessageData)).

Lemma on_db_collection_run {A} dbName name (m : M (Store MessageData) A) client :
  on_db dbName (on_collection name m) client
  = (<[dbName := <[name := (m (collection name (database dbName client))).1]>
                   (database dbName client)]> client,
     (m (collection name (database dbName client))).2).
Proof.
  unfold on_db, on_collection, zoom.
  by destruct (m (collection name (database dbName client))).
Qed.

Lemma collection_after dbName name (c : Store MessageData) client :
  collection name (database dbName
     (<[dbName := <[name := c]> (database dbName client)]> client)) = c.
Proof. by rewrite database_insert, collection_insert, decide_True. Qed.

Lemma collection_same name (c : Store MessageData) (d : Database MessageData) :
  collection name (<[name := c]> d) = c.
Proof. by rewrite collection_insert, decide_True. Qed.

Lemma collection_other name other (c : Store MessageData) (d : Database MessageData) :
  name ≠ other → collection name (<[other := c]> d) = collection name d.
Proof. intros Hne. by rewrite collection_insert, decide_False. Qed.

Lemma on_collection_run {A} name (m : M (Store MessageData) A)
    (d : Database MessageData) :
  on_collection name m d
  = (<[name := (m (collection name d)).1]> d, (m (collection name d)).2).
Proof. unfold on_collection, zoom. by destruct (m (collection name d)). Qed.

(** A document [{ data: { message } }] is stored as it is. *)
Lemma stored_messages sd : stored_document <$> sd = sd.
Proof.
  rewrite <- (list_fmap_id sd) at 2. apply list_fmap_ext. by intros k [[m] ? ? ? ?] _.
Qed.

Lemma initializeCollections_callback_run sd s :
  sd ≠ [] →
  V1.initializeCollections_callback sd s
  = (if decide (docs s = []) then insert_all sd s else s, Returned tt).
Proof.
  intros Hsd. unfold V1.initializeCollections_callback. run.
  destruct (decide (docs s = [])) as [Hnil|Hne].
  - rewrite decide_True by by rewrite length_zero_iff_nil_docs.
    destruct sd as [|b sd]; [done|]. by rewrite (stored_messages (b :: sd)).
  - by rewrite decide_False by by rewrite length_zero_iff_nil_docs.
Qed.

Lemma V1_getItem_answers name u sd s :
  sd ≠ [] →
  ∃ payload, (V1.getItemFromCollection name u sd s).2
             = Returned (mkResponse true (ItemData payload))
             ∧ docs (V1.getItemFromCollection name u sd s).1 ≠ [].
Proof.
  intros Hsd.
  assert (∀ s', docs s' ≠ [] →
            ∃ payload, (V1.getItemFromCollection name u sd s').2
                       = Returned (mkResponse true (ItemData payload))
                       ∧ docs (V1.getItemFromCollection name u sd s').1 ≠ []) as Hfull.
  { intros s' Hne.
    assert (docs (V1.getItemFromCollection name u sd s').1 ≠ []) as Hafter.
    { rewrite <- length_zero_iff_nil, V1_getItem_length. unfold size_after_seeding.
      rewrite decide_False by done. by rewrite length_zero_iff_nil. }
    revert Hafter. unfold V1.getItemFromCollection. run.
    rewrite decide_False by by rewrite length_zero_iff_nil_docs.
    destruct (head (matching (candidate u) s')) as [item|]; run; [by eexists|].
    rewrite matching_everything.
    destruct (head (docs (update_where everything set_reset s'))) as [item|] eqn:Hhead;
      run; [by eexists|].
    apply head_None in Hhead. cbn [docs update_where] in Hhead.
    apply fmap_nil_inv in Hhead. done. }
  destruct (decide (docs s = [])) as [Hnil|Hne]; [|by apply Hfull].
  rewrite V1_getItem_seed by done. apply Hfull. by apply docs_stored_ne.
Qed.

Lemma getEvent_on_collection_nonempty u sd s :
  docs s ≠ [] →
  Index0.getEvent_on_collection u s = V1.getItemFromCollection "events" u sd s.
Proof.
  intros Hne. unfold Index0.getEvent_on_collection, V1.getItemFromCollection. run.
  by rewrite decide_False by by rewrite length_zero_iff_nil_docs.
Qed.

Lemma getEvent_on_collection_empty u s :
  docs s = [] →
  Index0.getEvent_on_collection u s
  = (update_where everything set_reset s,
     Returned (mkResponse false (ErrorData "No events available"))).
Proof.
  intros Hnil. unfold Index0.getEvent_on_collection. run.
  unfold matching at 1. rewrite Hnil. cbn [filter list_filter head].
  unfold matching. cbn [docs update_where]. by rewrite Hnil.
Qed.

Lemma V1_getItem_on_no_events u s :
  docs s = [] →
  let call := V1.getItemFromCollection "events" u eventSampleData s in
  call.2 = Returned (mkResponse true (ItemData (mkMessage "Event 1")))
  ∧ docs call.1
    = [mkStored (nextId s) (mkItem (mkMessage "Event 1") true (Some u) None None);
       mkStored (S (nextId s)) (mkItem (mkMessage "Event 2") false None None None);
       mkStored (S (S (nextId s))) (mkItem (mkMessage "Event 3") false None None None)].
Proof.
  destruct s as [d n j]. cbn [docs nextId journal]. intros ->.
  unfold V1.getItemFromCollection. run. rewrite decide_True by done.
  unfold insert_all, eventSampleData, matching, update_first. cbn -[by_id Nat.add].
  rewrite (bool_decide_false (None = Some u)) by done. cbn -[by_id Nat.add].
  rewrite !decide_True by done. cbn -[by_id Nat.add take]. unfold by_id. cbn [_id item].
  rewrite !(bool_decide_true (n = n)) by done. done.
Qed.

Lemma V1_index_getItem_run dbName name u sd client :
  sd ≠ [] →
  let call := V1.getItemFromCollection name u sd
                (collection name (database dbName client)) in
  ∃ payload,
    try_catch
      (result ← on_db dbName (on_collection name (V1.getItemFromCollection name u sd));
       ret (IndexV1.mkHttpResponse 200 (IndexV1.ResultBody result)))
      (λ _, ret IndexV1.internal_server_error) client
    = (<[dbName := <[name := call.1]> (database dbName client)]> client,
       Returned (IndexV1.mkHttpResponse 200
                   (IndexV1.ResultBody (mkResponse true (ItemData payload)))))
    ∧ call.2 = Returned (mkResponse true (ItemData payload))
    ∧ docs call.1 ≠ [].
Proof.
  intros Hsd. cbv zeta.
  destruct (V1_getItem_answers name u sd (collection name (database dbName client)) Hsd)
    as (payload & Hanswer & Hne).
  exists payload. split; [|done].
  unfold try_catch. run. rewrite on_db_collection_run, Hanswer. done.
Qed.
End FirstRoutes.

(** X26. The routes [/getEvent] and [/getQuestion] of the first
    generation never answer "No ... available".  They answer 400
    "Invalid userId parameter", and touch nothing, exactly when [userId] is
    absent, empty or no string.  For every other request the answer is 200
    with what [getItemFromCollection] returns, or 500 "Internal server
    error" when a call throws; and an answer 200 always carries
    [success = true] and the payload of an item, whatever the collection
    holds, which is not empty afterwards. *)
Theorem the_first_routes_answer_400_or_an_item
    (dbName : string) (userId : option JsonValue) (client : MongoClient MessageData) :
  let event := IndexV1.getEvent dbName userId client in
  let question := IndexV1.getQuestion dbName userId client in
  let item_or_error (name : string)
        (result : MongoClient MessageData * Outcome IndexV1.HttpResponse) :=
    (∃ payload,
       result.2 = Returned (IndexV1.mkHttpResponse 200
                    (IndexV1.ResultBody (mkResponse true (ItemData payload))))
       ∧ docs (collection name (database dbName result.1)) ≠ [])
    ∨ result.2 = Returned IndexV1.internal_server_error in
  match valid_string userId with
  | None => event = (client, Returned (IndexV1.invalid "userId"))
            ∧ question = (client, Returned (IndexV1.invalid "userId"))
  | Some _ => item_or_error "events" event ∧ item_or_error "questions" question
  end.
Proof.
  cbv zeta. unfold IndexV1.getEvent, IndexV1.getQuestion.
  destruct (valid_string userId) as [u|]; [|done].
  destruct (V1_index_getItem_run dbName "events" u eventSampleData client)
    as (e & -> & _ & He); [done|].
  destruct (V1_index_getItem_run dbName "questions" u questionSampleData client)
    as (q & -> & _ & Hq); [done|].
  cbn [fst snd]. rewrite !collection_after. split; left; eauto.
Qed.

(** X27. [/createEvents] of the first generation: an invalid [userId],
    then an invalid [message], gives 400 and nothing else happens.  If the
    chat call throws, the answer is 500 and nothing is stored.  Otherwise
    exactly one event is appended to the collection [events]: its message
    is the content of the completion, or "No response generated" when
    there is none or it is empty; it is unused, unassigned and created by
    the user; the answer is 200 with the message of the user, that text,
    [insertedCount = 1] and the key of the new event. *)
Theorem the_first_createEvents_stores_one_event
    (dbName : string) (userId message : option JsonValue)
    (completion : Outcome (option string)) (now : Timestamp)
    (client : MongoClient MessageData) :
  let result := IndexV1.createEvents dbName userId message completion now client in
  let events := collection "events" (database dbName client) in
  match valid_string userId, valid_string message, completion with
  | None, _, _ => result = (client, Returned (IndexV1.invalid "userId"))
  | Some _, None, _ => result = (client, Returned (IndexV1.invalid "message"))
  | Some _, Some _, Thrown _ =>
      result = (client, Returned IndexV1.internal_server_error)
  | Some userId, Some message, Returned content =>
      let aiResponse := or_else content "No response generated" in
      result.2 = Returned (IndexV1.mkHttpResponse 200
                   (IndexV1.CreatedBody message aiResponse
                      (InsertedData 1 [nextId events])))
      ∧ docs (collection "events" (database dbName result.1))
        = docs events
          ++ [mkStored (nextId events)
                (mkItem (mkMessage aiResponse) false None (Some userId) (Some now))]
      ∧ ∀ name, name ≠ "events" →
          collection name (database dbName result.1)
          = collection name (database dbName client)
  end.
Proof.
  cbv zeta. unfold IndexV1.createEvents.
  destruct (valid_string userId) as [u|]; [|done].
  destruct (valid_string message) as [m|]; [|done].
  destruct completion as [content|error]; [|done].
  unfold try_catch, lift, IndexV1.getCreateEventsChatResponse. run.
  rewrite on_db_collection_run.
  change (V1.createItems u [mkMessage (or_else content "No response generated")] now
            (collection "events" (database dbName client)))
    with (insert_all [mkItem (mkMessage (or_else content "No response generated"))
                        false None (Some u) (Some now)]
            (collection "events" (database dbName client)),
          Returned (mkResponse (P:=MessageData) true
                      (InsertedData 1 [nextId (collection "events"
                                                 (database dbName client))]))).
  cbn [fst snd]. split_and!.
  - done.
  - by rewrite collection_after.
  - intros name Hname. rewrite database_insert, collection_insert.
    by rewrite decide_False.
Qed.

(** X28. [connectToMongo] of the first generation never leaves the server
    listening on an empty collection: when [client.connect()] fails, the
    process exits with code 1 and the database is untouched; when it
    succeeds, the server listens, a collection of [COLLECTIONS] that was
    empty holds its three sample items, and one that held documents is as
    it was. *)
Theorem the_first_connectToMongo_seeds_or_exits
    (dbName : string) (connected : DriverResult) (client : MongoClient MessageData) :
  let start := IndexV1.connectToMongo dbName connected client in
  match connected with
  | Fails _ => start = (client, Returned (Index.Exited 1))
  | Succeeds =>
      start.2 = Returned Index.Listening
      ∧ ∀ config, config ∈ COLLECTIONS →
          let before := collection (name config) (database dbName client) in
          let after := collection (name config) (database dbName start.1) in
          after = (if decide (docs before = [])
                   then insert_all (sampleData config) before else before)
          ∧ docs after ≠ []
  end.
Proof.
  cbv zeta. unfold IndexV1.connectToMongo, try_catch.
  destruct connected as [|error]; [|done].
  unfold driver. run. unfold V1.initializeCollections, COLLECTIONS, on_db, zoom.
  cbn [fmap list_fmap promise_all].
  rewrite on_collection_run, initializeCollections_callback_run by done.
  cbn [fst snd]. rewrite on_collection_run, initializeCollections_callback_run by done.
  cbn [fst snd]. unfold ret. cbn [fst snd]. split; [done|].
  assert (∀ sd (c : Store MessageData), sd ≠ [] →
            docs (if decide (docs c = []) then insert_all sd c else c) ≠ []) as Hne.
  { intros sd c Hsd. destruct (decide (docs c = [])); [by apply docs_insert_all_ne|done]. }
  intros config [->|[->|[]%elem_of_nil]%elem_of_cons]%elem_of_cons; cbn [name sampleData];
    rewrite database_insert.
  - rewrite (collection_other "events" "questions"), collection_same by done.
    split; [done|by apply Hne].
  - rewrite collection_same, (collection_other "questions" "events") by done.
    split; [done|by apply Hne].
Qed.

(** X29. The route [/getEvent] of the first [index.ts], which had the
    rotation in the route itself, is the route of the first generation on
    every collection that holds an event: moving the code to
    [getItemFromCollection] changed no answer and no write there; and the
    collection still holds its events afterwards, so this stays true
    request after request. *)
Theorem the_first_getEvent_was_kept_by_getItemFromCollection
    (dbName : string) (userId : option JsonValue) (client : MongoClient MessageData) :
  docs (collection "events" (database dbName client)) ≠ [] →
  Index0.getEvent dbName "events" userId client = IndexV1.getEvent dbName userId client
  ∧ docs (collection "events"
            (database dbName (Index0.getEvent dbName "events" userId client).1)) ≠ [].
Proof.
  intros Hne. unfold Index0.getEvent, IndexV1.getEvent.
  destruct (valid_string userId) as [u|]; [|done].
  assert (on_db dbName (on_collection "events" (Index0.getEvent_on_collection u)) client
          = on_db dbName (on_collection "events"
                            (V1.getItemFromCollection "events" u eventSampleData)) client)
    as Hsame.
  { rewrite !on_db_collection_run.
    by rewrite (getEvent_on_collection_nonempty u eventSampleData). }
  destruct (V1_index_getItem_run dbName "events" u eventSampleData client)
    as (payload & Hrun & _ & Hafter); [done|].
  split.
  - unfold try_catch, bind in *. by rewrite Hsame.
  - unfold try_catch, bind in *. rewrite Hsame. unfold try_catch, bind in Hrun.
    rewrite Hrun. cbn [fst]. by rewrite collection_after.
Qed.

Lemma the_first_getEvent_on_one_event :
  let client : MongoClient MessageData :=
    {[ "events_db" := {[ "events" := mkStore [mkStored 0 (mkItem (mkMessage "Event 1")
                                                            true (Some "bob") None None)]
                                       1 [Inserted [0]] ]} ]} in
  docs (collection "events" (database "events_db" client)) ≠ []
  ∧ Index0.getEvent "events_db" "events" (Some (JString "bob")) client
    = IndexV1.getEvent "events_db" (Some (JString "bob")) client.
Proof.
  cbv zeta. split; [by vm_compute|].
  apply the_first_getEvent_was_kept_by_getItemFromCollection. by vm_compute.
Defined.

(** X30. On an empty collection the two differ: the first [index.ts]
    answers 200 with [success = false] and "No events available" and
    stores nothing, an answer that no later version can give on MongoDB;
    the route of the first generation seeds the collection with the three
    sample events and hands out "Event 1". *)
Theorem the_first_getEvent_on_an_empty_collection
    (dbName : string) (userId : option JsonValue) (u : UserId)
    (client : MongoClient MessageData) :
  docs (collection "events" (database dbName client)) = [] →
  valid_string userId = Some u →
  let first := Index0.getEvent dbName "events" userId client in
  let later := IndexV1.getEvent dbName userId client in
  first.2 = Returned (IndexV1.mkHttpResponse 200
              (IndexV1.ResultBody (mkResponse false (ErrorData "No events available"))))
  ∧ docs (collection "events" (database dbName first.1)) = []
  ∧ later.2 = Returned (IndexV1.mkHttpResponse 200
                (IndexV1.ResultBody (mkResponse true (ItemData (mkMessage "Event 1")))))
  ∧ item <$> docs (collection "events" (database dbName later.1))
    = [mkItem (mkMessage "Event 1") true (Some u) None None;
       mkItem (mkMessage "Event 2") false None None None;
       mkItem (mkMessage "Event 3") false None None None].
Proof.
  intros Hnil Hvalid. cbv zeta. unfold Index0.getEvent, IndexV1.getEvent.
  rewrite Hvalid. unfold try_catch. run. rewrite !on_db_collection_run.
  rewrite getEvent_on_collection_empty by done. cbn [fst snd].
  rewrite !collection_after.
  set (events := collection "events" (database dbName client)) in *.
  split_and!.
  - done.
  - cbn [docs update_where]. by rewrite Hnil.
  - by destruct (V1_getItem_on_no_events u events Hnil) as [-> _].
  - destruct (V1_getItem_on_no_events u events Hnil) as [-> Hdocs].
    cbn [fst]. by rewrite collection_after, Hdocs.
Qed.

Lemma the_first_getEvent_on_a_new_database :
  let first := Index0.getEvent "events_db" "events" (Some (JString "bob")) ∅ in
  let later := IndexV1.getEvent "events_db" (Some (JString "bob")) ∅ in
  first.2 = Returned (IndexV1.mkHttpResponse 200
              (IndexV1.ResultBody (mkResponse false (ErrorData "No events available"))))
  ∧ later.2 = Returned (IndexV1.mkHttpResponse 200
                (IndexV1.ResultBody (mkResponse true (ItemData (mkMessage "Event 1"))))).
Proof.
  destruct (the_first_getEvent_on_an_empty_collection "events_db"
              (Some (JString "bob")) "bob" ∅) as (Hfirst & _ & Hlater & _);
    [reflexivity|reflexivity|].
  by split.
Defined.
